(** * qtune: solvers, numeric helpers and the run analyzer

    A shallow embedding of [src/qtune/util.py], [src/qtune/solver.py] and the
    gradient loaders of [src/qtune/Analyzer.py], together with the properties
    the specification states about them.

    Conventions.
    - A Python [float] and a NumPy [float64] are IEEE 754 binary64 numbers:
      they are the kernel's primitive floats, so every arithmetic step below
      rounds exactly as the interpreter does.
    - A Python [int] is a [Z].
    - A raised exception is the [Raise] case of [result]; code that mutates
      an object it was handed returns the object's final contents next to its
      result.
    - An [ndarray] is its shape and its elements in row-major order. *)

From Stdlib Require Import ZArith List String Bool Lia Floats DecimalString.
Import ListNotations.

Set Warnings "-register-all".

Local Open Scope string_scope.
Local Open Scope Z_scope.
Local Open Scope list_scope.

(** ** Python: exceptions, sequences, numbers *)

Module Py.

Inductive exn : Type :=
| IndexError
| ValueError
| KeyError
| TypeError
| AssertionError
| ZeroDivisionError
| OverflowError
| EOFError
| LinAlgError
| AttributeError
| RecursionError
| InvalidIndexError
| StopIteration
| NotImplementedError
| RuntimeError (msg : string).

Inductive result (A : Type) : Type :=
| Ok (a : A)
| Raise (e : exn).

Arguments Ok {A} a.
Arguments Raise {A} e.

Definition bind {A B : Type} (m : result A) (k : A -> result B) : result B :=
  match m with
  | Ok a => k a
  | Raise e => Raise e
  end.

Definition is_ok {A : Type} (m : result A) : bool :=
  match m with Ok _ => true | Raise _ => false end.

(** [len(l)] *)
Definition len {A : Type} (l : list A) : Z := Z.of_nat (List.length l).

(** [range(lo, hi)] *)
Definition range (lo hi : Z) : list Z :=
  map (fun k => lo + Z.of_nat k) (seq 0 (Z.to_nat (hi - lo))).

(** The position an index [i] denotes in a sequence of [n] items: negative
    indices count from the end, anything outside [-n .. n-1] is an
    [IndexError]. *)
Definition norm_index (n i : Z) : result nat :=
  if (0 <=? i) && (i <? n) then Ok (Z.to_nat i)
  else if (- n <=? i) && (i <? 0) then Ok (Z.to_nat (i + n))
  else Raise IndexError.

(** [l[i]] *)
Definition getitem {A : Type} (l : list A) (i : Z) : result A :=
  bind (norm_index (len l) i) (fun k =>
    match nth_error l k with
    | Some a => Ok a
    | None => Raise IndexError
    end).

Fixpoint set_nth {A : Type} (l : list A) (k : nat) (v : A) : list A :=
  match l, k with
  | [], _ => []
  | _ :: t, O => v :: t
  | h :: t, S k' => h :: set_nth t k' v
  end.

(** [l[i] = v] *)
Definition setitem {A : Type} (l : list A) (i : Z) (v : A) : result (list A) :=
  bind (norm_index (len l) i) (fun k => Ok (set_nth l k v)).

(** [l[0:stop]] *)
Definition slice_to {A : Type} (l : list A) (stop : Z) : list A :=
  let n := len l in
  let stop' := if stop <? 0 then Z.max 0 (stop + n) else Z.min stop n in
  firstn (Z.to_nat stop') l.

(** [str(n)] for an [int] *)
Definition str (n : Z) : string := NilZero.string_of_int (Z.to_int n).

(** [float(n)] for an [int]: the nearest binary64, [OverflowError] beyond the
    largest one. *)
Definition float_of_int (n : Z) : result float :=
  match binary_normalize prec emax n 0 false with
  | S754_infinity _ => Raise OverflowError
  | sf => Ok (SF2Prim sf)
  end.

(** [int(x)] for a [float]: truncation toward zero. *)
Definition int_of_float (x : float) : result Z :=
  match Prim2SF x with
  | S754_zero _ => Ok 0
  | S754_infinity _ => Raise OverflowError
  | S754_nan => Raise ValueError
  | S754_finite s m e =>
      let a := if 0 <=? e then Z.shiftl (Z.pos m) e else Z.shiftr (Z.pos m) (- e) in
      Ok (if s then - a else a)
  end.

(** [round(x)] for a [float]: the nearest integer, ties to the even one. *)
Definition round (x : float) : result Z :=
  match Prim2SF x with
  | S754_zero _ => Ok 0
  | S754_infinity _ => Raise OverflowError
  | S754_nan => Raise ValueError
  | S754_finite s m e =>
      let a :=
        if 0 <=? e then Z.shiftl (Z.pos m) e
        else
          let q := Z.shiftr (Z.pos m) (- e) in
          let r := Z.pos m - Z.shiftl q (- e) in
          let half := Z.shiftl 1 (- e - 1) in
          if r <? half then q
          else if half <? r then q + 1
          else if Z.even q then q else q + 1 in
      Ok (if s then - a else a)
  end.

(** [a / b] for two [float]s *)
Definition truediv (a b : float) : result float :=
  if PrimFloat.eqb b 0%float then Raise ZeroDivisionError
  else Ok (PrimFloat.div a b).

(** [a / b] for two [int]s *)
Definition int_truediv (a b : Z) : result float :=
  bind (float_of_int a) (fun fa =>
  bind (float_of_int b) (fun fb => truediv fa fb)).

(** [l[start:stop]]: negative bounds count from the end, and both are
    clipped to the sequence. *)
Definition slice {A : Type} (l : list A) (start stop : Z) : list A :=
  let n := len l in
  let clip i := if i <? 0 then Z.max 0 (i + n) else Z.min i n in
  let a := clip start in
  let b := clip stop in
  firstn (Z.to_nat (b - a)) (skipn (Z.to_nat a) l).

(** [sum(v)] for [float]s: from the integer 0, left to right. *)
Definition builtin_sum (v : list float) : float :=
  fold_left PrimFloat.add v 0%float.

(** [sys.maxsize] *)
Definition maxsize : Z := 9223372036854775807.

End Py.

Export Py.

Notation "x <- m ;; k" := (Py.bind m (fun x => k))
  (at level 61, m at next level, right associativity).

(** ** NumPy: float64 arrays *)

Module Np.

Record ndarray : Type := mk_ndarray {
  shape : list nat;
  flat : list float
}.

Definition array1 (v : list float) : ndarray :=
  mk_ndarray [List.length v] v.

Definition ndim (a : ndarray) : nat := List.length (shape a).

(** [np.absolute] *)
Definition absolute (v : list float) : list float := map PrimFloat.abs v.

(** The scan of [np.argmax] over [float64]: the first maximum, or the first
    not-a-number when there is one. [best] is the running maximum, found at
    [bi]; [i] is the position of the head of the list. *)
Fixpoint argmax_from (best : float) (bi i : nat) (v : list float) : nat :=
  match v with
  | [] => bi
  | x :: t =>
      if PrimFloat.leb x best then argmax_from best bi (S i) t
      else if PrimFloat.is_nan x then i
      else argmax_from x i (S i) t
  end.

Definition argmax (v : list float) : result Z :=
  match v with
  | [] => Raise ValueError
  | x :: t =>
      Ok (Z.of_nat (if PrimFloat.is_nan x then O else argmax_from x 0 1 t))
  end.

(** [np.linspace(start, stop, num)] with the end point included. *)
Definition linspace (start stop : float) (num : Z) : result (list float) :=
  if num <? 0 then Raise ValueError
  else
    let div := SF2Prim (binary_normalize prec emax (num - 1) 0 false) in
    let y := map (fun k => SF2Prim (binary_normalize prec emax k 0 false))
                 (Py.range 0 num) in
    let delta := PrimFloat.sub stop start in
    let y1 :=
      if 1 <? num then
        let step := PrimFloat.div delta div in
        if PrimFloat.eqb step 0%float
        then map (fun t => PrimFloat.mul (PrimFloat.div t div) delta) y
        else map (fun t => PrimFloat.mul t step) y
      else map (fun t => PrimFloat.mul t delta) y in
    let y2 := map (fun t => PrimFloat.add t start) y1 in
    Ok (if 1 <? num then Py.set_nth y2 (Z.to_nat (num - 1)) stop else y2).

(** Rows of a two-dimensional array. *)
Fixpoint chunks (rows cols : nat) (v : list float) : list (list float) :=
  match rows with
  | O => []
  | S r => firstn cols v :: chunks r cols (skipn cols v)
  end.

Fixpoint zip_with {A B C : Type} (f : A -> B -> C) (a : list A) (b : list B) : list C :=
  match a, b with
  | x :: a', y :: b' => f x y :: zip_with f a' b'
  | _, _ => []
  end.

(** [np.mean(a, 0)] of a two-dimensional array: the rows are added up one
    after the other and the sums divided by the number of rows. *)
Definition mean0 (rows cols : nat) (v : list float) : list float :=
  let count := SF2Prim (binary_normalize prec emax (Z.of_nat rows) 0 false) in
  let total :=
    match chunks rows cols v with
    | [] => repeat 0%float cols
    | r0 :: rs => fold_left (zip_with PrimFloat.add) rs r0
    end in
  map (fun s => PrimFloat.div s count) total.

(** The scan of [np.argmin], the mirror image of [argmax_from]. *)
Fixpoint argmin_from (best : float) (bi i : nat) (v : list float) : nat :=
  match v with
  | [] => bi
  | x :: t =>
      if PrimFloat.leb best x then argmin_from best bi (S i) t
      else if PrimFloat.is_nan x then i
      else argmin_from x i (S i) t
  end.

Definition argmin (v : list float) : result Z :=
  match v with
  | [] => Raise ValueError
  | x :: t =>
      Ok (Z.of_nat (if PrimFloat.is_nan x then O else argmin_from x 0 1 t))
  end.

End Np.

(** ** [src/qtune/util.py] *)

Module Util.

Import Np.

(** What a call leaves behind: the value returned or the exception raised,
    the contents of the caller's [data] array afterwards, and the lines
    printed. *)
Record outcome : Type := mk_outcome {
  returned : result float;
  data_after : ndarray;
  printed : list string
}.

(** [for i in ...: y[i] -= y[i+n]], on the array [y] itself. An exception
    leaves [y] as the iterations before it made it. *)
Fixpoint difference_in_place (n : Z) (idx : list Z) (y : list float)
  : list float * result unit :=
  match idx with
  | [] => (y, Ok tt)
  | i :: rest =>
      match (a <- getitem y i ;; b <- getitem y (i + n) ;;
             setitem y i (PrimFloat.sub a b)) with
      | Ok y' => difference_in_place n rest y'
      | Raise e => (y, Raise e)
      end
  end.

(** [int(width / scan_range * npoints)] *)
Definition lag (width scan_range : float) (npoints : Z) : result Z :=
  q <- truediv width scan_range ;;
  p <- float_of_int npoints ;;
  int_of_float (PrimFloat.mul q p).

(** [find_lead_transition] from its loop on, for the axis [x], the trace [y]
    and the lag [n]: the trace as the loop leaves it, and the value
    returned. *)
Definition transition_at (x y : list float) (n : Z) : list float * result float :=
  match difference_in_place n (Py.range 0 (len y - n - 1)) y with
  | (y', Raise e) => (y', Raise e)
  | (y', Ok _) =>
      let y_red := Np.absolute (slice_to y' (len y' - n - 1)) in
      (y', (a <- Np.argmax y_red ;;
            h <- int_truediv n 2 ;;
            r <- Py.round h ;;
            getitem x (a + r)))
  end.

(** The body of [find_lead_transition] once [y] is chosen. *)
Definition locate (y : list float) (center scan_range : float) (npoints : Z)
  (width : float) : list float * result float :=
  match Np.linspace (PrimFloat.sub center scan_range)
                    (PrimFloat.add center scan_range) npoints with
  | Raise e => (y, Raise e)
  | Ok x =>
      match lag width scan_range npoints with
      | Raise e => (y, Raise e)
      | Ok n => transition_at x y n
      end
  end.

Definition find_lead_transition (data : ndarray) (center scan_range : float)
  (npoints : Z) (width : float) : outcome :=
  match shape data with
  | [rows; cols] =>
      let y := Np.mean0 rows cols (flat data) in
      mk_outcome (snd (locate y center scan_range npoints width)) data []
  | [_] =>
      let '(y', r) := locate (flat data) center scan_range npoints width in
      mk_outcome r (mk_ndarray (shape data) y') []
  | _ =>
      mk_outcome (Ok nan) data ["data must be a one or two dimensional array!"]
  end.

(** [nth_diff]: a fresh array of [len(data) - n] cells, filled one by one. *)
Fixpoint fill_diff (data : list float) (n : Z) (idx : list Z) (out : list float)
  : result (list float) :=
  match idx with
  | [] => Ok out
  | i :: rest =>
      a <- getitem data i ;;
      b <- getitem data (i + n) ;;
      out' <- setitem out i (PrimFloat.sub a b) ;;
      fill_diff data n rest out'
  end.

Definition nth_diff (data : list float) (n : Z) : result (list float) :=
  if len data - n <? 0 then Raise ValueError
  else fill_diff data n (Py.range 0 (len data - n))
                 (repeat 0%float (Z.to_nat (len data - n))).

(** Arrays of one dimension subtracted as NumPy broadcasts them: equal
    lengths cell by cell, a one-element array against every cell. *)
Definition np_sub (a b : list float) : result (list float) :=
  if Nat.eqb (List.length a) (List.length b) then Ok (Np.zip_with PrimFloat.sub a b)
  else match a, b with
       | [x], _ => Ok (map (fun y => PrimFloat.sub x y) b)
       | _, [y] => Ok (map (fun x => PrimFloat.sub x y) a)
       | _, _ => Raise ValueError
       end.

Definition matrix : Type := list (list float).

(** [np.zeros((rows, cols))] *)
Definition zeros (rows cols : nat) : matrix := repeat (repeat 0%float cols) rows.

(** [m[:][r] = v] on a matrix of [cols] columns: row [r] is overwritten with
    [v], which must fill the row or be a single value. *)
Definition set_row (cols : nat) (m : matrix) (r : Z) (v : list float) : result matrix :=
  k <- norm_index (len m) r ;;
  row <- match v with
         | [x] => Ok (repeat x cols)
         | _ => if Nat.eqb (List.length v) cols then Ok v else Raise ValueError
         end ;;
  Ok (set_nth m k row).

(** The loop of the [n_points == n_gates + 1] branch. *)
Fixpoint fill_forward (n_gates : nat) (parameters voltage_points : list (list float))
  (idx : list Z) (voltage_diff parameter_diff : matrix) : result (matrix * matrix) :=
  match idx with
  | [] => Ok (voltage_diff, parameter_diff)
  | i :: rest =>
      vi <- getitem voltage_points i ;;
      v0 <- getitem voltage_points 0 ;;
      dv <- np_sub vi v0 ;;
      voltage_diff' <- set_row n_gates voltage_diff (i - 1) dv ;;
      pi <- getitem parameters i ;;
      p0 <- getitem parameters 0 ;;
      dp <- np_sub pi p0 ;;
      parameter_diff' <- set_row n_gates parameter_diff (i - 1) dp ;;
      fill_forward n_gates parameters voltage_points rest voltage_diff' parameter_diff'
  end.

(** The loop of the [n_points == 2 * n_gates] branch. *)
Fixpoint fill_paired (n_gates : nat) (parameters voltage_points : list (list float))
  (idx : list Z) (voltage_diff parameter_diff : matrix) : result (matrix * matrix) :=
  match idx with
  | [] => Ok (voltage_diff, parameter_diff)
  | i :: rest =>
      vi <- getitem voltage_points (2 * i + 1) ;;
      v0 <- getitem voltage_points (2 * i) ;;
      dv <- np_sub vi v0 ;;
      voltage_diff' <- set_row n_gates voltage_diff i dv ;;
      pi <- getitem parameters (2 * i + 1) ;;
      p0 <- getitem parameters (2 * i) ;;
      dp <- np_sub pi p0 ;;
      parameter_diff' <- set_row n_gates parameter_diff i dp ;;
      fill_paired n_gates parameters voltage_points rest voltage_diff' parameter_diff'
  end.

Definition dot_row (row col : list float) : float :=
  fold_left (fun acc c => PrimFloat.add acc (PrimFloat.mul (fst c) (snd c)))
            (combine row col) 0%float.

Definition column (b : matrix) (j : nat) : list float :=
  map (fun row => nth j row 0%float) b.

(** [np.dot(a, b)] for a matrix [a] and a matrix [b] of [cols] columns: the
    rows of [a] must be as long as [b] is high. *)
Definition dot (cols : nat) (a b : matrix) : result matrix :=
  if forallb (fun row => Nat.eqb (List.length row) (List.length b)) a
  then Ok (map (fun row => map (fun j => dot_row row (column b j)) (seq 0 cols)) a)
  else Raise ValueError.

Section Gradient.

(** [np.linalg.inv] rests on a LAPACK driver that is not part of the
    repository: [inv m] stands for what it returns for a square matrix, the
    inverse or a [LinAlgError]. *)
Variable inv : matrix -> result matrix.

Definition gradient_min_evaluations (parameters voltage_points : list (list float))
  : result matrix :=
  let n_points := len voltage_points in
  if negb (len voltage_points =? len parameters) then Raise AssertionError
  else
    p0 <- getitem parameters 0 ;;
    v0 <- getitem voltage_points 0 ;;
    let n_parameters := List.length p0 in
    let n_gates := List.length v0 in
    let voltage_diff := zeros n_gates n_gates in
    let parameter_diff := zeros n_parameters n_gates in
    diffs <-
      (if n_points =? Z.of_nat n_gates + 1 then
         fill_forward n_gates parameters voltage_points (Py.range 1 n_points)
                      voltage_diff parameter_diff
       else if n_points =? 2 * Z.of_nat n_gates then
         fill_paired n_gates parameters voltage_points (Py.range 0 (Z.of_nat n_gates))
                     voltage_diff parameter_diff
       else Ok (voltage_diff, parameter_diff)) ;;
    vinv <- inv (fst diffs) ;;
    dot n_gates (snd diffs) vinv.

End Gradient.

(** [nth], kept in a module of its own so that the name does not hide the
    list library's. *)
Module Iter.

(** [nth(iterable, n)]: [itertools.islice] refuses a negative start and one
    beyond [sys.maxsize], then skips [n] items; [next] takes the one after
    them, or raises [StopIteration] when none is left. *)
Fixpoint islice_from {A : Type} (iterable : list A) (n : nat) : list A :=
  match n, iterable with
  | O, _ => iterable
  | S n', _ :: rest => islice_from rest n'
  | S _, [] => []
  end.

Definition nth {A : Type} (iterable : list A) (n : Z) : result A :=
  if (n <? 0) || (maxsize <? n) then Raise ValueError
  else match islice_from iterable (Z.to_nat n) with
       | item :: _ => Ok item
       | [] => Raise StopIteration
       end.

End Iter.

(** [data[a:b]] on the array [data.squeeze()] gives. The array is written
    by its samples: it has at most one axis longer than one, so squeezing
    leaves that axis, or no axis at all when there is a single sample - and
    then there is nothing to slice. *)
Definition squeezed_slice (data : list float) (a b : Z) : result (list float) :=
  if Nat.eqb (List.length data) 1 then Raise IndexError
  else Ok (Py.slice data a b).

(** The first loop of [moving_average_filter]. *)
Fixpoint smooth_head (data : list float) (idx : list Z) (smoothed : list float)
  : result (list float) :=
  match idx with
  | [] => Ok smoothed
  | i :: rest =>
      window <- squeezed_slice data 0 (i + 1) ;;
      smoothed1 <- setitem smoothed i (builtin_sum window) ;;
      cell <- getitem smoothed1 i ;;
      d <- float_of_int (i + 1) ;;
      r <- truediv 1%float d ;;
      smoothed2 <- setitem smoothed1 i (PrimFloat.mul cell r) ;;
      smooth_head data rest smoothed2
  end.

(** The second loop of [moving_average_filter]. *)
Fixpoint smooth_tail (data : list float) (width : Z) (idx : list Z)
  (smoothed : list float) : result (list float) :=
  match idx with
  | [] => Ok smoothed
  | i :: rest =>
      window <- squeezed_slice data (i - width + 1) (i + 1) ;;
      smoothed1 <- setitem smoothed i (builtin_sum window) ;;
      cell <- getitem smoothed1 i ;;
      d <- float_of_int width ;;
      r <- truediv 1%float d ;;
      smoothed2 <- setitem smoothed1 i (PrimFloat.mul cell r) ;;
      smooth_tail data width rest smoothed2
  end.

Definition moving_average_filter (data : list float) (width : Z)
  : result (list float) :=
  let n_points := len data in
  smoothed <- smooth_head data (Py.range 0 width)
                (repeat 0%float (List.length data)) ;;
  smooth_tail data width (Py.range width n_points) smoothed.

Definition find_stepes_point_sensing_dot (data : list float) (scan_range : float)
  (npoints : Z) : result float :=
  data1 <- moving_average_filter data 200 ;;
  data2 <- nth_diff data1 30 ;;
  data3 <- moving_average_filter data2 30 ;;
  a <- Np.argmin data3 ;;
  let max_index := a + 15 in
  fm <- float_of_int max_index ;;
  fn <- float_of_int npoints ;;
  half <- truediv fn 2%float ;;
  let scaled := PrimFloat.mul (PrimFloat.sub fm half) scan_range in
  fn' <- float_of_int npoints ;;
  half' <- truediv fn' 2%float ;;
  truediv scaled half'.

End Util.

(** ** pandas: labelled series *)

Module Pd.

Definition label : Type := string.

(** A [pd.Series]: its index and its values, position by position. *)
Definition Series (V : Type) : Type := list (label * V).

Definition index {V : Type} (s : Series V) : list label := map fst s.
Definition values {V : Type} (s : Series V) : list V := map snd s.

(** A Python value that is either [None] or a series. *)
Definition optional_series : Type := option (Series float).

(** [bool(v)], as [if v:] takes it: [None] is false, and a series of any
    length refuses to be read as a truth value. *)
Definition truth (v : optional_series) : result bool :=
  match v with
  | None => Ok false
  | Some _ => Raise ValueError
  end.

Fixpoint mem (l : label) (ls : list label) : bool :=
  match ls with
  | [] => false
  | h :: t => String.eqb l h || mem l t
  end.

Fixpoint unique (ls : list label) : bool :=
  match ls with
  | [] => true
  | h :: t => negb (mem h t) && unique t
  end.

Fixpoint position (l : label) (ls : list label) : option nat :=
  match ls with
  | [] => None
  | h :: t => if String.eqb l h then Some O else option_map S (position l t)
  end.

Fixpoint lookup {V : Type} (l : label) (s : Series V) : option V :=
  match s with
  | [] => None
  | (h, v) :: t => if String.eqb l h then Some v else lookup l t
  end.

Fixpoint insert_sorted (l : label) (ls : list label) : list label :=
  match ls with
  | [] => [l]
  | h :: t => if String.leb l h then l :: ls else h :: insert_sorted l t
  end.

Definition sort_labels (ls : list label) : list label :=
  fold_right insert_sorted [] ls.

(** The outer join of two indexes of distinct labels, in sorted order. *)
Definition union (a b : list label) : list label :=
  sort_labels (a ++ filter (fun l => negb (mem l a)) b).

Definition float_at (s : Series float) (l : label) : float :=
  match lookup l s with
  | Some v => v
  | None => nan
  end.

(** [a - b] for two series: cell by cell when the indexes are the same,
    otherwise over the union of the labels, a label missing on one side
    giving not-a-number. Alignment refuses an index with a repeated label. *)
Definition sub (a b : Series float) : result (Series float) :=
  if list_eq_dec string_dec (index a) (index b)
  then Ok (Np.zip_with (fun x y => (fst x, PrimFloat.sub (snd x) (snd y))) a b)
  else if unique (index a) && unique (index b)
  then Ok (map (fun l => (l, PrimFloat.sub (float_at a l) (float_at b l)))
               (union (index a) (index b)))
  else Raise ValueError.

(** [s + arr] for a series and a one-dimensional array: the values are added
    position by position, a one-element array being broadcast. *)
Definition add_array (s : Series float) (arr : list float) : result (Series float) :=
  match arr with
  | [x] => Ok (map (fun c => (fst c, PrimFloat.add (snd c) x)) s)
  | _ =>
      if Nat.eqb (List.length s) (List.length arr)
      then Ok (Np.zip_with (fun c x => (fst c, PrimFloat.add (snd c) x)) s arr)
      else Raise ValueError
  end.

(** [s[keys]] for a list of labels: the entries under each key, in the order
    of the keys; a key that is not in the index is a [KeyError]. *)
Fixpoint getitem_labels {V : Type} (s : Series V) (keys : list label)
  : result (Series V) :=
  match keys with
  | [] => Ok []
  | k :: rest =>
      match filter (fun c => String.eqb (fst c) k) s with
      | [] => Raise KeyError
      | hits => r <- getitem_labels s rest ;; Ok (hits ++ r)
      end
  end.

Fixpoint indexer (ix : list label) (keys : list label) : result (list nat) :=
  match keys with
  | [] => Ok []
  | k :: rest =>
      match position k ix with
      | None => Raise KeyError
      | Some p => r <- indexer ix rest ;; Ok (p :: r)
      end
  end.

Fixpoint assign {V : Type} (s : Series V) (ps : list nat) (vals : list V) : Series V :=
  match ps, vals with
  | p :: ps', v :: vals' =>
      assign (match nth_error s p with
              | Some c => Py.set_nth s p (fst c, v)
              | None => s
              end) ps' vals'
  | _, _ => s
  end.

(** [s[keys] = vals] for a list of labels: every key is located in the index
    (which must hold no label twice), there must be as many values as keys,
    and the values are stored at the positions found, in order, so the last
    value stored under a label stays. This is [Series._set_labels]: values
    that come as a series are taken in their order and are not aligned by
    labels of their own, as a pandas release that assigns through [.loc]
    would do. *)
Definition setitem_labels {V : Type} (s : Series V) (keys : list label)
  (vals : list V) : result (Series V) :=
  if unique (index s) then
    ps <- indexer (index s) keys ;;
    if Nat.eqb (List.length ps) (List.length vals) then Ok (assign s ps vals)
    else Raise ValueError
  else Raise InvalidIndexError.

End Pd.

(** ** [src/qtune/solver.py] *)

Module Solver.

Import Pd.

(** The target table: one row per parameter, with the columns [desired],
    [minimum] and [maximum]. *)
Record Target : Type := mk_Target {
  t_index : list label;
  t_desired : list float;
  t_minimum : list float;
  t_maximum : list float
}.

(** [len(target)] *)
Definition target_len (t : Target) : nat := List.length (t_index t).

(** [target.desired] *)
Definition desired (t : Target) : Series float :=
  combine (t_index t) (t_desired t).

(** Modelled from the spec: [qtune.gradient.GradientEstimator], whose source
    is not part of the repository. An estimator answers [estimate()] with its
    current gradient row and [require_measurement()] with either no
    suggestion or a voltage point to measure next. *)
Record GradientEstimator : Type := mk_GradientEstimator {
  estimate : list float;
  require_measurement : optional_series
}.

Module NewtonSolver.

Record state : Type := mk {
  target : Target;
  gradient_estimators : list GradientEstimator;
  current_position : optional_series;
  current_values : Series float
}.

(** [NewtonSolver.__init__] *)
Definition __init__ (target : Target)
  (gradient_estimators : list GradientEstimator)
  (current_position current_values : optional_series) : result state :=
  if Nat.eqb (target_len target) (List.length gradient_estimators) then
    t <- truth current_values ;;
    cv <- (if t then
             match current_values with
             | Some s => getitem_labels s (t_index target)
             | None => Raise TypeError
             end
           else Ok (map (fun l => (l, nan)) (t_index target))) ;;
    Ok (mk target gradient_estimators current_position cv)
  else Raise AssertionError.

(** [pd.DataFrame(gradients, columns=target.index)], as the matrix of its
    rows: every row must have one entry per column. *)
Definition jacobian (self : state) : result (list (list float)) :=
  let gradients := map estimate (gradient_estimators self) in
  let ncols := target_len (target self) in
  if forallb (fun g => Nat.eqb (List.length g) ncols) gradients
  then Ok gradients
  else Raise ValueError.

(** The loop over the estimators at the head of [suggest_next_voltage]. *)
Fixpoint first_suggestion (ests : list GradientEstimator) : result optional_series :=
  match ests with
  | [] => Ok None
  | e :: rest =>
      let suggestion := require_measurement e in
      t <- truth suggestion ;;
      if t then Ok suggestion else first_suggestion rest
  end.

Section Lstsq.

(** [np.linalg.lstsq] rests on a LAPACK driver that is not part of the
    repository: [lstsq_solve a b] stands for the minimum-norm least-squares
    solution it returns for a matrix and a right-hand side of matching
    height. *)
Variable lstsq_solve : list (list float) -> list float -> result (list float).

(** [np.linalg.lstsq(a, b)]: the heights of [a] and [b] must agree. *)
Definition lstsq (a : list (list float)) (b : list float) : result (list float) :=
  if Nat.eqb (List.length a) (List.length b) then lstsq_solve a b
  else Raise LinAlgError.

(** [NewtonSolver.suggest_next_voltage] *)
Definition suggest_next_voltage (self : state) : result (Series float) :=
  sug <- first_suggestion (gradient_estimators self) ;;
  match sug with
  | Some v => Ok v
  | None =>
      match current_position self with
      | None => Raise (RuntimeError "NewtonSolver: Position not initialized.")
      | Some pos =>
          required_diff <- Pd.sub (desired (target self)) pos ;;
          jac <- jacobian self ;;
          step <- lstsq jac (values required_diff) ;;
          add_array pos step
      end
  end.

End Lstsq.

Section Update.

(** Modelled from the spec: [GradientEstimator.update(voltages, value,
    variance, is_new_position=True)], an estimator's own refinement of its
    estimate. It either fails or leaves the estimator in a new state. *)
Variable update :
  GradientEstimator -> Series float -> float -> float -> result GradientEstimator.

(** The loop over [zip(self._gradient_estimators, parameters, variances)]:
    it stops with the shortest of the three, and at the first estimator
    whose update fails, the earlier ones staying updated. *)
Fixpoint update_estimators (ests : list GradientEstimator) (voltages : Series float)
  (values variances : list float) : list GradientEstimator * result unit :=
  match ests, values, variances with
  | estimator :: ests', value :: values', variance :: variances' =>
      match update estimator voltages value variance with
      | Raise e => (ests, Raise e)
      | Ok estimator' =>
          let (rest, r) := update_estimators ests' voltages values' variances' in
          (estimator' :: rest, r)
      end
  | _, _, _ => (ests, Ok tt)
  end.

(** [NewtonSolver.update_after_step]: the solver as the call leaves it, and
    the exception raised if any. *)
Definition update_after_step (self : state)
  (voltages parameters variances : Series float) : state * result unit :=
  let (ests, r) := update_estimators (gradient_estimators self) voltages
                     (values parameters) (values variances) in
  let self1 := mk (target self) ests (current_position self) (current_values self) in
  match r with
  | Raise e => (self1, Raise e)
  | Ok _ =>
      match current_position self with
      | None => (self1, Raise AttributeError)
      | Some position =>
          match getitem_labels parameters (index position) with
          | Raise e => (self1, Raise e)
          | Ok position' =>
              let self2 := mk (target self) ests (Some position') (current_values self) in
              match getitem_labels parameters (index (current_values self)) with
              | Raise e => (self2, Raise e)
              | Ok values' => (mk (target self) ests (Some position') values', Ok tt)
              end
          end
      end
  end.

End Update.

End NewtonSolver.

Module ForwardingSolver.

Record state : Type := mk {
  target : Target;
  parameter_to_voltage : Series label;
  current_position : Series float;
  next_voltage : Series float
}.

(** [ForwardingSolver.__init__] with [next_voltage] left at its default: the
    staged voltage starts as a copy of the current position. *)
Definition __init__ (target : Target) (parameter_to_voltage : Series label)
  (current_position : Series float) : state :=
  mk target parameter_to_voltage current_position current_position.

(** [ForwardingSolver.suggest_next_voltage] *)
Definition suggest_next_voltage (self : state) : Series float :=
  next_voltage self.

(** [ForwardingSolver.update_after_step]: the solver as the call leaves it,
    and the exception raised if any. The assignments made before an exception
    stay. *)
Definition update_after_step (self : state)
  (voltages parameters variances : Series float) : state * result unit :=
  match setitem_labels (current_position self) (index voltages) (values voltages) with
  | Raise e => (self, Raise e)
  | Ok cur =>
    let self1 := mk (target self) (parameter_to_voltage self) cur (next_voltage self) in
    match setitem_labels (next_voltage self) (index voltages) (values voltages) with
    | Raise e => (self1, Raise e)
    | Ok nv =>
      let self2 := mk (target self) (parameter_to_voltage self) cur nv in
      match getitem_labels (parameter_to_voltage self) (index parameters) with
      | Raise e => (self2, Raise e)
      | Ok new_voltage_names =>
        match setitem_labels nv (values new_voltage_names) (values parameters) with
        | Raise e => (self2, Raise e)
        | Ok nv' => (mk (target self) (parameter_to_voltage self) cur nv', Ok tt)
        end
      end
    end
  end.

End ForwardingSolver.

(** An argument of [make_target]: a scalar (the default is not-a-number) or
    a series. *)
Inductive target_arg : Type :=
| Scalar (x : float)
| SeriesArg (s : Series float).

(** The [for ... else] at the head of [make_target]: the index of the first
    argument that is a series. *)
Fixpoint first_index (args : list target_arg) : result (list label) :=
  match args with
  | [] => Raise (RuntimeError "Could not extract parameter names from arguments")
  | SeriesArg ser :: _ => Ok (index ser)
  | Scalar _ :: rest => first_index rest
  end.

(** The inner function [to_series] of [make_target]. *)
Definition to_series (parameters : list label) (arg : target_arg)
  : result (Series float) :=
  match arg with
  | Scalar x => Ok (map (fun l => (l, x)) parameters)
  | SeriesArg ser => getitem_labels ser parameters
  end.

(** A column of [pd.DataFrame({...}, index=parameters)]: a series on that
    very index is taken as it is, any other one is reindexed, which its
    index allows only when it holds no label twice. *)
Definition align (parameters : list label) (ser : Series float)
  : result (list float) :=
  if list_eq_dec string_dec (index ser) parameters then Ok (values ser)
  else if unique (index ser) then Ok (map (float_at ser) parameters)
  else Raise ValueError.

(** [make_target] *)
Definition make_target (desired maximum minimum : target_arg) : result Target :=
  parameters <- first_index [desired; maximum; minimum] ;;
  d <- to_series parameters desired ;;
  mi <- to_series parameters minimum ;;
  ma <- to_series parameters maximum ;;
  cd <- align parameters d ;;
  cmi <- align parameters mi ;;
  cma <- align parameters ma ;;
  Ok (mk_Target parameters cd cmi cma).

End Solver.

(** ** The container file *)

Module H5.

Import Np.

Inductive attr : Type :=
| AInt (n : Z)
| AFloat (x : float)
| AStr (s : string).

(** What [dataset[:]] yields: an array of numbers or an array of names. Names
    are ASCII byte strings, written here as strings. *)
Inductive dataset_value : Type :=
| Floats (a : ndarray)
| Names (l : list string).

Inductive node : Type :=
| Group (attrs : list (string * attr)) (members : list (string * node))
| Dataset (attrs : list (string * attr)) (value : dataset_value).

Definition attrs_of (n : node) : list (string * attr) :=
  match n with
  | Group a _ => a
  | Dataset a _ => a
  end.

Fixpoint assoc {A : Type} (name : string) (l : list (string * A)) : option A :=
  match l with
  | [] => None
  | (k, v) :: t => if String.eqb name k then Some v else assoc name t
  end.

Definition member (g : node) (name : string) : option node :=
  match g with
  | Group _ ms => assoc name ms
  | Dataset _ _ => None
  end.

(** The object a path of member names leads to. *)
Fixpoint resolve (g : node) (path : list string) : option node :=
  match path with
  | [] => Some g
  | name :: rest =>
      match member g name with
      | Some n => resolve n rest
      | None => None
      end
  end.

(** [g.__contains__(path)], a method only groups have. *)
Definition contains (g : node) (path : list string) : result bool :=
  match g with
  | Group _ _ =>
      Ok (match resolve g path with Some _ => true | None => false end)
  | Dataset _ _ => Raise AttributeError
  end.

(** [g[path]] *)
Definition getitem (g : node) (path : list string) : result node :=
  match g with
  | Group _ _ =>
      match resolve g path with
      | Some n => Ok n
      | None => Raise KeyError
      end
  | Dataset _ _ => Raise ValueError
  end.

(** [d[:]] *)
Definition read (d : node) : result dataset_value :=
  match d with
  | Dataset _ v => Ok v
  | Group _ _ => Raise TypeError
  end.

(** The member names of a group, in the order the file iterates them. *)
Definition keys (g : node) : result (list string) :=
  match g with
  | Group _ ms => Ok (map fst ms)
  | Dataset _ _ => Raise TypeError
  end.

Definition is_dataset (n : node) : bool :=
  match n with
  | Dataset _ _ => true
  | Group _ _ => false
  end.

(** [g.attrs[name]] *)
Definition attr_get (g : node) (name : string) : result attr :=
  match assoc name (attrs_of g) with
  | Some a => Ok a
  | None => Raise KeyError
  end.

End H5.

(** ** [src/qtune/Analyzer.py] *)

Module Analyzer.

Import Np H5.

Record Analyzer : Type := mk_Analyzer {
  root_group : node;
  gate_names : list string;
  tunable_gate_names : list string;
  parameter_names : option dataset_value;
  evaluator_names : option (list string)
}.

(** The analyzer object together with the console: the lines printed so far
    and the lines still to be typed in. *)
Record world : Type := mk_world {
  self : Analyzer;
  stdout : list string;
  stdin : list string
}.

(** A method call: from the world before to the value returned (or the
    exception raised) and the world after. *)
Definition M (A : Type) : Type := world -> result A * world.

Definition ret {A : Type} (a : A) : M A := fun w => (Ok a, w).

Definition raise {A : Type} (e : exn) : M A := fun w => (Raise e, w).

Definition mbind {A B : Type} (m : M A) (k : A -> M B) : M B :=
  fun w =>
    match m w with
    | (Ok a, w') => k a w'
    | (Raise e, w') => (Raise e, w')
    end.

Definition lift {A : Type} (r : result A) : M A := fun w => (r, w).

Definition get_self : M Analyzer := fun w => (Ok (self w), w).

Definition set_self (a : Analyzer) : M unit :=
  fun w => (Ok tt, mk_world a (stdout w) (stdin w)).

Definition print (line : string) : M unit :=
  fun w => (Ok tt, mk_world (self w) (stdout w ++ [line]) (stdin w)).

(** [input(prompt)]: the prompt is written out and the next line read. *)
Definition input (prompt : string) : M string :=
  fun w =>
    match stdin w with
    | [] => (Raise EOFError, mk_world (self w) (stdout w ++ [prompt]) [])
    | line :: rest => (Ok line, mk_world (self w) (stdout w ++ [prompt]) rest)
    end.

Local Open Scope string_scope.

Notation "x <~ m ;; k" := (mbind m (fun x => k))
  (at level 61, m at next level, right associativity).

(** The names a dataset of byte strings holds. The container stores gate
    names as byte strings; a dataset of numbers in their place is turned
    down here. *)
Definition read_names (d : node) : result (list string) :=
  v <- read d ;;
  match v with
  | Names l => Ok l
  | Floats _ => Raise TypeError
  end.

(** [Analyzer.load_file], on the root group of the opened file. *)
Definition load_file (root : node) : result Analyzer :=
  g <- (d <- getitem root ["gate_names"] ;; read_names d) ;;
  t <- (d <- getitem root ["tunable_gate_names"] ;; read_names d) ;;
  Ok (mk_Analyzer root g t None None).

Definition tunerun (tune_run_number : Z) : string :=
  "tunerun_" ++ str tune_run_number.

(** [Analyzer.load_parameter_names] *)
Definition load_parameter_names (tune_run_number : Z) : M unit :=
  a <~ get_self ;;
  in_sequence <~ lift (contains (root_group a) [tunerun tune_run_number; "tune_sequence"]) ;;
  if in_sequence then
    g <~ lift (getitem (root_group a) [tunerun tune_run_number; "tune_sequence"]) ;;
    names <~ lift (d <- getitem g ["parameter_names"] ;; read d) ;;
    set_self (mk_Analyzer (root_group a) (gate_names a) (tunable_gate_names a)
                          (Some names) (evaluator_names a))
  else
    in_setup <~ lift (contains (root_group a) [tunerun tune_run_number; "gradient_setup_1"]) ;;
    if in_setup then
      g <~ lift (getitem (root_group a) [tunerun tune_run_number; "gradient_setup_1"]) ;;
      names <~ lift (d <- getitem g ["parameter_names"] ;; read d) ;;
      set_self (mk_Analyzer (root_group a) (gate_names a) (tunable_gate_names a)
                            (Some names) (evaluator_names a))
    else print "parameter_names could not be loaded!".

(** [Analyzer.load_tune_run_group] *)
Definition load_tune_run_group (tune_run_number : Z) : M node :=
  a <~ get_self ;;
  present <~ lift (contains (root_group a) [tunerun tune_run_number]) ;;
  if present then
    tune_run_group <~ lift (getitem (root_group a) [tunerun tune_run_number]) ;;
    _ <~ load_parameter_names tune_run_number ;;
    ret tune_run_group
  else
    _ <~ print ("There is no tunerun number " ++ str tune_run_number ++ "in this file.") ;;
    raise KeyError.

(** The gradient, its covariance and, where stored, its noise. *)
Definition triple : Type := dataset_value * dataset_value * option dataset_value.

(** [load_gradient_from_group] *)
Definition load_gradient_from_group (data_group : node) : result triple :=
  gradient <- (d <- getitem data_group ["gradient"] ;; read d) ;;
  heuristic_covariance <- (d <- getitem data_group ["heuristic_covariance"] ;; read d) ;;
  has_noise <- contains data_group ["heuristic_noise"] ;;
  heuristic_noise <-
    (if has_noise
     then v <- (d <- getitem data_group ["heuristic_noise"] ;; read d) ;; Ok (Some v)
     else Ok None) ;;
  Ok (gradient, heuristic_covariance, heuristic_noise).

Definition no_cd_gradient (gradient_number tune_run_number : Z) : string :=
  "There is no gradient saved for the charge diagram number " ++ str gradient_number
  ++ " in tune run number" ++ str tune_run_number.

(** [Analyzer.load_cd_gradient]. The method calls itself on the run before;
    [depth] bounds the nesting of these calls, and [tune_run_number] of them
    are always enough. *)
Fixpoint load_cd_gradient_at (depth : nat) (gradient_number tune_run_number : Z)
  : M triple :=
  tune_run_group <~ load_tune_run_group tune_run_number ;;
  present <~ lift (contains tune_run_group ["charge_diagram_" ++ str gradient_number]) ;;
  _ <~ (if negb present then
          if tune_run_number >? 0 then
            _ <~ print (no_cd_gradient gradient_number tune_run_number
                        ++ ". We try to find it in a previous run, since it might have been copied.") ;;
            match depth with
            | S depth' =>
                _ <~ load_cd_gradient_at depth' gradient_number (tune_run_number - 1) ;;
                ret tt
            | O => raise RecursionError
            end
          else print (no_cd_gradient gradient_number tune_run_number ++ ".")
        else ret tt) ;;
  cd_group <~ lift (getitem tune_run_group ["charge_diagram_" ++ str gradient_number]) ;;
  lift (load_gradient_from_group cd_group).

Definition load_cd_gradient (gradient_number tune_run_number : Z) : M triple :=
  load_cd_gradient_at (Z.to_nat tune_run_number) gradient_number tune_run_number.

Definition no_gradient_setup (gradient_number tune_run_number : Z) : string :=
  "There is no gradient saved for the gradient setup number " ++ str gradient_number
  ++ " in tune run number" ++ str tune_run_number ++ ".".

(** [Analyzer.load_gradient_group]. Every nested call either has read a line
    from the console or looks at the run before, so [depth] calls are enough
    when [depth] exceeds the lines left plus [tune_run_number]. *)
Fixpoint load_gradient_group_at (depth : nat) (gradient_number tune_run_number : Z)
  : M node :=
  tune_run_group <~ load_tune_run_group tune_run_number ;;
  present <~ lift (contains tune_run_group ["gradient_setup_" ++ str gradient_number]) ;;
  if negb present then
    if tune_run_number >? 0 then
      _ <~ print (no_gradient_setup gradient_number tune_run_number) ;;
      decision <~ input "Would you like to load the gradient from the previous run? (Y/N)" ;;
      if String.eqb decision "Y" then
        _ <~ print "Gradient will be loaded from a previous run!" ;;
        match depth with
        | S depth' => load_gradient_group_at depth' gradient_number (tune_run_number - 1)
        | O => raise RecursionError
        end
      else if String.eqb decision "N" then
        _ <~ print "No gradient could be loaded!" ;;
        raise KeyError
      else
        _ <~ print "This was a yes or no question. Answer with Y or N!" ;;
        match depth with
        | S depth' => load_gradient_group_at depth' gradient_number tune_run_number
        | O => raise RecursionError
        end
    else
      _ <~ print (no_gradient_setup gradient_number tune_run_number) ;;
      raise KeyError
  else lift (getitem tune_run_group ["gradient_setup_" ++ str gradient_number]).

Definition load_gradient_group (gradient_number tune_run_number : Z) : M node :=
  fun w =>
    load_gradient_group_at (List.length (stdin w) + Z.to_nat tune_run_number)
                           gradient_number tune_run_number w.

(** ["evaluator_" in element] *)
Fixpoint contains_substring (needle hay : string) : bool :=
  String.prefix needle hay ||
  match hay with
  | EmptyString => false
  | String _ rest => contains_substring needle rest
  end.

(** The datasets of a group whose name contains [evaluator_]. *)
Fixpoint evaluators_in (g : node) (names : list string) : result (list string) :=
  match names with
  | [] => Ok []
  | element :: rest =>
      n <- getitem g [element] ;;
      r <- evaluators_in g rest ;;
      Ok (if is_dataset n && contains_substring "evaluator_" element
          then element :: r else r)
  end.

(** [Analyzer.load_evaluator_names] *)
Definition load_evaluator_names (tune_run_number : Z) : M (list string) :=
  tune_run_group <~ load_tune_run_group tune_run_number ;;
  has_step <~ lift (contains tune_run_group ["tune_sequence"; "step_0"]) ;;
  run_group <~
    (if has_step then lift (getitem tune_run_group ["tune_sequence"; "step_0"])
     else
       first_gradient_group <~ load_gradient_group 1 tune_run_number ;;
       a <~ get_self ;;
       gate <~ lift (Py.getitem (tunable_gate_names a) 0) ;;
       lift (getitem first_gradient_group ["negative_detune_run_" ++ gate ++ "_0"])) ;;
  list_evaluator_names <~ lift (ks <- keys run_group ;; evaluators_in run_group ks) ;;
  a <~ get_self ;;
  _ <~ set_self (mk_Analyzer (root_group a) (gate_names a) (tunable_gate_names a)
                             (parameter_names a) (Some list_evaluator_names)) ;;
  ret list_evaluator_names.

(** [s[label] = v] for one label: the cell under the label is overwritten,
    a new label is added at the end. *)
Fixpoint series_set {V : Type} (s : Pd.Series V) (l : string) (v : V) : Pd.Series V :=
  match s with
  | [] => [(l, v)]
  | (k, x) :: t => if String.eqb l k then (k, v) :: t else (k, x) :: series_set t l v
  end.

(** [s[label]] for one label *)
Definition series_get {V : Type} (s : Pd.Series V) (l : string) : result V :=
  match Pd.lookup l s with
  | Some v => Ok v
  | None => Raise KeyError
  end.

Definition attributes : Type := list (string * attr).

(** The loop of [load_raw_measurement_pd]. *)
Fixpoint raw_measurement_loop (step_group : node) (evaluators : list string)
  (raw_measurement_pd : Pd.Series dataset_value)
  (attribute_info_pd : Pd.Series attributes)
  : result (Pd.Series dataset_value * Pd.Series attributes) :=
  match evaluators with
  | [] => Ok (raw_measurement_pd, attribute_info_pd)
  | evaluator :: rest =>
      d <- getitem step_group [evaluator] ;;
      v <- read d ;;
      raw_measurement_loop step_group rest
        (series_set raw_measurement_pd evaluator v)
        (series_set attribute_info_pd evaluator (attrs_of d))
  end.

(** [Analyzer.load_raw_measurement_pd] *)
Definition load_raw_measurement_pd (step_group : node)
  : M (Pd.Series dataset_value * Pd.Series attributes) :=
  a <~ get_self ;;
  match evaluator_names a with
  | None => raise TypeError
  | Some evaluators => lift (raw_measurement_loop step_group evaluators [] [])
  end.

(** A [pd.DataFrame] of objects, column by column; an empty cell is [None]. *)
Definition Frame (C : Type) : Type := list (string * Pd.Series (option C)).

(** [pd.DataFrame(index=index, columns=columns)] *)
Definition new_frame {C : Type} (index columns : list string) : Frame C :=
  map (fun c => (c, map (fun r => (r, @None C)) index)) columns.

(** [df[column][row]] *)
Definition frame_get {C : Type} (df : Frame C) (column row : string) : result (option C) :=
  col <- series_get df column ;;
  series_get col row.

(** [df[column][row] = v], for a column and a row the frame has. *)
Definition frame_set {C : Type} (df : Frame C) (column row : string) (v : C)
  : result (Frame C) :=
  col <- series_get df column ;;
  _ <- series_get col row ;;
  Ok (series_set df column (series_set col row (Some v))).

(** [np.concatenate((a, b))], along axis 0, for two arrays of one kind. *)
Definition concatenate (a b : option dataset_value) : result dataset_value :=
  match a, b with
  | Some (Floats x), Some (Floats y) =>
      match shape x, shape y with
      | n :: tx, m :: ty =>
          if list_eq_dec Nat.eq_dec tx ty
          then Ok (Floats (mk_ndarray ((n + m)%nat :: tx) (flat x ++ flat y)%list))
          else Raise ValueError
      | _, _ => Raise ValueError
      end
  | Some (Names x), Some (Names y) => Ok (Names (x ++ y)%list)
  | None, _ | _, None => Raise ValueError
  | _, _ => Raise TypeError
  end.

(** The four tables [load_raw_measurement_gradient_calculation] fills. *)
Record tables : Type := mk_tables {
  raw_measurement_positive_detune_pd : Frame dataset_value;
  raw_measurement_negative_detune_pd : Frame dataset_value;
  parameter_positive_detune_pd : Frame attributes;
  parameter_negative_detune_pd : Frame attributes
}.

(** The loop over the evaluators, for repetition [i] and one gate. *)
Fixpoint accumulate_evaluators (i : Z) (gate : string)
  (raw_measurement_pos_pd raw_measurement_neg_pd : Pd.Series dataset_value)
  (attribute_info_pd_pos attribute_info_pd_neg : Pd.Series attributes)
  (evaluators : list string) (t : tables) : result tables :=
  match evaluators with
  | [] => Ok t
  | evaluator :: rest =>
      matrix_pos <- series_get raw_measurement_pos_pd evaluator ;;
      matrix_neg <- series_get raw_measurement_neg_pd evaluator ;;
      t' <-
        (if (i =? 0)%Z then
           rp <- frame_set (raw_measurement_positive_detune_pd t) gate evaluator matrix_pos ;;
           rn <- frame_set (raw_measurement_negative_detune_pd t) gate evaluator matrix_neg ;;
           info_pos <- series_get attribute_info_pd_pos evaluator ;;
           pp <- frame_set (parameter_positive_detune_pd t) gate evaluator info_pos ;;
           info_neg <- series_get attribute_info_pd_neg evaluator ;;
           pn <- frame_set (parameter_negative_detune_pd t) gate evaluator info_neg ;;
           Ok (mk_tables rp rn pp pn)
         else
           old_pos <- frame_get (raw_measurement_positive_detune_pd t) gate evaluator ;;
           joined_pos <- concatenate old_pos (Some matrix_pos) ;;
           rp <- frame_set (raw_measurement_positive_detune_pd t) gate evaluator joined_pos ;;
           old_neg <- frame_get (raw_measurement_negative_detune_pd t) gate evaluator ;;
           joined_neg <- concatenate old_neg (Some matrix_neg) ;;
           rn <- frame_set (raw_measurement_negative_detune_pd t) gate evaluator joined_neg ;;
           Ok (mk_tables rp rn (parameter_positive_detune_pd t)
                         (parameter_negative_detune_pd t))) ;;
      accumulate_evaluators i gate raw_measurement_pos_pd raw_measurement_neg_pd
        attribute_info_pd_pos attribute_info_pd_neg rest t'
  end.

(** The loop over the tunable gates, for repetition [i]. *)
Fixpoint accumulate_gates (gradient_group : node) (evaluators : list string) (i : Z)
  (gates : list string) (t : tables) : result tables :=
  match gates with
  | [] => Ok t
  | gate :: rest =>
      pos_group <- getitem gradient_group ["positive_detune_run_" ++ gate ++ "_" ++ str i] ;;
      pos <- raw_measurement_loop pos_group evaluators [] [] ;;
      neg_group <- getitem gradient_group ["positive_detune_run_" ++ gate ++ "_" ++ str i] ;;
      neg <- raw_measurement_loop neg_group evaluators [] [] ;;
      t' <- accumulate_evaluators i gate (fst pos) (fst neg) (snd pos) (snd neg)
                                  evaluators t ;;
      accumulate_gates gradient_group evaluators i rest t'
  end.

(** The loop over the repetitions. *)
Fixpoint accumulate_repetitions (gradient_group : node) (evaluators gates : list string)
  (repetitions : list Z) (t : tables) : result tables :=
  match repetitions with
  | [] => Ok t
  | i :: rest =>
      t' <- accumulate_gates gradient_group evaluators i gates t ;;
      accumulate_repetitions gradient_group evaluators gates rest t'
  end.

(** [Analyzer.load_raw_measurement_gradient_calculation]: the four tables,
    [n_repetitions] and [delta_u]. *)
Definition load_raw_measurement_gradient_calculation
  (gradient_number tune_run_number : Z) : M (tables * attr * attr) :=
  _ <~ load_evaluator_names tune_run_number ;;
  gradient_group <~ load_gradient_group gradient_number tune_run_number ;;
  delta_u <~ lift (attr_get gradient_group "delta_u") ;;
  n_repetitions <~ lift (attr_get gradient_group "n_repetitions") ;;
  a <~ get_self ;;
  match evaluator_names a, n_repetitions with
  | Some evaluators, AInt n =>
      let gates := tunable_gate_names a in
      t <~ lift (accumulate_repetitions gradient_group evaluators gates (Py.range 0 n)
                   (mk_tables (new_frame evaluators gates) (new_frame evaluators gates)
                              (new_frame evaluators gates) (new_frame evaluators gates))) ;;
      ret (t, n_repetitions, delta_u)
  | _, _ => raise TypeError
  end.

(** [Analyzer.load_gradient_setup] *)
Definition load_gradient_setup (gradient_number tune_run_number : Z) : M triple :=
  cd_group <~ load_gradient_group gradient_number tune_run_number ;;
  lift (load_gradient_from_group cd_group).

(** [Analyzer.load_gradient_tunerun]: the triple of the step, or [None]
    after a printed line when the sequence has no such step. *)
Definition load_gradient_tunerun (step_number tune_run_number : Z)
  : M (option triple) :=
  tune_run_group <~ load_tune_run_group tune_run_number ;;
  tune_sequence_group <~ lift (getitem tune_run_group ["tune_sequence"]) ;;
  present <~ lift (contains tune_sequence_group ["step_" ++ str step_number]) ;;
  if present then
    step_group <~ lift (getitem tune_sequence_group ["step_" ++ str step_number]) ;;
    t <~ lift (load_gradient_from_group step_group) ;;
    ret (Some t)
  else
    _ <~ print ("There is no group step " ++ str step_number
                ++ " in tune run number " ++ str tune_run_number) ;;
    ret None.

(** The property [Analyzer.parameter_names]. *)
Definition get_parameter_names : M (option dataset_value) :=
  a <~ get_self ;;
  _ <~ (match parameter_names a with
        | None => print "You need to load the Parameter names!"
        | Some _ => ret tt
        end) ;;
  ret (parameter_names a).

(** [gradient, covariance, noise = value]: [None] cannot be unpacked. *)
Definition unpack_triple (value : option triple) : result triple :=
  match value with
  | Some t => Ok t
  | None => Raise TypeError
  end.

Section GradientFrame.

(** [pd.DataFrame(data, index, columns)] is left to pandas: [DataFrame]
    stands for the constructor, [frame] for what it builds. *)
Variable frame : Type.
Variable DataFrame :
  option dataset_value -> option dataset_value -> list string -> result frame.

(** [Analyzer.load_gradient_pd] *)
Definition load_gradient_pd (gradient_number tune_run_number : Z) : M frame :=
  a <~ get_self ;;
  in_setup <~ lift (contains (root_group a)
                      [tunerun tune_run_number;
                       "gradient_setup_" ++ str gradient_number]) ;;
  gradient <~
    (if in_setup then
       t <~ load_gradient_setup gradient_number tune_run_number ;;
       ret (Some (fst (fst t)))
     else
       in_sequence <~ lift (contains (root_group a)
                              [tunerun tune_run_number; "tune_sequence"]) ;;
       if in_sequence then
         r <~ load_gradient_tunerun gradient_number tune_run_number ;;
         t <~ lift (unpack_triple r) ;;
         ret (Some (fst (fst t)))
       else
         _ <~ print "Gradient could not be loaded!" ;;
         ret None) ;;
  names <~ get_parameter_names ;;
  a' <~ get_self ;;
  lift (DataFrame gradient names (tunable_gate_names a')).

End GradientFrame.

(** The values [load_raw_measurement_gradient_calculation] hands back. *)
Inductive value : Type :=
| VData (df : Frame dataset_value)
| VInfo (df : Frame attributes)
| VAttr (a : attr).

(** The tuple [load_raw_measurement_gradient_calculation] returns, value by
    value. *)
Definition returned_tuple (r : tables * attr * attr) : list value :=
  let '(t, n_repetitions, delta_u) := r in
  [VData (raw_measurement_positive_detune_pd t);
   VData (raw_measurement_negative_detune_pd t);
   VInfo (parameter_positive_detune_pd t);
   VInfo (parameter_negative_detune_pd t);
   VAttr n_repetitions;
   VAttr delta_u].

(** [a, b, c, d = values] *)
Definition unpack4 {A : Type} (values : list A) : result (A * A * A * A) :=
  match values with
  | [a; b; c; d] => Ok (a, b, c, d)
  | _ => Raise ValueError
  end.

(** [range(v)] *)
Definition range_of (v : value) : result (list Z) :=
  match v with
  | VAttr (AInt n) => Ok (Py.range 0 n)
  | _ => Raise TypeError
  end.

(** How many items [for parameter in names] goes through. *)
Definition iterations (names : option dataset_value) : result nat :=
  match names with
  | None => Raise TypeError
  | Some (Names l) => Ok (List.length l)
  | Some (Floats a) =>
      match shape a with
      | [] => Raise TypeError
      | n :: _ => Ok n
      end
  end.

(** The innermost loop of [compute_gradient_from_raw_data]. *)
Definition for_evaluators (numbers : list Z) : result unit :=
  match numbers with
  | [] => Ok tt
  | _ :: _ => Raise NotImplementedError
  end.

Fixpoint for_repetitions (repetitions : list Z) (n_evaluators : Z) : result unit :=
  match repetitions with
  | [] => Ok tt
  | _ :: rest =>
      _ <- for_evaluators (Py.range 0 n_evaluators) ;;
      for_repetitions rest n_evaluators
  end.

Fixpoint for_parameters (count : nat) (n_repetitions : value) (n_evaluators : Z)
  : result unit :=
  match count with
  | O => Ok tt
  | S rest =>
      repetitions <- range_of n_repetitions ;;
      _ <- for_repetitions repetitions n_evaluators ;;
      for_parameters rest n_repetitions n_evaluators
  end.

Fixpoint for_gates (gates : list string) (n_repetitions : value) (n_evaluators : Z)
  : M unit :=
  match gates with
  | [] => ret tt
  | _ :: rest =>
      names <~ get_parameter_names ;;
      count <~ lift (iterations names) ;;
      _ <~ lift (for_parameters count n_repetitions n_evaluators) ;;
      for_gates rest n_repetitions n_evaluators
  end.

(** [Analyzer.compute_gradient_from_raw_data] *)
Definition compute_gradient_from_raw_data {F : Type} (fit_functions : F)
  (evaluators : list string) (gradient_number tune_run_number : Z) : M unit :=
  r <~ load_raw_measurement_gradient_calculation gradient_number tune_run_number ;;
  names <~ lift (unpack4 (returned_tuple r)) ;;
  let '(raw_measurement_positive_detune_pd, raw_measurement_negative_detune_pd,
        n_repetitions, delta_u) := names in
  let n_evaluators := len evaluators in
  a <~ get_self ;;
  for_gates (tunable_gate_names a) n_repetitions n_evaluators.

(** The index of the module's series [known_evaluators], which is sorted
    when the module is loaded. *)
Definition known_evaluators : list string :=
  Pd.sort_labels ["evaluator_SMInterDotTCByLineScan";
                  "evaluator_SMLeadTunnelTimeByLeadScan"].

(** [evaluator_data_set.attrs(attribute)]: the attribute manager is called
    like a function, which it is not. *)
Definition call_attrs (d : node) (attribute : string) : result attr :=
  Raise TypeError.

(** The loop over the attributes in [load_single_evaluation_from_group]. *)
Fixpoint attribute_loop (d : node) (attributes : list string)
  (parameters_pd information_pd : Pd.Series attr)
  : result (Pd.Series attr * Pd.Series attr) :=
  match attributes with
  | [] => Ok (parameters_pd, information_pd)
  | attribute :: rest =>
      if contains_substring "parameter_" attribute then
        v <- call_attrs d attribute ;;
        attribute_loop d rest (series_set parameters_pd attribute v) information_pd
      else
        v <- call_attrs d attribute ;;
        attribute_loop d rest parameters_pd (series_set information_pd attribute v)
  end.

(** [load_single_evaluation_from_group] *)
Definition load_single_evaluation_from_group (data_group : node)
  (evaluator_name : option string) (evaluator_number : Z)
  : M (dataset_value * Pd.Series attr * Pd.Series attr) :=
  evaluator_name <~
    (match evaluator_name with
     | None =>
         if (evaluator_number =? -1)%Z then
           _ <~ print ("Please choose an evaluator. This can be done by name or "
                       ++ "from the Series of known evaluators.") ;;
           raise ValueError
         else lift (Py.getitem known_evaluators evaluator_number)
     | Some name => ret name
     end) ;;
  evaluator_data_set <~ lift (getitem data_group [evaluator_name]) ;;
  raw_data <~ lift (read evaluator_data_set) ;;
  series <~ lift (attribute_loop evaluator_data_set
                    (map fst (attrs_of evaluator_data_set)) [] []) ;;
  ret (raw_data, fst series, snd series).

End Analyzer.

(** * The terms of the statements

    Closed forms, predicates and the example inputs the properties below
    are stated with. *)

Section DifferencesTerms.

Import Util.

(** The [n]-lag difference of a trace at position [j]. *)
Definition lag_difference (y : list float) (n j : nat) : float :=
  PrimFloat.sub (nth j y 0%float) (nth (j + n) y 0%float).

(** The first [m] lag differences, in order. *)
Definition lag_differences (y : list float) (n m : nat) : list float :=
  map (lag_difference y n) (seq 0 m).

(** The trace [y'] holds the lag differences of [y] below position [k] and
    the cells of [y] from [k] on. *)
Definition differenced (y : list float) (n k : nat) (y' : list float) : Prop :=
  List.length y' = List.length y /\
  (forall j, (j < k)%nat -> nth_error y' j = Some (lag_difference y n j)) /\
  (forall j, (k <= j)%nat -> nth_error y' j = nth_error y j).

(** [find_lead_transition] from its loop on, in closed form. *)
Definition transition_value (x y : list float) (n : nat) : result float :=
  a <- Np.argmax (Np.absolute (lag_differences y n (List.length y - n - 1))) ;;
  h <- int_truediv (Z.of_nat n) 2 ;;
  r <- Py.round h ;;
  Py.getitem x (a + r).

End DifferencesTerms.

Section LeadTransitionTerms.

Import Np Util.
Local Open Scope float_scope.





End LeadTransitionTerms.

Section NthDiffTerms.

Import Util.
Local Open Scope float_scope.

(** The rising trace of the specification's [nth_diff] example. *)
Definition steps : list float := [10; 20; 35; 50].

End NthDiffTerms.

Section NewtonTerms.

Import Pd Solver.
Local Open Scope float_scope.

(** No estimator asks for a measurement. *)
Definition quiet (ests : list GradientEstimator) : Prop :=
  forall e, In e ests -> require_measurement e = None.

(** The setting of the specification's example: the target [{p1: 1, p2: 1}],
    two estimators that report the rows of the identity and ask for no
    measurement, and the position [{v1: 0, v2: 0}]. *)
Definition example_target : Target :=
  mk_Target ["p1"; "p2"]%string [1; 1] [nan; nan] [nan; nan].

(** Two estimators reporting the rows of the identity. *)
Definition example_estimators : list GradientEstimator :=
  [mk_GradientEstimator [1; 0] None; mk_GradientEstimator [0; 1] None].

(** The position [{v1: 0, v2: 0}]. *)
Definition example_position : Series float := [("v1"%string, 0); ("v2"%string, 0)].

(** The solver of the example. *)
Definition example_newton : NewtonSolver.state :=
  NewtonSolver.mk example_target example_estimators (Some example_position)
                  [("p1"%string, nan); ("p2"%string, nan)].

End NewtonTerms.

Section ForwardingTerms.

Import Pd Solver.
Local Open Scope float_scope.

(** The forwarding solver of the specification's example: [param_A] is
    forwarded to [gate_X], both gates start at 0. *)
Definition example_forwarding : ForwardingSolver.state :=
  ForwardingSolver.__init__ example_target
    [("param_A"%string, "gate_X"%string)]
    [("gate_X"%string, 0); ("gate_Y"%string, 0)].

End ForwardingTerms.

Section GradientTerms.

Import Util.
Local Open Scope float_scope.

(** The differences of the points [rows] against the reference [r0]. *)
Definition differences (r0 : list float) (rows : list (list float)) : matrix :=
  map (fun r => Np.zip_with PrimFloat.sub r r0) rows.

End GradientTerms.

(** The inverse of a two-by-two matrix by its adjugate. *)
Definition inv2 (m : Util.matrix) : result Util.matrix :=
  match m with
  | [[a; b]; [c; d]] =>
      let det := (a * d - b * c)%float in
      if PrimFloat.eqb det 0%float then Raise LinAlgError
      else Ok [[d / det; (0 - b) / det]; [(0 - c) / det; a / det]]%float
  | _ => Raise LinAlgError
  end.

Section AnalyzerTerms.

Import Np H5 Analyzer.
Local Open Scope float_scope.

(** A file whose run 0 holds [charge_diagram_1] and whose run 1 holds
    nothing. *)
Definition charge_diagram_file : node :=
  Group []
    [("gate_names"%string, Dataset [] (Names ["BA"; "BB"]%string));
     ("tunable_gate_names"%string, Dataset [] (Names ["BA"; "BB"]%string));
     ("tunerun_0"%string,
      Group []
        [("charge_diagram_1"%string,
          Group []
            [("gradient"%string,
              Dataset [] (Floats (mk_ndarray [2; 2]%nat [1; 2; 3; 4])));
             ("heuristic_covariance"%string,
              Dataset [] (Floats (mk_ndarray [2; 2]%nat [1; 0; 0; 1])))])]);
     ("tunerun_1"%string, Group [] [])].

(** An analyzer that has loaded [charge_diagram_file], on a silent console. *)
Definition charge_diagram_world : world :=
  mk_world (mk_Analyzer charge_diagram_file ["BA"; "BB"]%string ["BA"; "BB"]%string
                        None None) [] [].








(** A call that reads nothing from the console. *)
Definition keeps_stdin {A : Type} (m : M A) : Prop :=
  forall w, stdin (snd (m w)) = stdin w.

End AnalyzerTerms.

Section SmoothingTerms.

Import Util.

(** [f] applied to the items of [l] from left to right, up to the first
    exception. *)
Fixpoint map_result {A B : Type} (f : A -> result B) (l : list A) : result (list B) :=
  match l with
  | [] => Ok []
  | a :: t => b <- f a ;; bs <- map_result f t ;; Ok (b :: bs)
  end.

(** Cell [i] of the moving average: the sum of the window that ends at
    sample [i] times the reciprocal of its nominal length, which is [i + 1]
    below [width] and [width] from there on. *)
Definition smoothed_cell (data : list float) (width i : Z) : result float :=
  let window := if i <? width then Py.slice data 0 (i + 1)
                else Py.slice data (i - width + 1) (i + 1) in
  d <- float_of_int (if i <? width then i + 1 else width) ;;
  r <- truediv 1%float d ;;
  Ok (PrimFloat.mul (builtin_sum window) r).

End SmoothingTerms.

Section PairedTerms.

Import Util.

(** Plus/minus pairs of points laid out as the list
    [minus_0, plus_0, minus_1, plus_1, ...]. *)
Definition unpair (pairs : list (list float * list float)) : list (list float) :=
  flat_map (fun p => [fst p; snd p]) pairs.

(** The difference [plus - minus] of every pair. *)
Definition pair_differences (pairs : list (list float * list float)) : matrix :=
  map (fun p => Np.zip_with PrimFloat.sub (snd p) (fst p)) pairs.

(** Both points of a pair have [n] entries. *)
Definition pair_of_size (n : nat) (p : list float * list float) : Prop :=
  List.length (fst p) = n /\ List.length (snd p) = n.

End PairedTerms.

Section TargetTerms.

Import Pd Solver.

(** The series [ser] can be read at every label of [parameters]: it holds
    each of them, and no label twice. *)
Definition covers (parameters : list label) (arg : target_arg) : Prop :=
  match arg with
  | Scalar _ => True
  | SeriesArg ser =>
      unique (index ser) = true
      /\ Forall (fun l => mem l (index ser) = true) parameters
  end.

(** What an argument of [make_target] holds for the label [l]. *)
Definition arg_at (arg : target_arg) (l : label) : float :=
  match arg with
  | Scalar x => x
  | SeriesArg ser => float_at ser l
  end.

End TargetTerms.

Section ConsoleTerms.

Import H5 Analyzer.

(** The name of a gradient setup group. *)
Definition gradient_setup (gradient_number : Z) : string :=
  ("gradient_setup_" ++ str gradient_number)%string.

(** The world [w] once [lines] more have been printed and the console input
    is down to [rest]. *)
Definition after_lines (w : world) (lines rest : list string) : world :=
  mk_world (self w) (stdout w ++ lines) rest.

(** The question [load_gradient_group] asks. *)
Definition fallback_question : string :=
  "Would you like to load the gradient from the previous run? (Y/N)"%string.

(** A gradient setup group. *)
Definition setup_group : node :=
  Group [("delta_u"%string, AFloat 0.5%float); ("n_repetitions"%string, AInt 1)]
        [("parameter_names"%string, Dataset [] (Names ["parameter_x"%string]))].

(** A file whose run 0 holds [gradient_setup_1] and whose run 1 holds
    nothing. *)
Definition fallback_file : node :=
  Group []
    [("gate_names"%string, Dataset [] (Names ["BA"%string]));
     ("tunable_gate_names"%string, Dataset [] (Names ["BA"%string]));
     ("tunerun_0"%string, Group [] [("gradient_setup_1"%string, setup_group)]);
     ("tunerun_1"%string, Group [] [])].

(** An analyzer that has loaded [fallback_file], with the lines [typed]
    waiting on the console. *)
Definition fallback_world (typed : list string) : world :=
  mk_world (mk_Analyzer fallback_file ["BA"%string] ["BA"%string] None None) [] typed.

End ConsoleTerms.

Section EvaluatorTerms.

Import Np H5 Analyzer.

(** The names of the members that are datasets and carry [evaluator_] in
    their name, in the order of the file. *)
Definition evaluator_members (ms : list (string * node)) : list string :=
  map fst (filter (fun m => is_dataset (snd m)
                            && contains_substring "evaluator_" (fst m)) ms).

(** The world [w] once the analyzer has stored [names] as its evaluator
    names. *)
Definition with_evaluator_names (w : world) (names : list string) : world :=
  mk_world (mk_Analyzer (root_group (self w)) (gate_names (self w))
                        (tunable_gate_names (self w)) (parameter_names (self w))
                        (Some names))
           (stdout w) (stdin w).

(** The first step of a tune sequence: an evaluator dataset, a subgroup
    whose name carries [evaluator_] too, and the gate voltages. *)
Definition first_step : node :=
  Group []
    [("evaluator_A"%string,
      Dataset [("parameter_x"%string, AFloat 1%float)]
              (Floats (array1 [1; 2]%float)));
     ("evaluator_notes"%string, Group [] []);
     ("gate_voltages"%string, Dataset [] (Floats (array1 [0; 0]%float)))].

(** A file whose run 1 holds a tune sequence of one step. *)
Definition sequence_file : node :=
  Group []
    [("gate_names"%string, Dataset [] (Names ["BA"%string]));
     ("tunable_gate_names"%string, Dataset [] (Names ["BA"%string]));
     ("tunerun_1"%string,
      Group []
        [("tune_sequence"%string,
          Group []
            [("parameter_names"%string, Dataset [] (Names ["parameter_x"%string]));
             ("step_0"%string, first_step)])])].

(** An analyzer that has loaded [sequence_file], on a silent console. *)
Definition sequence_world : world :=
  mk_world (mk_Analyzer sequence_file ["BA"%string] ["BA"%string] None None) [] [].

End EvaluatorTerms.

Section FileTerms.

Import H5 Analyzer.

(** What [load_file] has read: the opened file and the gate names. *)
Definition file_of (a : Analyzer) : node * list string * list string :=
  (root_group a, gate_names a, tunable_gate_names a).

(** A call that leaves the opened file and the gate names of the analyzer
    as they are, however it ends. *)
Definition keeps_file {A : Type} (m : M A) : Prop :=
  forall w, file_of (self (snd (m w))) = file_of (self w).

End FileTerms.

Section SingleEvaluationTerms.

Import Np H5 Analyzer.

(** A step group whose only evaluator dataset carries no attribute. *)
Definition bare_step : node :=
  Group [] [("evaluator_SMInterDotTCByLineScan"%string,
             Dataset [] (Floats (array1 [1; 2]%float)))].

End SingleEvaluationTerms.

Section SetupTerms.

Import Np H5 Analyzer.

(** A gradient setup group that holds the parameter names, a gradient and
    its covariance. *)
Definition stored_setup : node :=
  Group []
    [("parameter_names"%string, Dataset [] (Names ["parameter_x"%string]));
     ("gradient"%string, Dataset [] (Floats (mk_ndarray [1; 1]%nat [2]%float)));
     ("heuristic_covariance"%string,
      Dataset [] (Floats (mk_ndarray [1; 1]%nat [1]%float)))].

(** A file whose run 0 holds [stored_setup] as [gradient_setup_1] and whose
    run 1 holds nothing. *)
Definition stored_setup_file : node :=
  Group []
    [("gate_names"%string, Dataset [] (Names ["BA"%string]));
     ("tunable_gate_names"%string, Dataset [] (Names ["BA"%string]));
     ("tunerun_0"%string, Group [] [("gradient_setup_1"%string, stored_setup)]);
     ("tunerun_1"%string, Group [] [])].

(** An analyzer that has loaded [stored_setup_file], with the lines [typed]
    waiting on the console. *)
Definition stored_setup_world (typed : list string) : world :=
  mk_world (mk_Analyzer stored_setup_file ["BA"%string] ["BA"%string] None None)
           [] typed.

End SetupTerms.

Section RunTerms.

Import H5 Analyzer.

(** The group of a run that [load_parameter_names] reads the names from:
    the tune sequence if there is one, else the first gradient setup. *)
Definition names_source (tune_run_group : node) : option node :=
  match resolve tune_run_group ["tune_sequence"%string] with
  | Some g => Some g
  | None => resolve tune_run_group ["gradient_setup_1"%string]
  end.

(** The world [w] once the analyzer has stored [names] as its parameter
    names. *)
Definition with_parameter_names (w : world) (names : dataset_value) : world :=
  mk_world (mk_Analyzer (root_group (self w)) (gate_names (self w))
                        (tunable_gate_names (self w)) (Some names)
                        (evaluator_names (self w)))
           (stdout w) (stdin w).

End RunTerms.

Section DetuneTerms.

Import Np H5 Analyzer.






End DetuneTerms.

(** * Properties *)

(** ** Python sequences *)

Section Sequences.

Context {A : Type}.

Lemma norm_index_nat (n : Z) (k : nat) :
  Z.of_nat k < n -> norm_index n (Z.of_nat k) = Ok k.
Proof.
  intros H. unfold norm_index.
  replace (0 <=? Z.of_nat k) with true by (symmetry; apply Z.leb_le; lia).
  replace (Z.of_nat k <? n) with true by (symmetry; apply Z.ltb_lt; lia).
  simpl. now rewrite Nat2Z.id.
Qed.

Lemma getitem_nat (l : list A) (k : nat) (a : A) :
  nth_error l k = Some a -> Py.getitem l (Z.of_nat k) = Ok a.
Proof.
  intros H. unfold Py.getitem.
  assert (k < List.length l)%nat by (apply nth_error_Some; congruence).
  rewrite norm_index_nat by (unfold len; lia).
  simpl. now rewrite H.
Qed.

Lemma setitem_nat (l : list A) (k : nat) (v : A) :
  (k < List.length l)%nat -> setitem l (Z.of_nat k) v = Ok (set_nth l k v).
Proof.
  intros H. unfold setitem.
  rewrite norm_index_nat by (unfold len; lia). reflexivity.
Qed.

Lemma length_set_nth (l : list A) (k : nat) (v : A) :
  List.length (set_nth l k v) = List.length l.
Proof.
  revert k. induction l as [|h t IH]; intros [|k]; simpl; auto.
Qed.

Lemma nth_error_set_nth_eq (l : list A) (k : nat) (v : A) :
  (k < List.length l)%nat -> nth_error (set_nth l k v) k = Some v.
Proof.
  revert k. induction l as [|h t IH]; intros [|k] H; simpl in *; try lia; auto.
  apply IH. lia.
Qed.

Lemma nth_error_set_nth_neq (l : list A) (k j : nat) (v : A) :
  j <> k -> nth_error (set_nth l k v) j = nth_error l j.
Proof.
  revert k j. induction l as [|h t IH]; intros [|k] [|j] H; simpl; auto.
  congruence.
Qed.

Lemma set_nth_app (a b : list A) (x v : A) :
  set_nth (a ++ x :: b) (List.length a) v = a ++ v :: b.
Proof.
  induction a as [|h t IH]; simpl; [reflexivity | now rewrite IH].
Qed.

End Sequences.

Lemma range_nil (lo hi : Z) : hi <= lo -> Py.range lo hi = [].
Proof.
  intros H. unfold Py.range.
  replace (Z.to_nat (hi - lo)) with O by lia. reflexivity.
Qed.

Lemma range_cons (lo hi : Z) :
  lo < hi -> Py.range lo hi = lo :: Py.range (lo + 1) hi.
Proof.
  intros H. unfold Py.range.
  replace (Z.to_nat (hi - lo)) with (S (Z.to_nat (hi - (lo + 1)))) by lia.
  simpl. f_equal; [lia|].
  rewrite <- seq_shift, map_map.
  apply map_ext. intros k. lia.
Qed.

Lemma length_range (lo hi : Z) : List.length (Py.range lo hi) = Z.to_nat (hi - lo).
Proof.
  unfold Py.range. now rewrite length_map, length_seq.
Qed.

(** ** The numeric helpers of [util.py] *)

Section Differences.

Import Util.

Lemma differenced_start (y : list float) (n : nat) : differenced y n 0 y.
Proof.
  split; [reflexivity | split; intros; [lia | reflexivity]].
Qed.

(** The loop never reads a cell it has already overwritten: with a lag of at
    least one, iteration [k] still finds the original [y[k]] and [y[k+n]]. *)
Lemma difference_in_place_spec (y : list float) (n : nat) :
  (1 <= n)%nat ->
  forall c k yk,
    differenced y n k yk ->
    (k + c + n <= List.length y)%nat ->
    exists y',
      difference_in_place (Z.of_nat n)
        (Py.range (Z.of_nat k) (Z.of_nat (k + c))) yk = (y', Ok tt)
      /\ differenced y n (k + c) y'.
Proof.
  intros Hn c. induction c as [|c IH]; intros k yk Hinv Hlen.
  - rewrite range_nil by lia. exists yk. simpl.
    split; [reflexivity | now rewrite Nat.add_0_r].
  - rewrite range_cons by lia. simpl.
    destruct Hinv as (Hl & Hlo & Hhi).
    assert (Hk : nth_error yk k = Some (nth k y 0%float)).
    { rewrite Hhi by lia. apply nth_error_nth'. lia. }
    assert (Hkn : nth_error yk (k + n) = Some (nth (k + n) y 0%float)).
    { rewrite Hhi by lia. apply nth_error_nth'. lia. }
    rewrite (getitem_nat _ _ _ Hk). simpl.
    rewrite <- Nat2Z.inj_add, (getitem_nat _ _ _ Hkn). simpl.
    rewrite setitem_nat by lia.
    replace (Z.of_nat k + 1) with (Z.of_nat (S k)) by lia.
    replace (k + S c)%nat with (S k + c)%nat by lia.
    apply IH; [|lia].
    split; [|split].
    + now rewrite length_set_nth.
    + intros j Hj. destruct (Nat.eq_dec j k) as [->|Hne].
      * rewrite nth_error_set_nth_eq by lia. reflexivity.
      * rewrite nth_error_set_nth_neq by assumption. apply Hlo. lia.
    + intros j Hj. rewrite nth_error_set_nth_neq by lia. apply Hhi. lia.
Qed.

Lemma differenced_firstn (y y' : list float) (n m : nat) :
  (m <= List.length y)%nat ->
  differenced y n m y' -> firstn m y' = lag_differences y n m.
Proof.
  intros Hm (Hl & Hlo & _). apply nth_error_ext. intros j.
  rewrite nth_error_firstn. unfold lag_differences.
  rewrite nth_error_map, nth_error_seq.
  destruct (j <? m)%nat eqn:E; [|reflexivity].
  apply Nat.ltb_lt in E. now rewrite Hlo.
Qed.

Lemma transition_at_spec (x y : list float) (n : nat) :
  (1 <= n)%nat -> (n + 1 <= List.length y)%nat ->
  exists y',
    transition_at x y (Z.of_nat n) = (y', transition_value x y n)
    /\ differenced y n (List.length y - n - 1) y'.
Proof.
  intros Hn Hlen. unfold transition_at.
  destruct (difference_in_place_spec y n Hn (List.length y - n - 1) 0 y
              (differenced_start y n)) as (y' & Hrun & Hinv); [lia|].
  simpl in Hrun, Hinv.
  replace (len y - Z.of_nat n - 1) with (Z.of_nat (List.length y - n - 1))
    by (unfold len; lia).
  rewrite Hrun. exists y'. split; [|assumption].
  f_equal. unfold transition_value.
  assert (Hl : List.length y' = List.length y) by apply Hinv.
  unfold slice_to, len. rewrite Hl.
  replace (Z.of_nat (List.length y) - Z.of_nat n - 1 <? 0) with false
    by (symmetry; apply Z.ltb_ge; lia).
  replace (Z.to_nat (Z.min (Z.of_nat (List.length y) - Z.of_nat n - 1)
                           (Z.of_nat (List.length y))))
    with (List.length y - n - 1)%nat by lia.
  rewrite (differenced_firstn y y' n) by (assumption || lia).
  reflexivity.
Qed.

End Differences.

Section LeadTransition.

Import Np Util.

Local Open Scope float_scope.





(** C9: [find_lead_transition] leaves two-dimensional data as they were, but
    on a one-dimensional trace it works on the caller's array itself: after
    the call on [[0, 0, 1, 1]] the caller holds [[0, -1, 1, 1]]. *)
Theorem find_lead_transition_overwrites_trace :
  (forall rows cols v center scan_range npoints width,
      data_after (find_lead_transition (mk_ndarray [rows; cols] v)
                                       center scan_range npoints width)
      = mk_ndarray [rows; cols] v)
  /\ data_after (find_lead_transition (array1 [0; 0; 1; 1]) 0 1 4 0.25)
     = array1 [0; -1; 1; 1]
  /\ data_after (find_lead_transition (array1 [0; 0; 1; 1]) 0 1 4 0.25)
     <> array1 [0; 0; 1; 1].
Proof.
  split; [reflexivity | split; [reflexivity|]].
  intros H.
  apply (f_equal (fun a => match flat a with
                           | _ :: v :: _ => PrimFloat.eqb v 0
                           | _ => true
                           end)) in H.
  vm_compute in H. discriminate.
Qed.

End LeadTransition.

Section NthDiff.

Import Util.

Local Open Scope float_scope.

(** [nth_diff] in closed form: cell [i] is [data[i] - data[i+n]]. *)
Lemma fill_diff_spec (data : list float) (n m : nat) :
  (m + n <= List.length data)%nat ->
  forall c k out,
    (k + c <= m)%nat ->
    List.length out = m ->
    (forall j, (j < k)%nat -> nth_error out j = Some (lag_difference data n j)) ->
    exists out',
      fill_diff data (Z.of_nat n) (Py.range (Z.of_nat k) (Z.of_nat (k + c))) out = Ok out'
      /\ List.length out' = m
      /\ (forall j, (j < k + c)%nat -> nth_error out' j = Some (lag_difference data n j)).
Proof.
  intros Hlen c. induction c as [|c IH]; intros k out Hk Hl Hlo.
  - rewrite range_nil by lia. exists out. simpl.
    rewrite Nat.add_0_r. auto.
  - rewrite range_cons by lia. simpl.
    rewrite (getitem_nat data k (nth k data 0)) by (apply nth_error_nth'; lia).
    simpl. rewrite <- Nat2Z.inj_add.
    rewrite (getitem_nat data (k + n) (nth (k + n) data 0))
      by (apply nth_error_nth'; lia).
    simpl. rewrite setitem_nat by lia. simpl.
    replace (Z.of_nat k + 1)%Z with (Z.of_nat (S k)) by lia.
    replace (k + S c)%nat with (S k + c)%nat by lia.
    apply IH; [lia | now rewrite length_set_nth |].
    intros j Hj. destruct (Nat.eq_dec j k) as [->|Hne].
    + rewrite nth_error_set_nth_eq by lia. reflexivity.
    + rewrite nth_error_set_nth_neq by assumption. apply Hlo. lia.
Qed.

Lemma nth_diff_spec (data : list float) (n : nat) :
  (n <= List.length data)%nat ->
  nth_diff data (Z.of_nat n)
  = Ok (lag_differences data n (List.length data - n)).
Proof.
  intros Hn. unfold nth_diff, len.
  replace (Z.of_nat (List.length data) - Z.of_nat n <? 0)%Z with false
    by (symmetry; apply Z.ltb_ge; lia).
  replace (Z.of_nat (List.length data) - Z.of_nat n)%Z
    with (Z.of_nat (List.length data - n)) by lia.
  rewrite Nat2Z.id.
  destruct (fill_diff_spec data n (List.length data - n) ltac:(lia)
              (List.length data - n) 0 (repeat 0 (List.length data - n)))
    as (out & Hrun & Hl & Hcells).
  - lia.
  - apply repeat_length.
  - intros j Hj. lia.
  - simpl in Hrun. rewrite Hrun. f_equal.
    apply nth_error_ext. intros j. unfold lag_differences.
    rewrite nth_error_map, nth_error_seq.
    destruct (j <? List.length data - n)%nat eqn:E.
    + apply Nat.ltb_lt in E. now rewrite Hcells.
    + apply Nat.ltb_ge in E. apply nth_error_None. lia.
Qed.

(** C8, as stated, fails: the differences of a rising trace are negative. *)
Lemma nth_diff_examples_not_positive :
  ~ (nth_diff steps 1 = Ok [10; 15; 15] /\ nth_diff steps 2 = Ok [25; 30]).
Proof.
  intros [H _].
  apply (f_equal (fun r => match r with
                           | Ok (v :: _) => PrimFloat.ltb v 0
                           | _ => false
                           end)) in H.
  vm_compute in H. discriminate.
Qed.

(** C8, amended: [nth_diff([10,20,35,50], n=1)] is [[-10,-15,-15]] and
    [nth_diff([10,20,35,50], n=2)] is [[-25,-30]], each of length
    [len(data) - n]. *)
Theorem nth_diff_examples :
  nth_diff steps 1 = Ok [-10; -15; -15]
  /\ nth_diff steps 2 = Ok [-25; -30]
  /\ List.length [-10; -15; -15] = (List.length steps - 1)%nat
  /\ List.length [-25; -30] = (List.length steps - 2)%nat.
Proof.
  repeat split.
Qed.

End NthDiff.

(** ** Labelled series *)

Section SeriesFacts.

Import Pd.

Context {V : Type}.

Lemma position_nth_error (l : label) (ix : list label) (p : nat) :
  position l ix = Some p -> nth_error ix p = Some l.
Proof.
  revert p. induction ix as [|h t IH]; simpl; intros p H; [discriminate|].
  destruct (String.eqb_spec l h) as [->|Hne].
  - injection H as <-. reflexivity.
  - destruct (position l t) as [q|]; [|discriminate].
    injection H as <-. simpl. now apply IH.
Qed.

Lemma index_set_nth (s : Series V) (p : nat) (c : label * V) (v : V) :
  nth_error s p = Some c -> index (Py.set_nth s p (fst c, v)) = index s.
Proof.
  revert p. induction s as [|h t IH]; intros [|p] H; simpl in *; try discriminate.
  - injection H as ->. reflexivity.
  - unfold index in *. simpl. f_equal. now apply IH.
Qed.

Lemma lookup_set_other (s : Series V) (p : nat) (c : label * V) (v : V) (l : label) :
  nth_error s p = Some c -> fst c <> l ->
  lookup l (Py.set_nth s p (fst c, v)) = lookup l s.
Proof.
  revert p. induction s as [|[h x] t IH]; intros [|p] H Hne; simpl in *; try discriminate.
  - injection H as <-. simpl in *.
    destruct (String.eqb_spec l h); [congruence | reflexivity].
  - destruct (String.eqb l h); [reflexivity | now apply IH].
Qed.

Lemma lookup_set_same (s : Series V) (p : nat) (v : V) (l : label) :
  position l (index s) = Some p ->
  exists c, nth_error s p = Some c /\ fst c = l
            /\ lookup l (Py.set_nth s p (l, v)) = Some v.
Proof.
  revert p. induction s as [|[h x] t IH]; simpl; intros p H; [discriminate|].
  destruct (String.eqb_spec l h) as [->|Hne].
  - injection H as <-. exists (h, x). simpl. now rewrite String.eqb_refl.
  - destruct (position l (index t)) as [q|] eqn:E; [|discriminate].
    injection H as <-. destruct (IH q eq_refl) as (c & Hc & Hf & Hl).
    exists c. simpl. destruct (String.eqb_spec l h); [congruence | auto].
Qed.

(** The positions [indexer] finds are those of the keys, key by key. *)
Lemma indexer_positions (ix keys : list label) (ps : list nat) :
  indexer ix keys = Ok ps ->
  Forall2 (fun l p => position l ix = Some p) keys ps.
Proof.
  revert ps. induction keys as [|k rest IH]; simpl; intros ps H.
  - injection H as <-. constructor.
  - destruct (position k ix) as [p|] eqn:E; [|discriminate].
    destruct (indexer ix rest) as [r|]; simpl in H; [|discriminate].
    injection H as <-. constructor; auto.
Qed.

Lemma assign_index (ps : list nat) :
  forall (s : Series V) (vals : list V), index (assign s ps vals) = index s.
Proof.
  induction ps as [|p ps IH]; intros s [|v vals]; simpl; auto.
  rewrite IH. destruct (nth_error s p) as [c|] eqn:E; [|reflexivity].
  now apply index_set_nth.
Qed.

Lemma assign_lookup_other (l : label) (keys : list label) (ps : list nat) :
  forall (s : Series V) (vals : list V),
    Forall2 (fun k p => position k (index s) = Some p) keys ps ->
    ~ In l keys ->
    lookup l (assign s ps vals) = lookup l s.
Proof.
  revert ps. induction keys as [|k keys IH]; intros ps s vals HF Hnot;
    inversion HF as [|? p ? ps' Hp HF']; subst; [reflexivity|].
  destruct vals as [|v vals]; [reflexivity|]. simpl.
  destruct (lookup_set_same s p v k Hp) as (c & Hc & Hf & _).
  rewrite Hc. rewrite IH.
  - apply lookup_set_other; [assumption|].
    rewrite Hf. intros E. apply Hnot. now left.
  - rewrite index_set_nth by assumption. assumption.
  - intros Hin. apply Hnot. now right.
Qed.

Lemma assign_lookup_key (keys : list label) (ps : list nat) :
  forall (s : Series V) (vals : list V) (k : nat) (l : label) (v : V),
    Forall2 (fun key p => position key (index s) = Some p) keys ps ->
    NoDup keys ->
    nth_error keys k = Some l -> nth_error vals k = Some v ->
    lookup l (assign s ps vals) = Some v.
Proof.
  revert ps. induction keys as [|key keys IH]; intros ps s vals k l v HF Hnd Hk Hv;
    inversion HF as [|? p ? ps' Hp HF']; subst; [now destruct k|].
  inversion Hnd as [|? ? Hnotin Hnd']; subst.
  destruct vals as [|v0 vals]; [now destruct k|]. simpl.
  destruct (lookup_set_same s p v0 key Hp) as (c & Hc & Hf & Hl).
  rewrite Hc. subst key.
  assert (HF1 : Forall2 (fun key p0 =>
                  position key (index (Py.set_nth s p (fst c, v0))) = Some p0) keys ps').
  { rewrite index_set_nth by assumption. assumption. }
  destruct k as [|k]; simpl in Hk, Hv.
  - injection Hk as <-. injection Hv as <-.
    rewrite (assign_lookup_other (fst c) keys ps') by assumption.
    assumption.
  - eapply IH; eassumption.
Qed.

(** [s[keys] = vals] with no key twice: when the assignment succeeds there
    were as many values as keys, the index is kept, every key holds its
    value, and every other label keeps its own. *)
Lemma setitem_labels_spec (s s' : Series V) (keys : list label) (vals : list V) :
  setitem_labels s keys vals = Ok s' ->
  NoDup keys ->
  List.length vals = List.length keys
  /\ index s' = index s
  /\ (forall k l v, nth_error keys k = Some l -> nth_error vals k = Some v ->
                    lookup l s' = Some v)
  /\ (forall l, ~ In l keys -> lookup l s' = lookup l s).
Proof.
  unfold setitem_labels. intros H Hnd.
  destruct (unique (index s)); [|discriminate].
  destruct (indexer (index s) keys) as [ps|] eqn:E; simpl in H; [|discriminate].
  pose proof (indexer_positions _ _ _ E) as HF.
  destruct (Nat.eqb_spec (List.length ps) (List.length vals)) as [Hlen|];
    [|discriminate].
  injection H as <-.
  split; [rewrite (Forall2_length HF); congruence|].
  split; [apply assign_index | split].
  - intros k l v Hk Hv. eapply assign_lookup_key; eassumption.
  - intros l Hl. eapply assign_lookup_other; eassumption.
Qed.

Lemma in_series_nth (s : Series V) (l : label) (v : V) :
  In (l, v) s ->
  exists k, nth_error (index s) k = Some l /\ nth_error (values s) k = Some v.
Proof.
  intros H. apply In_nth_error in H. destruct H as [k Hk].
  exists k. unfold index, values. rewrite !nth_error_map, Hk. auto.
Qed.

(** Every key that is in the index is located. *)
Lemma indexer_total (ix keys : list label) :
  Forall (fun l => mem l ix = true) keys ->
  exists ps, indexer ix keys = Ok ps /\ List.length ps = List.length keys.
Proof.
  induction 1 as [|k rest Hk _ (ps & IH & Hlen)]; simpl; [now exists []|].
  assert (Hp : exists p, position k ix = Some p).
  { clear - Hk. induction ix as [|h t IH]; simpl in *; [discriminate|].
    destruct (String.eqb k h); [eauto|].
    destruct (IH Hk) as [p ->]. simpl. eauto. }
  destruct Hp as [p ->]. rewrite IH. simpl. exists (p :: ps). simpl. auto.
Qed.

Lemma setitem_labels_index (s s' : Series V) (keys : list label) (vals : list V) :
  setitem_labels s keys vals = Ok s' -> index s' = index s.
Proof.
  unfold setitem_labels. destruct (unique (index s)); [|discriminate].
  destruct (indexer (index s) keys) as [ps|]; simpl; [|discriminate].
  destruct (Nat.eqb _ _); [|discriminate].
  intros H. injection H as <-. apply assign_index.
Qed.

(** [s[keys] = vals] goes through when the index holds no label twice, every
    key is in it and there are as many values as keys. *)
Lemma setitem_labels_total (s : Series V) (keys : list label) (vals : list V) :
  unique (index s) = true ->
  Forall (fun l => mem l (index s) = true) keys ->
  List.length vals = List.length keys ->
  exists s', setitem_labels s keys vals = Ok s'.
Proof.
  intros Hu Hm Hlen. unfold setitem_labels. rewrite Hu.
  destruct (indexer_total _ _ Hm) as (ps & -> & Hps). simpl.
  rewrite Hps, <- Hlen, Nat.eqb_refl. eauto.
Qed.

Lemma filter_no_hit (s : Series V) (k : label) :
  mem k (index s) = false -> filter (fun c => String.eqb (fst c) k) s = [].
Proof.
  induction s as [|[h x] t IH]; simpl; intros H; [reflexivity|].
  apply orb_false_iff in H as [Hh Ht].
  rewrite String.eqb_sym, Hh. auto.
Qed.

Lemma filter_one_hit (s : Series V) (k : label) (v : V) :
  unique (index s) = true -> lookup k s = Some v ->
  filter (fun c => String.eqb (fst c) k) s = [(k, v)].
Proof.
  induction s as [|[h x] t IH]; simpl; intros Hu Hl; [discriminate|].
  apply andb_true_iff in Hu as [Hh Ht]. apply negb_true_iff in Hh.
  rewrite String.eqb_sym. destruct (String.eqb_spec k h) as [->|Hne].
  - injection Hl as ->. now rewrite filter_no_hit.
  - auto.
Qed.

(** [s[keys]] goes through when the index holds no label twice and every
    key is in it: the result has the keys as its index and, key by key, the
    values [s] holds. *)
Lemma getitem_labels_total (s : Series V) (keys : list label) :
  unique (index s) = true ->
  Forall (fun k => exists v, lookup k s = Some v) keys ->
  exists r, getitem_labels s keys = Ok r
            /\ index r = keys
            /\ Forall2 (fun k v => lookup k s = Some v) keys (values r).
Proof.
  intros Hu. induction 1 as [|k rest [v Hv] _ (r & IH & Hix & HF)]; simpl.
  - exists []. repeat split. constructor.
  - rewrite (filter_one_hit s k v Hu Hv), IH. simpl.
    exists ((k, v) :: r). simpl. rewrite Hix.
    repeat split. now constructor.
Qed.

End SeriesFacts.

(** ** The solvers *)

Section NewtonFacts.

Import Pd Solver.

Local Open Scope float_scope.

Lemma first_suggestion_quiet (ests : list GradientEstimator) :
  quiet ests -> NewtonSolver.first_suggestion ests = Ok None.
Proof.
  induction ests as [|e rest IH]; intros H; simpl; [reflexivity|].
  rewrite (H e) by now left. simpl.
  apply IH. intros e' He'. apply H. now right.
Qed.

(** The loop stops at the first estimator that answers with a series, and
    stops there with the exception of the truth test. *)
Lemma first_suggestion_series (before rest : list GradientEstimator)
  (g : list float) (v : Series float) :
  quiet before ->
  NewtonSolver.first_suggestion (before ++ mk_GradientEstimator g (Some v) :: rest)
  = Raise ValueError.
Proof.
  induction before as [|e before IH]; intros H; simpl; [reflexivity|].
  rewrite (H e) by now left. simpl.
  apply IH. intros e' He'. apply H. now right.
Qed.

(** C1: on the specification's example [suggest_next_voltage] does not
    return [{v1: 1, v2: 1}]. The difference [desired - current_position] is
    taken label by label, so it has the four labels [p1, p2, v1, v2], all
    not-a-number, and the least-squares call turns down a right-hand side
    of four entries against a Jacobian of two rows. And an estimator that
    does suggest a voltage point makes the method raise instead of returning
    the suggestion, whatever the solver's other fields are. *)
Theorem newton_example_raises :
  (forall lstsq_solve,
      Pd.sub (desired example_target) example_position
      = Ok [("p1"%string, nan); ("p2"%string, nan);
            ("v1"%string, nan); ("v2"%string, nan)]
      /\ NewtonSolver.jacobian example_newton = Ok [[1; 0]; [0; 1]]
      /\ NewtonSolver.suggest_next_voltage lstsq_solve example_newton = Raise LinAlgError)
  /\ (forall lstsq_solve target g v rest pos cv,
      NewtonSolver.suggest_next_voltage lstsq_solve
        (NewtonSolver.mk target (mk_GradientEstimator g (Some v) :: rest) pos cv)
      = Raise ValueError).
Proof.
  split.
  - intros lstsq_solve. repeat split.
  - intros. reflexivity.
Qed.

(** C3: a target and a list of estimators of different lengths make the
    constructor fail its assertion; a solver without a current position
    raises "position not initialized" when no estimator asks for a
    measurement. *)
Theorem newton_fails_fast :
  (forall target ests pos cv,
      target_len target <> List.length ests ->
      NewtonSolver.__init__ target ests pos cv = Raise AssertionError)
  /\ (forall lstsq_solve s,
      NewtonSolver.current_position s = None ->
      quiet (NewtonSolver.gradient_estimators s) ->
      NewtonSolver.suggest_next_voltage lstsq_solve s
      = Raise (RuntimeError "NewtonSolver: Position not initialized.")).
Proof.
  split.
  - intros target ests pos cv H. unfold NewtonSolver.__init__.
    destruct (Nat.eqb_spec (target_len target) (List.length ests)); [contradiction|].
    reflexivity.
  - intros lstsq_solve s Hpos Hq. unfold NewtonSolver.suggest_next_voltage.
    rewrite (first_suggestion_quiet _ Hq). simpl. now rewrite Hpos.
Qed.

Lemma newton_fails_fast_witness :
  NewtonSolver.__init__ example_target [mk_GradientEstimator [1; 0] None] None None
  = Raise AssertionError
  /\ NewtonSolver.suggest_next_voltage (fun _ b => Ok b)
       (NewtonSolver.mk example_target example_estimators None [])
     = Raise (RuntimeError "NewtonSolver: Position not initialized.").
Proof.
  split.
  - apply (proj1 newton_fails_fast). simpl. discriminate.
  - apply (proj2 newton_fails_fast); [reflexivity|].
    intros e [<-|[<-|[]]]; reflexivity.
Defined.

(** C10: a [current_values] series handed to the constructor is never
    stored: the truth test on it raises, so the call ends in an exception
    ([ValueError] when the lengths agree). The constructor succeeds only
    without [current_values], and then stores not-a-number under every
    parameter of the target. *)
Theorem newton_init_current_values :
  (forall target ests pos cv,
      target_len target = List.length ests ->
      NewtonSolver.__init__ target ests pos (Some cv) = Raise ValueError)
  /\ (forall target ests pos cv,
      exists e, NewtonSolver.__init__ target ests pos (Some cv) = Raise e)
  /\ (forall target ests pos cv s,
      NewtonSolver.__init__ target ests pos cv = Ok s ->
      cv = None
      /\ NewtonSolver.current_values s = map (fun l => (l, nan)) (t_index target))
  /\ (forall target ests pos,
      target_len target = List.length ests ->
      NewtonSolver.__init__ target ests pos None
      = Ok (NewtonSolver.mk target ests pos
                            (map (fun l => (l, nan)) (t_index target)))).
Proof.
  unfold NewtonSolver.__init__. repeat split.
  - intros target ests pos cv ->. now rewrite Nat.eqb_refl.
  - intros target ests pos cv.
    destruct (Nat.eqb _ _); simpl; eauto.
  - destruct (Nat.eqb _ _); [|discriminate].
    destruct cv; [discriminate | reflexivity].
  - destruct (Nat.eqb _ _); [|discriminate].
    destruct cv; [discriminate|]. simpl in H. now injection H as <-.
  - intros target ests pos ->. now rewrite Nat.eqb_refl.
Qed.

Lemma newton_init_current_values_witness :
  NewtonSolver.__init__ example_target example_estimators None
                    (Some [("p1"%string, 0); ("p2"%string, 0)])
  = Raise ValueError
  /\ NewtonSolver.__init__ example_target example_estimators None None
     = Ok (NewtonSolver.mk example_target example_estimators None
                           [("p1"%string, nan); ("p2"%string, nan)]).
Proof.
  split.
  - apply (proj1 newton_init_current_values). reflexivity.
  - apply (proj2 (proj2 (proj2 newton_init_current_values))). reflexivity.
Defined.

End NewtonFacts.

Section ForwardingFacts.

Import Pd Solver.

Local Open Scope float_scope.

(** C2: [suggest_next_voltage] hands back the staged voltage as it is.
    [update_after_step] goes through whenever the three series of the solver
    hold no label twice, every driven channel is a label of the current
    position and of the staged voltage, and every measured parameter is
    forwarded to a channel of the staged voltage. A call that goes through
    keeps the labels of both series; it stores the applied voltages in the
    current position and in the staged voltage, leaving every channel that
    was not driven as it was; then the staged voltage gets, under the
    channel [parameter_to_voltage[parameters.index]] names for each
    parameter, the value measured for that parameter (the values are stored
    in the order of the channels named, not aligned by their own labels). On
    the example the call goes through, the staged voltage ends as
    [{gate_X: 5, gate_Y: 1}] and the current position as
    [{gate_X: 0, gate_Y: 1}]. *)
Theorem forwarding_update_after_step :
  (forall s, ForwardingSolver.suggest_next_voltage s = ForwardingSolver.next_voltage s)
  /\ (forall s voltages parameters variances,
      unique (index (ForwardingSolver.current_position s)) = true ->
      unique (index (ForwardingSolver.next_voltage s)) = true ->
      unique (index (ForwardingSolver.parameter_to_voltage s)) = true ->
      Forall (fun l => mem l (index (ForwardingSolver.current_position s)) = true)
             (index voltages) ->
      Forall (fun l => mem l (index (ForwardingSolver.next_voltage s)) = true)
             (index voltages) ->
      Forall (fun p => exists g,
                  lookup p (ForwardingSolver.parameter_to_voltage s) = Some g
                  /\ mem g (index (ForwardingSolver.next_voltage s)) = true)
             (index parameters) ->
      exists s' names,
        ForwardingSolver.update_after_step s voltages parameters variances = (s', Ok tt)
        /\ getitem_labels (ForwardingSolver.parameter_to_voltage s) (index parameters)
           = Ok names
        /\ Forall2 (fun p g => lookup p (ForwardingSolver.parameter_to_voltage s) = Some g)
                   (index parameters) (values names))
  /\ (forall s voltages parameters variances s' names,
      ForwardingSolver.update_after_step s voltages parameters variances = (s', Ok tt) ->
      getitem_labels (ForwardingSolver.parameter_to_voltage s) (index parameters) = Ok names ->
      NoDup (index voltages) ->
      NoDup (values names) ->
      index (ForwardingSolver.current_position s') = index (ForwardingSolver.current_position s)
      /\ index (ForwardingSolver.next_voltage s') = index (ForwardingSolver.next_voltage s)
      /\ (forall l v, In (l, v) voltages ->
                      lookup l (ForwardingSolver.current_position s') = Some v)
      /\ (forall l, ~ In l (index voltages) ->
                    lookup l (ForwardingSolver.current_position s') = lookup l (ForwardingSolver.current_position s))
      /\ (forall k g x, nth_error (values names) k = Some g ->
                        nth_error (values parameters) k = Some x ->
                        lookup g (ForwardingSolver.suggest_next_voltage s') = Some x)
      /\ (forall l v, ~ In l (values names) -> In (l, v) voltages ->
                      lookup l (ForwardingSolver.suggest_next_voltage s') = Some v)
      /\ (forall l, ~ In l (values names) -> ~ In l (index voltages) ->
                    lookup l (ForwardingSolver.suggest_next_voltage s') = lookup l (ForwardingSolver.next_voltage s)))
  /\ (forall variances,
      ForwardingSolver.update_after_step example_forwarding
        [("gate_Y"%string, 1)] [("param_A"%string, 5)] variances
      = (ForwardingSolver.mk example_target [("param_A"%string, "gate_X"%string)]
           [("gate_X"%string, 0); ("gate_Y"%string, 1)]
           [("gate_X"%string, 5); ("gate_Y"%string, 1)],
         Ok tt)).
Proof.
  split; [reflexivity | split; [|split; [|intros; reflexivity]]].
  - intros s voltages parameters variances Huc Hun Hup Hvc Hvn Hpar.
    unfold ForwardingSolver.update_after_step.
    assert (Hlen : List.length (values voltages) = List.length (index voltages))
      by (unfold values, index; now rewrite !length_map).
    destruct (setitem_labels_total _ _ _ Huc Hvc Hlen) as [cur ->].
    destruct (setitem_labels_total _ _ _ Hun Hvn Hlen) as [nv Env]. rewrite Env.
    pose proof (setitem_labels_index _ _ _ _ Env) as Hix.
    assert (Hlook : Forall (fun p => exists g,
                       lookup p (ForwardingSolver.parameter_to_voltage s) = Some g)
                      (index parameters))
      by (eapply Forall_impl; [|exact Hpar]; intros p (g & Hg & _); eauto).
    destruct (getitem_labels_total _ _ Hup Hlook) as (names & -> & Hni & HF).
    assert (Hgates : Forall (fun g => mem g (index nv) = true) (values names)).
    { rewrite Hix. clear - HF Hpar.
      induction HF as [|p g ps gs Hg _ IH]; [constructor|].
      inversion Hpar as [|? ? (g' & Hg' & Hm) Hrest]; subst.
      constructor; [|exact (IH Hrest)]. congruence. }
    assert (Hlen' : List.length (values parameters) = List.length (values names)).
    { unfold values. rewrite !length_map.
      rewrite <- (length_map fst parameters), <- (length_map fst names).
      fold (index parameters). fold (index names). now rewrite Hni. }
    assert (Hunv : unique (index nv) = true) by now rewrite Hix.
    destruct (setitem_labels_total _ _ _ Hunv Hgates Hlen') as [nv' ->].
    eauto.
  - intros s voltages parameters variances s' names Hrun Hnames Hv Hn.
    unfold ForwardingSolver.update_after_step in Hrun. rewrite Hnames in Hrun.
    destruct (setitem_labels (ForwardingSolver.current_position s) _ _) as [cur|] eqn:Ecur;
      [|discriminate].
    destruct (setitem_labels (ForwardingSolver.next_voltage s) _ _) as [nv|] eqn:Env;
      [|discriminate].
    destruct (setitem_labels nv _ _) as [nv'|] eqn:Env'; [|discriminate].
    injection Hrun as <-. simpl. unfold ForwardingSolver.suggest_next_voltage. simpl.
    destruct (setitem_labels_spec _ _ _ _ Ecur Hv) as (_ & Ci & Ck & Co).
    destruct (setitem_labels_spec _ _ _ _ Env Hv) as (_ & Ni & Nk & No).
    destruct (setitem_labels_spec _ _ _ _ Env' Hn) as (_ & Pi & Pk & Po).
    repeat split.
    + assumption.
    + congruence.
    + intros l v Hin. destruct (in_series_nth _ _ _ Hin) as (k & Hk1 & Hk2). eauto.
    + assumption.
    + eauto.
    + intros l v Hl Hin. rewrite Po by assumption.
      destruct (in_series_nth _ _ _ Hin) as (k & Hk1 & Hk2). eauto.
    + intros l Hl Hl'. rewrite Po by assumption. auto.
Qed.

Lemma forwarding_update_after_step_witness :
  exists after,
    ForwardingSolver.update_after_step example_forwarding
      [("gate_Y"%string, 1)] [("param_A"%string, 5)] []
    = (after, Ok tt)
    /\ lookup "gate_X"%string (ForwardingSolver.suggest_next_voltage after) = Some 5
    /\ lookup "gate_Y"%string (ForwardingSolver.suggest_next_voltage after) = Some 1
    /\ lookup "gate_X"%string (ForwardingSolver.current_position after) = Some 0.
Proof.
  destruct (proj1 (proj2 forwarding_update_after_step)
              example_forwarding [("gate_Y"%string, 1)] [("param_A"%string, 5)] [])
    as (after & names & Hrun & Hnames & _).
  - reflexivity.
  - reflexivity.
  - reflexivity.
  - repeat constructor.
  - repeat constructor.
  - constructor; [|constructor]. exists "gate_X"%string. split; reflexivity.
  - simpl in Hnames. injection Hnames as <-.
    destruct (proj1 (proj2 (proj2 forwarding_update_after_step))
                example_forwarding [("gate_Y"%string, 1)] [("param_A"%string, 5)] []
                after [("param_A"%string, "gate_X"%string)] Hrun eq_refl)
      as (_ & _ & _ & Hcur & Hpar & Hvol & _).
    + repeat constructor. simpl. tauto.
    + repeat constructor. simpl. tauto.
    + exists after. split; [exact Hrun|]. split; [|split].
      * apply (Hpar O); reflexivity.
      * apply Hvol.
        -- simpl. intros [H|[]]. discriminate.
        -- now left.
      * rewrite Hcur; [reflexivity|].
        simpl. intros [H|[]]. discriminate.
Defined.

End ForwardingFacts.

(** ** The finite-difference gradient *)

Section GradientFacts.

Import Util.

Local Open Scope float_scope.

Lemma length_zip_with {A B C : Type} (f : A -> B -> C) (a : list A) (b : list B) :
  List.length a = List.length b ->
  List.length (Np.zip_with f a b) = List.length a.
Proof.
  revert b. induction a as [|x a IH]; intros [|y b] H; simpl in *; try discriminate; auto.
Qed.

Lemma np_sub_same_length (a b : list float) :
  List.length a = List.length b -> np_sub a b = Ok (Np.zip_with PrimFloat.sub a b).
Proof.
  intros H. unfold np_sub. now rewrite H, Nat.eqb_refl.
Qed.

Lemma set_row_exact (cols : nat) (m : matrix) (k : nat) (v : list float) :
  List.length v = cols -> (k < List.length m)%nat ->
  set_row cols m (Z.of_nat k) v = Ok (set_nth m k v).
Proof.
  intros Hv Hk. unfold set_row.
  rewrite norm_index_nat by (unfold len; lia). simpl.
  destruct v as [|x [|y t]]; simpl in *; subst cols; simpl;
    rewrite ?Nat.eqb_refl; reflexivity.
Qed.

(** The loop of the [n_gates + 1] branch writes one row of differences per
    perturbed point, in order, into both matrices. *)
Lemma fill_forward_spec (v0 p0 : list float) :
  List.length p0 = List.length v0 ->
  forall rest_v rest_p pre_v pre_p DV DP ZV ZP,
    List.length rest_p = List.length rest_v ->
    List.length pre_v = List.length DV ->
    List.length pre_p = List.length DV ->
    List.length DP = List.length DV ->
    List.length ZV = List.length rest_v ->
    List.length ZP = List.length rest_v ->
    Forall (fun v => List.length v = List.length v0) rest_v ->
    Forall (fun p => List.length p = List.length v0) rest_p ->
    fill_forward (List.length v0) (p0 :: pre_p ++ rest_p) (v0 :: pre_v ++ rest_v)
      (Py.range (Z.of_nat (S (List.length DV)))
                (Z.of_nat (S (List.length DV) + List.length rest_v)))
      (DV ++ ZV) (DP ++ ZP)
    = Ok (DV ++ differences v0 rest_v, DP ++ differences p0 rest_p).
Proof.
  intros Hp0 rest_v.
  induction rest_v as [|vi rest_v IH];
    intros rest_p pre_v pre_p DV DP ZV ZP Hrp Hpv Hpp Hdp Hzv Hzp Fv Fp.
  - destruct rest_p; [|discriminate]. destruct ZV; [|discriminate].
    destruct ZP; [|discriminate].
    rewrite range_nil by (simpl; lia). reflexivity.
  - destruct rest_p as [|pi rest_p]; [discriminate|].
    destruct ZV as [|zv ZV]; [discriminate|].
    destruct ZP as [|zp ZP]; [discriminate|].
    inversion Fv as [|? ? Hvi Fv']; subst. inversion Fp as [|? ? Hpi Fp']; subst.
    rewrite range_cons by (simpl List.length; lia).
    cbn [fill_forward].
    rewrite (getitem_nat (v0 :: pre_v ++ vi :: rest_v) (S (List.length DV)) vi)
      by (simpl; rewrite nth_error_app2 by lia;
          now replace (List.length DV - List.length pre_v)%nat with O by lia).
    cbn [bind].
    change 0%Z with (Z.of_nat 0).
    rewrite (getitem_nat (v0 :: pre_v ++ vi :: rest_v) 0 v0) by reflexivity.
    cbn [bind].
    rewrite np_sub_same_length by assumption. cbn [bind].
    replace (Z.of_nat (S (List.length DV)) - 1)%Z with (Z.of_nat (List.length DV)) by lia.
    rewrite set_row_exact
      by (rewrite ?length_zip_with, ?length_app; simpl; (assumption || lia)).
    cbn [bind].
    rewrite (getitem_nat (p0 :: pre_p ++ pi :: rest_p) (S (List.length DV)) pi)
      by (simpl; rewrite nth_error_app2 by lia;
          now replace (List.length DV - List.length pre_p)%nat with O by lia).
    cbn [bind].
    rewrite (getitem_nat (p0 :: pre_p ++ pi :: rest_p) 0 p0) by reflexivity.
    cbn [bind].
    rewrite np_sub_same_length by congruence. cbn [bind].
    rewrite set_row_exact
      by (rewrite ?length_zip_with, ?length_app; simpl; (congruence || lia)).
    cbn [bind].
    rewrite set_nth_app. rewrite <- Hdp, set_nth_app, Hdp.
    replace (Z.of_nat (S (List.length DV)) + 1)%Z
      with (Z.of_nat (S (List.length (DV ++ [Np.zip_with PrimFloat.sub vi v0]))))
      by (rewrite length_app; simpl; lia).
    replace (S (List.length DV) + List.length (vi :: rest_v))%nat
      with (S (List.length (DV ++ [Np.zip_with PrimFloat.sub vi v0]))
            + List.length rest_v)%nat
      by (rewrite length_app; simpl; lia).
    specialize (IH rest_p (pre_v ++ [vi]) (pre_p ++ [pi])
                  (DV ++ [Np.zip_with PrimFloat.sub vi v0])
                  (DP ++ [Np.zip_with PrimFloat.sub pi p0]) ZV ZP).
    rewrite <- !app_assoc in IH. cbn [app] in IH.
    rewrite IH; try (rewrite ?length_app; simpl in *; lia); try assumption.
    reflexivity.
Qed.

Variable inv : matrix -> result matrix.

(** X26: for [n_gates + 1] voltage points of [n_gates] voltages each and
    as many parameter vectors, each of [n_gates] values as well, row [i-1]
    of the voltage differences is [point[i] - point[0]], the parameter
    differences are built alike, and the result is the product of the
    parameter differences with the inverse of the voltage differences.
    With the points [[0,0],[1,0],[0,1]] and the parameters
    [[0,0],[2,0],[0,3]] the gradient is [[2,0],[0,3]], the inverse of the
    identity being the identity. *)
Theorem gradient_min_evaluations_forward :
  (forall v0 p0 points params,
      List.length points = List.length v0 ->
      List.length params = List.length v0 ->
      List.length p0 = List.length v0 ->
      Forall (fun v => List.length v = List.length v0) points ->
      Forall (fun p => List.length p = List.length v0) params ->
      gradient_min_evaluations inv (p0 :: params) (v0 :: points)
      = (vinv <- inv (differences v0 points) ;;
         dot (List.length v0) (differences p0 params) vinv))
  /\ (inv [[1; 0]; [0; 1]] = Ok [[1; 0]; [0; 1]] ->
      gradient_min_evaluations inv [[0; 0]; [2; 0]; [0; 3]] [[0; 0]; [1; 0]; [0; 1]]
      = Ok [[2; 0]; [0; 3]]).
Proof.
  assert (General : forall v0 p0 points params,
      List.length points = List.length v0 ->
      List.length params = List.length v0 ->
      List.length p0 = List.length v0 ->
      Forall (fun v => List.length v = List.length v0) points ->
      Forall (fun p => List.length p = List.length v0) params ->
      gradient_min_evaluations inv (p0 :: params) (v0 :: points)
      = (vinv <- inv (differences v0 points) ;;
         dot (List.length v0) (differences p0 params) vinv)).
  { intros v0 p0 points params Hv Hp Hp0 Fv Fp.
    unfold gradient_min_evaluations.
    replace (len (v0 :: points) =? len (p0 :: params))%Z with true
      by (symmetry; apply Z.eqb_eq; unfold len; simpl; lia).
    cbn [negb].
    change 0%Z with (Z.of_nat 0).
    rewrite (getitem_nat (p0 :: params) 0 p0) by reflexivity.
    rewrite (getitem_nat (v0 :: points) 0 v0) by reflexivity.
    cbn [bind].
    replace (len (v0 :: points) =? Z.of_nat (List.length v0) + 1)%Z with true
      by (symmetry; apply Z.eqb_eq; unfold len; simpl; lia).
    pose proof (fill_forward_spec v0 p0 Hp0 points params [] [] [] []
                  (zeros (List.length v0) (List.length v0))
                  (zeros (List.length p0) (List.length v0))) as H.
    cbn [app List.length Nat.add] in H.
    change (Py.range 1 (len (v0 :: points)))
      with (Py.range (Z.of_nat 1) (Z.of_nat (S (List.length points)))).
    rewrite H; try reflexivity; try assumption; try lia.
    - unfold zeros. rewrite repeat_length. lia.
    - unfold zeros. rewrite repeat_length. lia. }
  split; [exact General|].
  intros Hinv.
  rewrite (General [0; 0] [0; 0] [[1; 0]; [0; 1]] [[2; 0]; [0; 3]]);
    try reflexivity; try (repeat constructor).
  change (differences [0; 0] [[1; 0]; [0; 1]]) with [[1; 0]; [0; 1]].
  rewrite Hinv. reflexivity.
Qed.

End GradientFacts.

Lemma gradient_min_evaluations_forward_witness :
  Util.gradient_min_evaluations inv2
    [[0; 0]; [2; 0]; [0; 3]]%float [[0; 0]; [1; 0]; [0; 1]]%float
  = Ok [[2; 0]; [0; 3]]%float
  /\ Util.gradient_min_evaluations inv2
       [[1; 1]; [3; 1]; [1; 3]]%float [[0; 0]; [2; 0]; [0; 4]]%float
     = Ok [[1; 0]; [0; 0.5]]%float.
Proof.
  split.
  - apply (proj2 (gradient_min_evaluations_forward inv2)). reflexivity.
  - rewrite (proj1 (gradient_min_evaluations_forward inv2)
               [0; 0]%float [1; 1]%float [[2; 0]; [0; 4]]%float
               [[3; 1]; [1; 3]]%float);
      try reflexivity; repeat constructor.
Defined.

(** *** Parameter vectors that are not as long as the voltage points *)

Section GradientShape.

Import Util.

Variable inv : matrix -> result matrix.

Lemma in_range (lo hi i : Z) : lo <= i < hi -> In i (Py.range lo hi).
Proof.
  intros H. remember (Z.to_nat (i - lo)) as k eqn:Ek.
  revert lo H Ek. induction k as [|k IH]; intros lo H Ek;
    rewrite range_cons by lia.
  - left. lia.
  - right. apply IH; lia.
Qed.

Lemma set_row_length (cols : nat) (m m' : matrix) (r : Z) (v : list float) :
  set_row cols m r v = Ok m' -> List.length m' = List.length m.
Proof.
  unfold set_row. destruct (norm_index (len m) r) as [k|]; [|discriminate].
  cbn [Py.bind].
  destruct (match v with
            | [x] => Ok (repeat x cols)
            | _ => if Nat.eqb (List.length v) cols then Ok v else Raise ValueError
            end) as [row|]; [|discriminate].
  cbn [Py.bind]. intros H. injection H as <-. apply length_set_nth.
Qed.

(** A matrix has no row after its last one. *)
Lemma set_row_no_row (cols : nat) (m : matrix) (v : list float) :
  set_row cols m (len m) v = Raise IndexError.
Proof.
  unfold set_row, norm_index.
  replace (len m <? len m) with false by (symmetry; apply Z.ltb_ge; lia).
  rewrite andb_false_r.
  replace (len m <? 0) with false by (symmetry; apply Z.ltb_ge; unfold len; lia).
  rewrite andb_false_r. reflexivity.
Qed.

(** A row takes a single value or as many values as it has cells. *)
Lemma set_row_wrong_length (cols : nat) (m : matrix) (r : Z) (v : list float) :
  (2 <= List.length v)%nat -> List.length v <> cols ->
  exists e, set_row cols m r v = Raise e.
Proof.
  intros H2 Hne. unfold set_row.
  destruct (norm_index (len m) r) as [k|e]; [|eexists; reflexivity].
  cbn [Py.bind]. destruct v as [|x [|y t]]; try (simpl in H2; lia).
  destruct (Nat.eqb_spec (List.length (x :: y :: t)) cols); [contradiction|].
  eexists. reflexivity.
Qed.

Lemma np_sub_length (a b d : list float) :
  np_sub a b = Ok d -> (2 <= List.length b)%nat -> List.length d = List.length b.
Proof.
  unfold np_sub. intros H Hb.
  destruct (Nat.eqb_spec (List.length a) (List.length b)) as [Heq|Hne].
  - injection H as <-. rewrite length_zip_with by assumption. exact Heq.
  - destruct a as [|x [|x' a]].
    + destruct b as [|y [|y' b]]; try discriminate. simpl in Hb. lia.
    + injection H as <-. apply length_map.
    + destruct b as [|y [|y' b]]; try discriminate. simpl in Hb. lia.
Qed.

Ltac step_or_raise :=
  match goal with
  | |- exists e, Py.bind ?m _ = Raise e =>
      let E := fresh "E" in
      destruct m eqn:E; cbn [Py.bind]; [|eexists; reflexivity]
  end.

(** The loop of the [n_gates + 1] branch cannot get past the step that
    writes the row after the last one of the parameter differences. *)
Lemma fill_forward_no_row (n_gates : nat) (parameters voltage_points : list (list float)) :
  forall idx voltage_diff parameter_diff,
    In (len parameter_diff + 1) idx ->
    exists e, fill_forward n_gates parameters voltage_points idx
                voltage_diff parameter_diff = Raise e.
Proof.
  induction idx as [|i rest IH]; intros vd pd Hin; [contradiction|].
  cbn [fill_forward]. do 7 step_or_raise.
  destruct Hin as [->|Hin].
  - replace (len pd + 1 - 1) with (len pd) by lia.
    rewrite set_row_no_row. eexists. reflexivity.
  - step_or_raise. apply IH.
    unfold len in *. now rewrite (set_row_length _ _ _ _ _ E6).
Qed.

(** C4: the parameter differences are allocated with one row per parameter
    and one column per gate, and then written like the voltage differences,
    one row per gate with a vector of one value per parameter. So for
    [n_gates + 1] points the call raises whenever the parameter vectors are
    not exactly [n_gates] long, and no gradient comes back, whatever the
    inverse would be. With one parameter and two gates - the points
    [[0,0],[1,0],[0,1]] and the parameters [[0],[2],[3]] - the second
    perturbation has no row to go to: [IndexError]. *)
Theorem gradient_min_evaluations_not_square :
  (forall p0 params v0 points,
      (1 <= List.length v0)%nat ->
      List.length points = List.length v0 ->
      List.length p0 <> List.length v0 ->
      exists e, gradient_min_evaluations inv (p0 :: params) (v0 :: points) = Raise e)
  /\ gradient_min_evaluations inv [[0]; [2]; [3]]%float [[0; 0]; [1; 0]; [0; 1]]%float
     = Raise IndexError.
Proof.
  split; [|reflexivity].
  intros p0 params v0 points Hv Hpoints Hne.
  unfold gradient_min_evaluations.
  destruct (len (v0 :: points) =? len (p0 :: params)); cbn [negb];
    [|eexists; reflexivity].
  change (Py.getitem (p0 :: params) 0) with (Ok p0).
  change (Py.getitem (v0 :: points) 0) with (Ok v0).
  cbn [Py.bind].
  replace (len (v0 :: points) =? Z.of_nat (List.length v0) + 1) with true
    by (symmetry; apply Z.eqb_eq; unfold len; simpl; lia).
  assert (Hloop : exists e,
             fill_forward (List.length v0) (p0 :: params) (v0 :: points)
               (Py.range 1 (len (v0 :: points)))
               (zeros (List.length v0) (List.length v0))
               (zeros (List.length p0) (List.length v0)) = Raise e).
  { destruct (Nat.lt_ge_cases (List.length p0) (List.length v0)) as [Hlt|Hge].
    - apply fill_forward_no_row. apply in_range.
      unfold len, zeros. rewrite repeat_length. simpl List.length. lia.
    - rewrite range_cons by (unfold len; simpl List.length; lia).
      cbn [fill_forward]. do 5 step_or_raise.
      change (Py.getitem (p0 :: params) 0) with (Ok p0). cbn [Py.bind].
      step_or_raise.
      destruct (set_row_wrong_length (List.length v0)
                  (zeros (List.length p0) (List.length v0)) (1 - 1) a4) as [e ->].
      + rewrite (np_sub_length _ _ _ E4); lia.
      + rewrite (np_sub_length _ _ _ E4); lia.
      + eexists. reflexivity. }
  destruct Hloop as [e ->]. eexists. reflexivity.
Qed.

End GradientShape.

Lemma gradient_min_evaluations_not_square_witness :
  exists e,
    Util.gradient_min_evaluations inv2
      [[0]; [2]; [3]]%float [[0; 0]; [1; 0]; [0; 1]]%float = Raise e.
Proof.
  apply (proj1 (gradient_min_evaluations_not_square inv2)
           [0]%float [[2]; [3]]%float [0; 0]%float [[1; 0]; [0; 1]]%float).
  - simpl. lia.
  - reflexivity.
  - simpl. lia.
Defined.

(** ** The analyzer *)

Section AnalyzerFacts.

Import Np H5 Analyzer.

Local Open Scope float_scope.

Lemma mbind_ok {A B : Type} (m : M A) (k : A -> M B) (w w' : world) (b : B) :
  mbind m k w = (Ok b, w') ->
  exists a w1, m w = (Ok a, w1) /\ k a w1 = (Ok b, w').
Proof.
  unfold mbind. destruct (m w) as [[a|e] w1]; [eauto | discriminate].
Qed.

Lemma lift_ok {A : Type} (r : result A) (w w' : world) (a : A) :
  lift r w = (Ok a, w') -> r = Ok a /\ w' = w.
Proof.
  unfold lift. intros H. injection H as -> ->. auto.
Qed.

Lemma bind_ok {A B : Type} (m : result A) (k : A -> result B) (b : B) :
  Py.bind m k = Ok b -> exists a, m = Ok a /\ k a = Ok b.
Proof.
  destruct m as [a|e]; simpl; [eauto | discriminate].
Qed.

Lemma contains_false_getitem (g : node) (path : list string) :
  contains g path = Ok false -> getitem g path = Raise KeyError.
Proof.
  destruct g as [a ms|a v]; simpl; [|discriminate].
  destruct (resolve _ path); [discriminate | reflexivity].
Qed.

Lemma mbind_ok_eq {A B : Type} (m : M A) (k : A -> M B) (w w1 : world) (a : A) :
  m w = (Ok a, w1) -> mbind m k w = k a w1.
Proof.
  unfold mbind. now intros ->.
Qed.

Lemma mbind_ext {A B : Type} (m : M A) (k1 k2 : A -> M B) (w : world) :
  (forall a w1, k1 a w1 = k2 a w1) -> mbind m k1 w = mbind m k2 w.
Proof.
  intros H. unfold mbind. destruct (m w) as [[a|e] w1]; auto.
Qed.

Lemma mbind_cong {A B : Type} (m1 m2 : M A) (k : A -> M B) (w : world) :
  m1 w = m2 w -> mbind m1 k w = mbind m2 k w.
Proof.
  unfold mbind. now intros ->.
Qed.

Lemma mbind_raises_after {A B : Type} (m : M A) (k : A -> M B) (w : world) :
  (forall a w1, exists e w', k a w1 = (Raise e, w')) ->
  exists e w', mbind m k w = (Raise e, w').
Proof.
  intros H. unfold mbind. destruct (m w) as [[a|e] w1]; eauto.
Qed.

Lemma load_cd_gradient_at_eq (depth : nat) (gradient_number tune_run_number : Z) :
  load_cd_gradient_at depth gradient_number tune_run_number
  = (tune_run_group <~ load_tune_run_group tune_run_number ;;
     present <~ lift (contains tune_run_group
                        [("charge_diagram_" ++ str gradient_number)%string]) ;;
     _ <~ (if negb present then
             if (tune_run_number >? 0)%Z then
               _ <~ print (no_cd_gradient gradient_number tune_run_number
                           ++ ". We try to find it in a previous run, since it might have been copied.")%string ;;
               match depth with
               | S depth' =>
                   _ <~ load_cd_gradient_at depth' gradient_number (tune_run_number - 1) ;;
                   ret tt
               | O => raise RecursionError
               end
             else print (no_cd_gradient gradient_number tune_run_number ++ ".")%string
           else ret tt) ;;
     cd_group <~ lift (getitem tune_run_group
                         [("charge_diagram_" ++ str gradient_number)%string]) ;;
     lift (load_gradient_from_group cd_group)).
Proof.
  destruct depth; reflexivity.
Qed.

(** Whenever the run has no [charge_diagram_<k>] group, [load_cd_gradient]
    ends in an exception: what the call for the run before found is not
    handed on, and the group is then looked up in the run that lacks it. *)
Lemma load_cd_gradient_absent_raises (depth : nat) (k n : Z) (w w1 : world) (g : node) :
  load_tune_run_group n w = (Ok g, w1) ->
  contains g [("charge_diagram_" ++ str k)%string] = Ok false ->
  exists e w', load_cd_gradient_at depth k n w = (Raise e, w').
Proof.
  intros Hg Hc.
  rewrite load_cd_gradient_at_eq.
  rewrite (mbind_ok_eq _ _ _ _ _ Hg).
  rewrite (mbind_ok_eq _ _ w1 w1 false) by (unfold lift; now rewrite Hc).
  apply mbind_raises_after. intros _ w2.
  unfold mbind, lift. rewrite (contains_false_getitem _ _ Hc). eauto.
Qed.

(** [tune_run_number] nested calls are enough: a larger bound changes
    nothing. *)
Lemma load_cd_gradient_depth (k : Z) (depth : nat) :
  forall n w, (Z.to_nat n <= depth)%nat ->
    load_cd_gradient_at depth k n w = load_cd_gradient k n w.
Proof.
  unfold load_cd_gradient.
  induction depth as [|depth IH]; intros n w H.
  - now replace (Z.to_nat n) with O by lia.
  - rewrite (load_cd_gradient_at_eq (S depth)), (load_cd_gradient_at_eq (Z.to_nat n)).
    apply mbind_ext. intros g w1. apply mbind_ext. intros present w2.
    apply mbind_cong.
    destruct (negb present); [|reflexivity].
    destruct (n >? 0)%Z eqn:E; [|reflexivity].
    apply Z.gtb_lt in E.
    apply mbind_ext. intros _ w3.
    destruct (Z.to_nat n) as [|m] eqn:En; [lia|].
    apply mbind_cong.
    replace m with (Z.to_nat (n - 1)) by lia.
    apply IH. lia.
Qed.

(** C5: run 1 exists and has no [charge_diagram_1] group, run 0 has one.
    Asked for run 0 the method returns the triple stored there; asked for
    run 1 it announces the fallback, loads the triple of run 0, drops it and
    raises [KeyError]. *)
Theorem load_cd_gradient_drops_fallback :
  load_file charge_diagram_file = Ok (self charge_diagram_world)
  /\ fst (load_cd_gradient 1 0 charge_diagram_world)
     = Ok (Floats (mk_ndarray [2; 2]%nat [1; 2; 3; 4]),
           Floats (mk_ndarray [2; 2]%nat [1; 0; 0; 1]), None)
  /\ fst (load_cd_gradient 1 1 charge_diagram_world) = Raise KeyError
  /\ stdout (snd (load_cd_gradient 1 1 charge_diagram_world))
     = ["parameter_names could not be loaded!";
        "There is no gradient saved for the charge diagram number 1 in tune run number1. We try to find it in a previous run, since it might have been copied.";
        "parameter_names could not be loaded!"]%string.
Proof.
  repeat split.
Qed.






(** *** What a cell of the positive-detune table holds *)




















(** *** The console and the nesting of [load_gradient_group] *)

Lemma keeps_stdin_bind {A B : Type} (m : M A) (k : A -> M B) :
  keeps_stdin m -> (forall a, keeps_stdin (k a)) -> keeps_stdin (mbind m k).
Proof.
  intros Hm Hk w. unfold mbind. specialize (Hm w).
  destruct (m w) as [[a|e] w1]; simpl in *; [|assumption].
  now rewrite Hk.
Qed.

Lemma keeps_stdin_lift {A : Type} (r : result A) : keeps_stdin (lift r).
Proof. intros w. reflexivity. Qed.

Lemma keeps_stdin_print (line : string) : keeps_stdin (print line).
Proof. intros w. reflexivity. Qed.

Lemma keeps_stdin_set_self (a : Analyzer) : keeps_stdin (set_self a).
Proof. intros w. reflexivity. Qed.

Lemma keeps_stdin_load_parameter_names (n : Z) : keeps_stdin (load_parameter_names n).
Proof.
  unfold load_parameter_names.
  apply keeps_stdin_bind; [intros w; reflexivity | intros a].
  apply keeps_stdin_bind; [apply keeps_stdin_lift | intros [|]].
  - repeat (apply keeps_stdin_bind; [apply keeps_stdin_lift | intros ?]).
    apply keeps_stdin_set_self.
  - apply keeps_stdin_bind; [apply keeps_stdin_lift | intros [|]].
    + repeat (apply keeps_stdin_bind; [apply keeps_stdin_lift | intros ?]).
      apply keeps_stdin_set_self.
    + apply keeps_stdin_print.
Qed.

Lemma keeps_stdin_load_tune_run_group (n : Z) : keeps_stdin (load_tune_run_group n).
Proof.
  unfold load_tune_run_group.
  apply keeps_stdin_bind; [intros w; reflexivity | intros a].
  apply keeps_stdin_bind; [apply keeps_stdin_lift | intros [|]].
  - apply keeps_stdin_bind; [apply keeps_stdin_lift | intros g].
    apply keeps_stdin_bind; [apply keeps_stdin_load_parameter_names | intros _].
    intros w. reflexivity.
  - apply keeps_stdin_bind; [apply keeps_stdin_print | intros _].
    intros w. reflexivity.
Qed.

Lemma mbind_ext_run {A B : Type} (m : M A) (k1 k2 : A -> M B) (w : world) :
  (forall a w1, m w = (Ok a, w1) -> k1 a w1 = k2 a w1) ->
  mbind m k1 w = mbind m k2 w.
Proof.
  intros H. unfold mbind. destruct (m w) as [[a|e] w1]; auto.
Qed.

Lemma load_gradient_group_at_eq (depth : nat) (gradient_number tune_run_number : Z) :
  load_gradient_group_at depth gradient_number tune_run_number
  = (tune_run_group <~ load_tune_run_group tune_run_number ;;
     present <~ lift (contains tune_run_group
                        [("gradient_setup_" ++ str gradient_number)%string]) ;;
     if negb present then
       if (tune_run_number >? 0)%Z then
         _ <~ print (no_gradient_setup gradient_number tune_run_number) ;;
         decision <~ input "Would you like to load the gradient from the previous run? (Y/N)" ;;
         if String.eqb decision "Y" then
           _ <~ print "Gradient will be loaded from a previous run!" ;;
           match depth with
           | S depth' => load_gradient_group_at depth' gradient_number (tune_run_number - 1)
           | O => raise RecursionError
           end
         else if String.eqb decision "N" then
           _ <~ print "No gradient could be loaded!" ;;
           raise KeyError
         else
           _ <~ print "This was a yes or no question. Answer with Y or N!" ;;
           match depth with
           | S depth' => load_gradient_group_at depth' gradient_number tune_run_number
           | O => raise RecursionError
           end
       else
         _ <~ print (no_gradient_setup gradient_number tune_run_number) ;;
         raise KeyError
     else lift (getitem tune_run_group
                  [("gradient_setup_" ++ str gradient_number)%string])).
Proof.
  destruct depth; reflexivity.
Qed.

Lemma input_ok (prompt line : string) (w w' : world) :
  input prompt w = (Ok line, w') -> stdin w = line :: stdin w'.
Proof.
  unfold input. destruct (stdin w) as [|l rest]; [discriminate|].
  intros H. injection H as <- <-. reflexivity.
Qed.

Lemma print_stdin (line : string) (w w' : world) (u : unit) :
  print line w = (Ok u, w') -> stdin w' = stdin w.
Proof.
  intros H. rewrite <- (keeps_stdin_print line w), H. reflexivity.
Qed.

(** The bound [load_gradient_group] starts from is enough: any bound that
    covers the lines left on the console and the run number gives the same
    outcome, so the nesting never runs out. *)
Lemma load_gradient_group_depth (k : Z) (d1 : nat) :
  forall d2 n w,
    (List.length (stdin w) + Z.to_nat n <= d1)%nat ->
    (List.length (stdin w) + Z.to_nat n <= d2)%nat ->
    load_gradient_group_at d1 k n w = load_gradient_group_at d2 k n w.
Proof.
  induction d1 as [|d1 IH]; intros d2 n w H1 H2;
    rewrite (load_gradient_group_at_eq _ k n), (load_gradient_group_at_eq d2 k n);
    apply mbind_ext_run; intros g w1 Hg;
    assert (Hs1 : stdin w1 = stdin w)
      by (rewrite <- (keeps_stdin_load_tune_run_group n w), Hg; reflexivity);
    apply mbind_ext_run; intros present w2 Hpresent;
    apply lift_ok in Hpresent; destruct Hpresent as [_ ->];
    (destruct (negb present); [|reflexivity]);
    (destruct (n >? 0)%Z eqn:E; [|reflexivity]);
    apply Z.gtb_lt in E;
    apply mbind_ext_run; intros u w3 Hprint; apply print_stdin in Hprint;
    apply mbind_ext_run; intros line w4 Hinput; apply input_ok in Hinput;
    assert (Hlen : List.length (stdin w) = S (List.length (stdin w4)))
      by (rewrite <- Hs1, <- Hprint, Hinput; reflexivity).
  - exfalso. lia.
  - destruct d2 as [|d2]; [exfalso; lia|].
    destruct (String.eqb line "Y").
    + apply mbind_ext_run. intros u' w5 Hprint'. apply print_stdin in Hprint'.
      apply IH; rewrite Hprint'; lia.
    + destruct (String.eqb line "N"); [reflexivity|].
      apply mbind_ext_run. intros u' w5 Hprint'. apply print_stdin in Hprint'.
      apply IH; rewrite Hprint'; lia.
Qed.

Lemma load_gradient_group_enough (k n : Z) (depth : nat) (w : world) :
  (List.length (stdin w) + Z.to_nat n <= depth)%nat ->
  load_gradient_group_at depth k n w = load_gradient_group k n w.
Proof.
  intros H. unfold load_gradient_group. now apply load_gradient_group_depth.
Qed.

End AnalyzerFacts.

(** * Further properties *)

(** ** [nth_diff] and the trace [find_lead_transition] leaves behind *)

Section MoreDifferences.

Import Np Util.

Lemma getitem_raises_index_error {A : Type} (l : list A) (i : Z) (e : exn) :
  Py.getitem l i = Raise e -> e = IndexError.
Proof.
  unfold Py.getitem, norm_index.
  destruct ((0 <=? i) && (i <? len l))%bool; simpl.
  - destruct (nth_error l (Z.to_nat i)); intros H; [discriminate | now injection H].
  - destruct ((- len l <=? i) && (i <? 0))%bool; simpl.
    + destruct (nth_error l (Z.to_nat (i + len l))); intros H;
        [discriminate | now injection H].
    + intros H. now injection H.
Qed.

Lemma getitem_past_the_end {A : Type} (l : list A) :
  Py.getitem l (len l) = Raise IndexError.
Proof.
  unfold Py.getitem, norm_index.
  replace (len l <? len l)%Z with false by (symmetry; apply Z.ltb_irrefl).
  rewrite andb_false_r.
  replace (len l <? 0)%Z with false by (symmetry; apply Z.ltb_ge; unfold len; lia).
  now rewrite andb_false_r.
Qed.

Local Open Scope float_scope.

(** A loop of [nth_diff] that meets an index outside [data] ends in
    [IndexError], provided the cells it writes exist. *)
Lemma fill_diff_raises (data : list float) (n : Z) :
  forall idx out,
    (forall i, In i idx -> (0 <= i < len out)%Z) ->
    (exists i, In i idx /\ Py.getitem data i = Raise IndexError) ->
    fill_diff data n idx out = Raise IndexError.
Proof.
  induction idx as [|i rest IH]; intros out Hin [j [Hj Hbad]]; [destruct Hj|].
  simpl.
  destruct (Py.getitem data i) as [a|e] eqn:Ea;
    [|now rewrite (getitem_raises_index_error _ _ _ Ea)].
  cbn [Py.bind].
  destruct (Py.getitem data (i + n)) as [b|e] eqn:Eb;
    [|now rewrite (getitem_raises_index_error _ _ _ Eb)].
  cbn [Py.bind].
  assert (Hi : (0 <= i < len out)%Z) by (apply Hin; now left).
  replace i with (Z.of_nat (Z.to_nat i)) at 1 by lia.
  rewrite setitem_nat by (unfold len in Hi; lia).
  cbn [Py.bind].
  apply IH.
  - intros i' Hi'. unfold len. rewrite length_set_nth. apply Hin. now right.
  - destruct Hj as [<-|Hj]; [congruence|]. eauto.
Qed.

(** X1: for [0 <= n <= len(data)], [nth_diff] returns an array of
    [len(data) - n] cells whose cell [i] is [data[i] - data[i+n]]. *)
Theorem nth_diff_cells (data : list float) (n : nat) :
  (n <= List.length data)%nat ->
  exists out,
    nth_diff data (Z.of_nat n) = Ok out
    /\ List.length out = (List.length data - n)%nat
    /\ forall i, (i < List.length data - n)%nat ->
         nth_error out i
         = Some (PrimFloat.sub (nth i data 0) (nth (i + n) data 0)).
Proof.
  intros H. exists (lag_differences data n (List.length data - n)).
  split; [now apply nth_diff_spec|].
  unfold lag_differences. split.
  - now rewrite length_map, length_seq.
  - intros i Hi. rewrite nth_error_map, nth_error_seq.
    apply Nat.ltb_lt in Hi. now rewrite Hi.
Qed.

Lemma nth_diff_cells_witness :
  exists out,
    nth_diff steps 2 = Ok out /\ List.length out = 2%nat
    /\ nth_error out 1 = Some (-30).
Proof.
  destruct (nth_diff_cells steps 2) as (out & Hrun & Hlen & Hcells).
  - simpl. repeat constructor.
  - exists out. split; [exact Hrun | split; [exact Hlen|]].
    rewrite (Hcells 1%nat); [reflexivity|]. simpl. repeat constructor.
Defined.

(** X2: outside that range [nth_diff] raises: [ValueError] for a lag longer
    than the data (the result would have a negative length), [IndexError]
    for a negative lag (the loop runs past the end of the data). *)
Theorem nth_diff_out_of_range (data : list float) (n : Z) :
  ((len data < n)%Z -> nth_diff data n = Raise ValueError)
  /\ ((n < 0)%Z -> nth_diff data n = Raise IndexError).
Proof.
  unfold nth_diff. split; intros H.
  - replace (len data - n <? 0)%Z with true by (symmetry; apply Z.ltb_lt; lia).
    reflexivity.
  - replace (len data - n <? 0)%Z with false
      by (symmetry; apply Z.ltb_ge; unfold len; lia).
    apply fill_diff_raises.
    + intros i Hi. unfold Py.range in Hi. apply in_map_iff in Hi.
      destruct Hi as (k & <- & Hk). apply in_seq in Hk.
      unfold len in *. rewrite repeat_length. lia.
    + exists (len data). split; [|apply getitem_past_the_end].
      unfold Py.range. apply in_map_iff.
      exists (List.length data). split; [unfold len; lia|].
      apply in_seq. unfold len in *. lia.
Qed.

Lemma nth_diff_out_of_range_witness :
  nth_diff steps 5 = Raise ValueError /\ nth_diff steps (-1) = Raise IndexError.
Proof.
  split.
  - apply (proj1 (nth_diff_out_of_range steps 5)). reflexivity.
  - apply (proj2 (nth_diff_out_of_range steps (-1))). reflexivity.
Defined.

(** X3: on a one-dimensional trace and for a lag [n >= 1] that leaves a cell
    to look at, [find_lead_transition] leaves the caller's array with
    [y[i] - y[i+n]] (of the values it had before) in every cell below
    [len(y) - n - 1], and with its last [n + 1] cells untouched. *)
Theorem find_lead_transition_in_place
  (data : ndarray) (center scan_range : float) (npoints : Z) (width : float)
  (s : nat) (x : list float) (n : nat) :
  shape data = [s] ->
  Np.linspace (center - scan_range) (center + scan_range) npoints = Ok x ->
  lag width scan_range npoints = Ok (Z.of_nat n) ->
  (1 <= n)%nat -> (n + 1 <= List.length (flat data))%nat ->
  let after := data_after (find_lead_transition data center scan_range npoints width) in
  shape after = shape data
  /\ differenced (flat data) n (List.length (flat data) - n - 1) (flat after).
Proof.
  intros Hs Hx Hn Hn1 Hlen after. subst after.
  destruct (transition_at_spec x (flat data) n Hn1 Hlen) as (y' & Hrun & Hd).
  unfold find_lead_transition, locate. rewrite Hs, Hx, Hn, Hrun. simpl.
  auto.
Qed.

Lemma find_lead_transition_in_place_witness :
  differenced [0; 0; 1; 1] 1 2
    (flat (data_after (find_lead_transition (array1 [0; 0; 1; 1]) 0 1 4 0.25))).
Proof.
  refine (proj2 (find_lead_transition_in_place (array1 [0; 0; 1; 1]) 0 1 4%Z 0.25
                   4%nat _ 1%nat _ _ _ _ _)).
  - reflexivity.
  - vm_compute. reflexivity.
  - reflexivity.
  - apply le_n.
  - simpl. repeat constructor.
Defined.

End MoreDifferences.

(** ** [moving_average_filter] and [find_stepes_point_sensing_dot] *)

Section Smoothing.

Import Np Util.

Lemma map_result_app {A B : Type} (f : A -> result B) (l1 l2 : list A) :
  map_result f (l1 ++ l2)
  = (b1 <- map_result f l1 ;; b2 <- map_result f l2 ;; Ok (b1 ++ b2)).
Proof.
  induction l1 as [|a t IH]; simpl.
  - destruct (map_result f l2); reflexivity.
  - destruct (f a) as [b|e]; simpl; [|reflexivity].
    rewrite IH. destruct (map_result f t) as [bs|e]; simpl; [|reflexivity].
    destruct (map_result f l2); reflexivity.
Qed.

Lemma map_result_length {A B : Type} (f : A -> result B) (l : list A) (out : list B) :
  map_result f l = Ok out -> List.length out = List.length l.
Proof.
  revert out. induction l as [|a t IH]; simpl; intros out H.
  - now injection H as <-.
  - destruct (f a) as [b|e]; simpl in H; [|discriminate].
    destruct (map_result f t) as [bs|e]; simpl in H; [|discriminate].
    injection H as <-. simpl. f_equal. now apply IH.
Qed.

Lemma map_result_nth {A B : Type} (f : A -> result B) (l : list A) (out : list B) :
  map_result f l = Ok out ->
  forall k a, nth_error l k = Some a ->
    exists b, f a = Ok b /\ nth_error out k = Some b.
Proof.
  revert out. induction l as [|h t IH]; simpl; intros out H k a Hk.
  - now destruct k.
  - destruct (f h) as [b|e] eqn:Eh; simpl in H; [|discriminate].
    destruct (map_result f t) as [bs|e]; simpl in H; [|discriminate].
    injection H as <-. destruct k as [|k]; simpl in *.
    + injection Hk as <-. eauto.
    + eapply IH; eauto.
Qed.

Lemma range_app (a b c : Z) :
  a <= b -> b <= c -> Py.range a c = Py.range a b ++ Py.range b c.
Proof.
  intros Hab Hbc. remember (Z.to_nat (b - a)) as k eqn:Ek.
  revert a Hab Ek. induction k as [|k IH]; intros a Hab Ek.
  - replace a with b by lia. now rewrite (range_nil b b) by lia.
  - rewrite (range_cons a c), (range_cons a b) by lia.
    simpl. f_equal. apply IH; lia.
Qed.

Lemma squeezed_slice_ok (data : list float) (a b : Z) :
  List.length data <> 1%nat -> squeezed_slice data a b = Ok (Py.slice data a b).
Proof.
  intros H. unfold squeezed_slice.
  destruct (Nat.eqb_spec (List.length data) 1); [contradiction | reflexivity].
Qed.

Lemma nth_error_middle {A : Type} (a b : list A) (x : A) :
  nth_error (a ++ x :: b) (List.length a) = Some x.
Proof.
  rewrite nth_error_app2 by lia. now rewrite Nat.sub_diag.
Qed.

Ltac write_cell :=
  rewrite setitem_nat by (rewrite length_app; simpl; lia);
  cbn [Py.bind]; rewrite set_nth_app.

Lemma smooth_head_spec (data : list float) (width : Z) :
  List.length data <> 1%nat ->
  forall c done zs rest,
    List.length zs = c ->
    Z.of_nat (List.length done + c) <= width ->
    smooth_head data (Py.range (Z.of_nat (List.length done))
                               (Z.of_nat (List.length done + c)))
                (done ++ zs ++ rest)
    = (cells <- map_result (smoothed_cell data width)
                  (Py.range (Z.of_nat (List.length done))
                            (Z.of_nat (List.length done + c))) ;;
       Ok (done ++ cells ++ rest)).
Proof.
  intros Hdata c. induction c as [|c IH]; intros done zs rest Hzs Hw.
  - destruct zs; [|discriminate]. rewrite range_nil by lia. reflexivity.
  - destruct zs as [|z zs]; [discriminate|]. injection Hzs as Hzs.
    rewrite range_cons by lia. cbn [smooth_head map_result app].
    rewrite squeezed_slice_ok by assumption. cbn [Py.bind].
    write_cell.
    rewrite (getitem_nat _ _ _ (nth_error_middle _ _ _)). cbn [Py.bind].
    unfold smoothed_cell at 1.
    replace (Z.of_nat (List.length done) <? width) with true
      by (symmetry; apply Z.ltb_lt; lia).
    destruct (float_of_int (Z.of_nat (List.length done) + 1)) as [d|e];
      cbn [Py.bind]; [|reflexivity].
    destruct (truediv 1%float d) as [r|e]; cbn [Py.bind]; [|reflexivity].
    write_cell.
    specialize (IH (done ++ [PrimFloat.mul
                               (builtin_sum (Py.slice data 0
                                               (Z.of_nat (List.length done) + 1))) r])
                   zs rest Hzs).
    rewrite length_app in IH. cbn [List.length] in IH.
    replace (Z.of_nat (List.length done + 1)) with (Z.of_nat (List.length done) + 1)
      in IH by lia.
    replace (Z.of_nat (List.length done + 1 + c))
      with (Z.of_nat (List.length done + S c)) in IH by lia.
    rewrite <- app_assoc in IH. cbn [app] in IH.
    rewrite IH by lia.
    destruct (map_result _ _) as [cells|e]; cbn [Py.bind]; [|reflexivity].
    now rewrite <- app_assoc.
Qed.

Lemma smooth_tail_spec (data : list float) (width : Z) :
  List.length data <> 1%nat ->
  forall c done zs rest,
    List.length zs = c ->
    width <= Z.of_nat (List.length done) ->
    smooth_tail data width (Py.range (Z.of_nat (List.length done))
                                     (Z.of_nat (List.length done + c)))
                (done ++ zs ++ rest)
    = (cells <- map_result (smoothed_cell data width)
                  (Py.range (Z.of_nat (List.length done))
                            (Z.of_nat (List.length done + c))) ;;
       Ok (done ++ cells ++ rest)).
Proof.
  intros Hdata c. induction c as [|c IH]; intros done zs rest Hzs Hw.
  - destruct zs; [|discriminate]. rewrite range_nil by lia. reflexivity.
  - destruct zs as [|z zs]; [discriminate|]. injection Hzs as Hzs.
    rewrite range_cons by lia. cbn [smooth_tail map_result app].
    rewrite squeezed_slice_ok by assumption. cbn [Py.bind].
    write_cell.
    rewrite (getitem_nat _ _ _ (nth_error_middle _ _ _)). cbn [Py.bind].
    unfold smoothed_cell at 1.
    replace (Z.of_nat (List.length done) <? width) with false
      by (symmetry; apply Z.ltb_ge; lia).
    destruct (float_of_int width) as [d|e]; cbn [Py.bind]; [|reflexivity].
    destruct (truediv 1%float d) as [r|e]; cbn [Py.bind]; [|reflexivity].
    write_cell.
    specialize (IH (done ++ [PrimFloat.mul
                               (builtin_sum (Py.slice data
                                               (Z.of_nat (List.length done) - width + 1)
                                               (Z.of_nat (List.length done) + 1))) r])
                   zs rest Hzs).
    rewrite length_app in IH. cbn [List.length] in IH.
    replace (Z.of_nat (List.length done + 1)) with (Z.of_nat (List.length done) + 1)
      in IH by lia.
    replace (Z.of_nat (List.length done + 1 + c))
      with (Z.of_nat (List.length done + S c)) in IH by lia.
    rewrite <- app_assoc in IH. cbn [app] in IH.
    rewrite IH by lia.
    destruct (map_result _ _) as [cells|e]; cbn [Py.bind]; [|reflexivity].
    now rewrite <- app_assoc.
Qed.

Lemma moving_average_filter_closed (data : list float) (w : nat) :
  List.length data <> 1%nat ->
  (w <= List.length data)%nat ->
  moving_average_filter data (Z.of_nat w)
  = map_result (smoothed_cell data (Z.of_nat w)) (Py.range 0 (len data)).
Proof.
  intros Hdata Hw. unfold moving_average_filter.
  rewrite (range_app 0 (Z.of_nat w) (len data)) by (unfold len; lia).
  rewrite map_result_app.
  replace (repeat 0%float (List.length data))
    with ([] ++ repeat 0%float w ++ repeat 0%float (List.length data - w))
    by (cbn [app]; rewrite <- repeat_app; f_equal; lia).
  pose proof (smooth_head_spec data (Z.of_nat w) Hdata w []
                (repeat 0%float w) (repeat 0%float (List.length data - w))
                (repeat_length _ _)) as Hhead.
  cbn [List.length Nat.add] in Hhead. change (Z.of_nat 0) with 0 in Hhead.
  rewrite Hhead by lia. clear Hhead.
  destruct (map_result (smoothed_cell data (Z.of_nat w)) (Py.range 0 (Z.of_nat w)))
    as [cells|e] eqn:Ecells; cbn [Py.bind app]; [|reflexivity].
  assert (Hlen : List.length cells = w).
  { rewrite (map_result_length _ _ _ Ecells), length_range. lia. }
  pose proof (smooth_tail_spec data (Z.of_nat w) Hdata (List.length data - w) cells
                (repeat 0%float (List.length data - w)) []
                (repeat_length _ _)) as Htail.
  rewrite app_nil_r in Htail. rewrite Hlen in Htail.
  replace (Z.of_nat (w + (List.length data - w))) with (len data) in Htail
    by (unfold len; lia).
  rewrite Htail by lia.
  destruct (map_result _ (Py.range (Z.of_nat w) (len data))) as [cells'|e];
    cbn [Py.bind]; [|reflexivity].
  now rewrite app_nil_r.
Qed.

(** X4: for a window no longer than the trace (and a trace of more or fewer
    samples than one), [moving_average_filter] computes its cells one by one
    from left to right: cell [i] is the sum of [data[0:i+1]] times
    [1/(i+1)] below [width], and the sum of [data[i-width+1:i+1]] times
    [1/width] from [width] on. What it returns has one cell per sample. *)
Theorem moving_average_filter_cells (data : list float) (w : nat) :
  List.length data <> 1%nat ->
  (w <= List.length data)%nat ->
  moving_average_filter data (Z.of_nat w)
  = map_result (smoothed_cell data (Z.of_nat w)) (Py.range 0 (len data))
  /\ forall out,
       moving_average_filter data (Z.of_nat w) = Ok out ->
       List.length out = List.length data
       /\ forall i, (i < List.length data)%nat ->
            exists v, smoothed_cell data (Z.of_nat w) (Z.of_nat i) = Ok v
                      /\ nth_error out i = Some v.
Proof.
  intros Hdata Hw.
  pose proof (moving_average_filter_closed data w Hdata Hw) as Hclosed.
  split; [exact Hclosed|].
  intros out Hout. rewrite Hclosed in Hout. split.
  - rewrite (map_result_length _ _ _ Hout), length_range. unfold len. lia.
  - intros i Hi.
    apply (map_result_nth _ _ _ Hout i (Z.of_nat i)).
    unfold Py.range. rewrite nth_error_map, nth_error_seq.
    replace (i <? Z.to_nat (len data - 0))%nat with true
      by (symmetry; apply Nat.ltb_lt; unfold len; lia).
    reflexivity.
Qed.

Lemma moving_average_filter_cells_witness :
  moving_average_filter [1; 2; 3; 4; 5]%float 2 = Ok [1; 1.5; 2.5; 3.5; 4.5]%float.
Proof.
  pose proof (proj1 (moving_average_filter_cells [1; 2; 3; 4; 5]%float 2
                       ltac:(discriminate) ltac:(simpl; repeat constructor))) as H.
  change (Z.of_nat 2) with 2 in H. rewrite H. reflexivity.
Defined.

Lemma smooth_head_app (data : list float) (l1 l2 : list Z) :
  forall smoothed,
    smooth_head data (l1 ++ l2) smoothed
    = (s1 <- smooth_head data l1 smoothed ;; smooth_head data l2 s1).
Proof.
  induction l1 as [|i t IH]; intros smoothed; [reflexivity|].
  cbn [app smooth_head].
  destruct (squeezed_slice data 0 (i + 1)); cbn [Py.bind]; [|reflexivity].
  destruct (setitem smoothed i _) as [s1|]; cbn [Py.bind]; [|reflexivity].
  destruct (Py.getitem s1 i); cbn [Py.bind]; [|reflexivity].
  destruct (float_of_int (i + 1)); cbn [Py.bind]; [|reflexivity].
  destruct (truediv 1%float _); cbn [Py.bind]; [|reflexivity].
  destruct (setitem s1 i _); cbn [Py.bind]; [apply IH | reflexivity].
Qed.

Lemma moving_average_filter_window_too_long (data : list float) (width : Z) :
  len data < width ->
  exists e, moving_average_filter data width = Raise e.
Proof.
  intros Hw.
  destruct (Nat.eq_dec (List.length data) 1) as [Hone|Hdata].
  - unfold moving_average_filter.
    rewrite (range_cons 0 width) by (unfold len in Hw; lia).
    cbn [smooth_head]. unfold squeezed_slice. rewrite Hone. simpl. eauto.
  - unfold moving_average_filter.
    rewrite (range_app 0 (len data) width) by (unfold len in *; lia).
    rewrite smooth_head_app.
    pose proof (smooth_head_spec data width Hdata (List.length data) []
                  (repeat 0%float (List.length data)) []
                  (repeat_length _ _)) as Hhead.
    cbn [List.length Nat.add app] in Hhead. change (Z.of_nat 0) with 0 in Hhead.
    rewrite app_nil_r in Hhead. fold (len data) in Hhead.
    rewrite Hhead by (unfold len in *; lia). clear Hhead.
    destruct (map_result _ _) as [cells|e] eqn:Ecells; cbn [Py.bind]; [|eauto].
    rewrite app_nil_r.
    assert (Hlen : len cells = len data).
    { unfold len. rewrite (map_result_length _ _ _ Ecells), length_range.
      unfold len. lia. }
    rewrite range_cons by lia. cbn [smooth_head].
    rewrite squeezed_slice_ok by assumption. cbn [Py.bind].
    unfold setitem, norm_index. rewrite Hlen.
    replace (len data <? len data) with false by (symmetry; apply Z.ltb_irrefl).
    rewrite andb_false_r.
    replace (len data <? 0) with false
      by (symmetry; apply Z.ltb_ge; unfold len; lia).
    rewrite andb_false_r. simpl. eauto.
Qed.

(** X5: [moving_average_filter] never returns for a window longer than the
    trace: its first loop runs over [range(width)] and writes past the last
    cell. On a single sample it raises [IndexError] for every width,
    because squeezing leaves an array without an axis to slice. *)
Theorem moving_average_filter_short_trace :
  (forall data width,
      len data < width ->
      exists e, moving_average_filter data width = Raise e)
  /\ (forall x width, moving_average_filter [x] width = Raise IndexError).
Proof.
  split; [exact moving_average_filter_window_too_long|].
  intros x width. unfold moving_average_filter.
  destruct (Z_lt_le_dec 0 width) as [Hpos|Hneg].
  - rewrite (range_cons 0 width) by lia. reflexivity.
  - rewrite (range_nil 0 width) by lia. cbn [smooth_head Py.bind].
    rewrite (range_cons width (len [x])) by (unfold len; simpl; lia).
    reflexivity.
Qed.

Lemma moving_average_filter_short_trace_witness :
  exists e, moving_average_filter [1; 2; 3; 4; 5]%float 6 = Raise e.
Proof.
  apply (proj1 moving_average_filter_short_trace). reflexivity.
Defined.

(** X6: [find_stepes_point_sensing_dot] returns a detuning only for traces
    of at least 200 samples; on a shorter trace its first smoothing pass
    fails. *)
Theorem find_stepes_point_sensing_dot_needs_200 (data : list float)
  (scan_range : float) (npoints : Z) (v : float) :
  find_stepes_point_sensing_dot data scan_range npoints = Ok v ->
  (200 <= List.length data)%nat.
Proof.
  intros H. unfold find_stepes_point_sensing_dot in H.
  destruct (moving_average_filter data 200) as [d1|e] eqn:E1; [|discriminate].
  destruct (le_lt_dec 200 (List.length data)) as [Hok|Hshort]; [assumption|].
  destruct (moving_average_filter_window_too_long data 200) as [e He].
  - unfold len. lia.
  - congruence.
Qed.

Lemma find_stepes_point_sensing_dot_needs_200_witness :
  (200 <= List.length (repeat 0%float 100 ++ repeat 1%float 200))%nat.
Proof.
  eapply (find_stepes_point_sensing_dot_needs_200 _ 1%float 1280).
  vm_compute. reflexivity.
Defined.

End Smoothing.

(** ** [nth] *)

Section NthItem.

Import Util.

Context {A : Type}.

Lemma islice_from_skipn (l : list A) (n : nat) : Iter.islice_from l n = skipn n l.
Proof.
  revert l. induction n as [|n IH]; intros [|h t]; simpl; auto.
Qed.

Lemma hd_skipn (l : list A) (n : nat) :
  match skipn n l with
  | item :: _ => nth_error l n = Some item
  | [] => nth_error l n = None
  end.
Proof.
  revert l. induction n as [|n IH]; intros [|h t]; simpl; auto.
  apply IH.
Qed.

(** X7: [nth(iterable, n)] is [iterable[n]] for [0 <= n < len(iterable)];
    past the end it raises [StopIteration] - there is no default value -
    and a negative [n] is a [ValueError], not an index from the end. *)
Theorem nth_item (l : list A) (n : Z) :
  (0 <= n < len l -> n <= maxsize -> Iter.nth l n = Py.getitem l n)
  /\ (len l <= n -> n <= maxsize -> Iter.nth l n = Raise StopIteration)
  /\ (n < 0 -> Iter.nth l n = Raise ValueError).
Proof.
  unfold Iter.nth. rewrite islice_from_skipn.
  pose proof (hd_skipn l (Z.to_nat n)) as Hhd.
  split; [|split].
  - intros Hn Hmax.
    replace ((n <? 0) || (maxsize <? n))%bool with false
      by (symmetry; apply orb_false_intro; [apply Z.ltb_ge | apply Z.ltb_ge]; lia).
    unfold Py.getitem, norm_index.
    replace ((0 <=? n) && (n <? len l))%bool with true
      by (symmetry; apply andb_true_intro; split;
          [apply Z.leb_le | apply Z.ltb_lt]; lia).
    cbn [Py.bind].
    destruct (skipn (Z.to_nat n) l) as [|item rest]; rewrite Hhd; [|reflexivity].
    apply nth_error_None in Hhd. unfold len in Hn. lia.
  - intros Hn Hmax.
    replace ((n <? 0) || (maxsize <? n))%bool with false
      by (symmetry; apply orb_false_intro; [apply Z.ltb_ge | apply Z.ltb_ge];
          unfold len in Hn; lia).
    destruct (skipn (Z.to_nat n) l) as [|item rest]; [reflexivity|].
    assert (Hlt : (Z.to_nat n < List.length l)%nat)
      by (apply nth_error_Some; congruence).
    unfold len in Hn. lia.
  - intros Hn.
    replace (n <? 0) with true by (symmetry; apply Z.ltb_lt; lia).
    reflexivity.
Qed.

End NthItem.

Lemma nth_item_witness :
  Util.Iter.nth [10; 20; 30] 1 = Ok 20
  /\ Util.Iter.nth [10; 20; 30] 3 = Raise StopIteration
  /\ Util.Iter.nth [10; 20; 30] (-1) = Raise ValueError.
Proof.
  destruct (nth_item [10; 20; 30] 1) as (H1 & _ & _).
  destruct (nth_item [10; 20; 30] 3) as (_ & H2 & _).
  destruct (nth_item [10; 20; 30] (-1)) as (_ & _ & H3).
  split; [|split].
  - rewrite H1; [reflexivity | unfold len; simpl; lia | unfold maxsize; lia].
  - apply H2; [unfold len; simpl; lia | unfold maxsize; lia].
  - apply H3. lia.
Defined.

(** ** The paired branch of [gradient_min_evaluations] *)

Section PairedGradient.

Import Util.

Lemma length_unpair (pairs : list (list float * list float)) :
  List.length (unpair pairs) = (2 * List.length pairs)%nat.
Proof.
  induction pairs as [|p t IH]; [reflexivity|].
  change (unpair (p :: t)) with (fst p :: snd p :: unpair t).
  cbn [List.length]. rewrite IH. lia.
Qed.

Lemma unpair_app (a b : list (list float * list float)) :
  unpair (a ++ b) = unpair a ++ unpair b.
Proof.
  unfold unpair. apply flat_map_app.
Qed.

Lemma fill_paired_spec (n : nat) :
  forall rest_v rest_p pre_v pre_p DV DP ZV ZP,
    List.length rest_p = List.length rest_v ->
    List.length pre_v = List.length DV ->
    List.length pre_p = List.length DV ->
    List.length DP = List.length DV ->
    List.length ZV = List.length rest_v ->
    List.length ZP = List.length rest_v ->
    Forall (pair_of_size n) rest_v ->
    Forall (pair_of_size n) rest_p ->
    fill_paired n (unpair (pre_p ++ rest_p)) (unpair (pre_v ++ rest_v))
      (Py.range (Z.of_nat (List.length DV))
                (Z.of_nat (List.length DV + List.length rest_v)))
      (DV ++ ZV) (DP ++ ZP)
    = Ok (DV ++ pair_differences rest_v, DP ++ pair_differences rest_p).
Proof.
  induction rest_v as [|[va vb] rest_v IH];
    intros rest_p pre_v pre_p DV DP ZV ZP Hrp Hpv Hpp Hdp Hzv Hzp Fv Fp.
  - destruct rest_p; [|discriminate]. destruct ZV; [|discriminate].
    destruct ZP; [|discriminate].
    rewrite range_nil by (simpl; lia). reflexivity.
  - destruct rest_p as [|[pa pb] rest_p]; [discriminate|].
    destruct ZV as [|zv ZV]; [discriminate|].
    destruct ZP as [|zp ZP]; [discriminate|].
    destruct (Forall_inv Fv) as [Hva Hvb].
    destruct (Forall_inv Fp) as [Hpa Hpb].
    pose proof (Forall_inv_tail Fv) as Fv'.
    pose proof (Forall_inv_tail Fp) as Fp'.
    cbn [fst snd] in Hva, Hvb, Hpa, Hpb.
    rewrite range_cons by (simpl List.length; lia).
    cbn [fill_paired].
    assert (Hget : forall (pre rest : list (list float * list float)) a b,
               List.length pre = List.length DV ->
               Py.getitem (unpair (pre ++ (a, b) :: rest))
                          (2 * Z.of_nat (List.length DV) + 1) = Ok b
               /\ Py.getitem (unpair (pre ++ (a, b) :: rest))
                             (2 * Z.of_nat (List.length DV)) = Ok a).
    { intros pre rest a b Hpre. rewrite unpair_app. cbn [unpair flat_map app fst snd].
      split.
      - replace (2 * Z.of_nat (List.length DV) + 1)
          with (Z.of_nat (S (List.length (unpair pre))))
          by (rewrite length_unpair; lia).
        apply getitem_nat. rewrite nth_error_app2 by lia.
        now replace (S (List.length (unpair pre)) - List.length (unpair pre))%nat
          with 1%nat by lia.
      - replace (2 * Z.of_nat (List.length DV))
          with (Z.of_nat (List.length (unpair pre)))
          by (rewrite length_unpair; lia).
        apply getitem_nat. apply nth_error_middle. }
    destruct (Hget pre_v rest_v va vb Hpv) as [-> ->].
    destruct (Hget pre_p rest_p pa pb Hpp) as [-> ->].
    cbn [Py.bind].
    rewrite np_sub_same_length by congruence. cbn [Py.bind].
    rewrite set_row_exact
      by (rewrite ?length_zip_with, ?length_app; simpl; (congruence || lia)).
    cbn [Py.bind].
    rewrite np_sub_same_length by congruence. cbn [Py.bind].
    rewrite set_row_exact
      by (rewrite ?length_zip_with, ?length_app; simpl; (congruence || lia)).
    cbn [Py.bind].
    rewrite set_nth_app. rewrite <- Hdp, set_nth_app, Hdp.
    specialize (IH rest_p (pre_v ++ [(va, vb)]) (pre_p ++ [(pa, pb)])
                  (DV ++ [Np.zip_with PrimFloat.sub vb va])
                  (DP ++ [Np.zip_with PrimFloat.sub pb pa]) ZV ZP).
    rewrite <- !app_assoc in IH. cbn [app] in IH.
    rewrite !length_app in IH. cbn [List.length] in IH.
    replace (Z.of_nat (List.length DV) + 1) with (Z.of_nat (List.length DV + 1)) by lia.
    replace (List.length DV + List.length ((va, vb) :: rest_v))%nat
      with (List.length DV + 1 + List.length rest_v)%nat by (simpl; lia).
    rewrite IH; try (rewrite ?length_app; simpl in *; lia); try assumption.
    reflexivity.
Qed.

Variable inv : matrix -> result matrix.

(** X8: for [2 * n_gates] points laid out as minus/plus pairs ([n_gates]
    at least 2, every point and every parameter vector of [n_gates]
    entries), row [i] of the voltage differences is
    [point[2i+1] - point[2i]], the parameter differences are built alike,
    and the result is their product with the inverse of the voltage
    differences. *)
Theorem gradient_min_evaluations_paired (vpairs ppairs : list (list float * list float)) :
  (2 <= List.length vpairs)%nat ->
  List.length ppairs = List.length vpairs ->
  Forall (pair_of_size (List.length vpairs)) vpairs ->
  Forall (pair_of_size (List.length vpairs)) ppairs ->
  gradient_min_evaluations inv (unpair ppairs) (unpair vpairs)
  = (vinv <- inv (pair_differences vpairs) ;;
     dot (List.length vpairs) (pair_differences ppairs) vinv).
Proof.
  intros Hn Hp Fv Fp. unfold gradient_min_evaluations.
  replace (len (unpair vpairs) =? len (unpair ppairs)) with true
    by (symmetry; apply Z.eqb_eq; unfold len; rewrite !length_unpair; lia).
  cbn [negb].
  destruct vpairs as [|[va vb] vrest] eqn:Ev; [simpl in Hn; lia|].
  destruct ppairs as [|[pa pb] prest] eqn:Ep; [discriminate|].
  rewrite <- Ev, <- Ep in *.
  assert (Hva : List.length va = List.length vpairs)
    by (rewrite Ev in Fv at 2; exact (proj1 (Forall_inv Fv))).
  assert (Hpa : List.length pa = List.length vpairs)
    by (rewrite Ep in Fp; exact (proj1 (Forall_inv Fp))).
  replace (Py.getitem (unpair ppairs) 0) with (Ok pa) by (rewrite Ep; reflexivity).
  replace (Py.getitem (unpair vpairs) 0) with (Ok va) by (rewrite Ev; reflexivity).
  cbn [Py.bind]. rewrite Hva, Hpa.
  replace (len (unpair vpairs) =? Z.of_nat (List.length vpairs) + 1) with false
    by (symmetry; apply Z.eqb_neq; unfold len; rewrite length_unpair; lia).
  replace (len (unpair vpairs) =? 2 * Z.of_nat (List.length vpairs)) with true
    by (symmetry; apply Z.eqb_eq; unfold len; rewrite length_unpair; lia).
  pose proof (fill_paired_spec (List.length vpairs) vpairs ppairs [] [] [] []
                (zeros (List.length vpairs) (List.length vpairs))
                (zeros (List.length vpairs) (List.length vpairs))) as H.
  cbn [app List.length Nat.add] in H. change (Z.of_nat 0) with 0 in H.
  rewrite H; try reflexivity; try assumption; try lia;
    unfold zeros; rewrite repeat_length; lia.
Qed.

End PairedGradient.

Lemma gradient_min_evaluations_paired_witness :
  Util.gradient_min_evaluations inv2
    (unpair [([-2; 0], [2; 0]); ([0; -3], [0; 3])]%float)
    (unpair [([-1; 0], [1; 0]); ([0; -1], [0; 1])]%float)
  = Ok [[2; 0]; [0; 3]]%float.
Proof.
  rewrite (gradient_min_evaluations_paired inv2
             [([-1; 0], [1; 0]); ([0; -1], [0; 1])]%float
             [([-2; 0], [2; 0]); ([0; -3], [0; 3])]%float).
  - reflexivity.
  - simpl. repeat constructor.
  - reflexivity.
  - repeat constructor.
  - repeat constructor.
Defined.

(** ** [make_target] *)

Section MakeTarget.

Import Pd Solver.

Lemma mem_filter_nil (l : label) (s : Series float) :
  mem l (index s) = false -> filter (fun c => String.eqb (fst c) l) s = [].
Proof.
  induction s as [|[h v] t IH]; simpl; intros H; [reflexivity|].
  apply orb_false_iff in H as [Hh Ht].
  rewrite String.eqb_sym, Hh. auto.
Qed.

Lemma mem_filter_cons (l : label) (s : Series float) :
  mem l (index s) = true ->
  exists c hs, filter (fun c => String.eqb (fst c) l) s = c :: hs.
Proof.
  induction s as [|[h v] t IH]; simpl; intros H; [discriminate|].
  rewrite String.eqb_sym.
  destruct (String.eqb l h); simpl in H; eauto.
Qed.

Lemma filter_single (s : Series float) (l : label) :
  unique (index s) = true -> mem l (index s) = true ->
  filter (fun c => String.eqb (fst c) l) s = [(l, float_at s l)].
Proof.
  unfold float_at.
  induction s as [|[h v] t IH]; simpl; intros Hu Hm; [discriminate|].
  apply andb_true_iff in Hu as [Hh Ht]. apply negb_true_iff in Hh.
  rewrite String.eqb_sym. destruct (String.eqb_spec l h) as [->|Hne].
  - rewrite mem_filter_nil by assumption. reflexivity.
  - simpl in Hm. auto.
Qed.

Lemma getitem_labels_covered (s : Series float) (keys : list label) :
  unique (index s) = true ->
  Forall (fun l => mem l (index s) = true) keys ->
  getitem_labels s keys = Ok (map (fun l => (l, float_at s l)) keys).
Proof.
  intros Hu. induction 1 as [|k rest Hk _ IH]; simpl; [reflexivity|].
  rewrite (filter_single s k Hu Hk), IH. reflexivity.
Qed.

Lemma index_map_pair (f : label -> float) (ps : list label) :
  index (map (fun l => (l, f l)) ps) = ps.
Proof.
  unfold index. rewrite map_map. simpl. apply map_id.
Qed.

Lemma values_map_pair (f : label -> float) (ps : list label) :
  values (map (fun l => (l, f l)) ps) = map f ps.
Proof.
  unfold values. rewrite map_map. reflexivity.
Qed.

Lemma to_series_covered (ps : list label) (a : target_arg) :
  covers ps a -> to_series ps a = Ok (map (fun l => (l, arg_at a l)) ps).
Proof.
  destruct a as [x|s]; simpl; [reflexivity|].
  intros [Hu Hm]. now apply getitem_labels_covered.
Qed.

Lemma align_same (f : label -> float) (ps : list label) :
  align ps (map (fun l => (l, f l)) ps) = Ok (map f ps).
Proof.
  unfold align. rewrite index_map_pair, values_map_pair.
  destruct (list_eq_dec string_dec ps ps); [reflexivity | contradiction].
Qed.

(** X9: [make_target] takes the parameter names from the first argument, in
    the order [desired], [maximum], [minimum], that is a series. When every
    series argument holds each of these names, and no name twice, the table
    has exactly these names as its index and its columns are aligned by name
    and not by position: a series gives the value it holds under the name,
    a scalar is repeated for every name. *)
Theorem make_target_aligned (desired maximum minimum : target_arg) (ps : list label) :
  first_index [desired; maximum; minimum] = Ok ps ->
  covers ps desired -> covers ps maximum -> covers ps minimum ->
  make_target desired maximum minimum
  = Ok (mk_Target ps (map (arg_at desired) ps)
                     (map (arg_at minimum) ps)
                     (map (arg_at maximum) ps)).
Proof.
  intros Hps Hd Hma Hmi. unfold make_target. rewrite Hps. cbn [Py.bind].
  rewrite !to_series_covered by assumption. cbn [Py.bind].
  rewrite !align_same. reflexivity.
Qed.

Lemma getitem_labels_at_least (s : Series float) (keys : list label) (r : Series float) :
  getitem_labels s keys = Ok r -> (List.length keys <= List.length r)%nat.
Proof.
  revert r. induction keys as [|k rest IH]; simpl; intros r H; [lia|].
  destruct (filter (fun c => String.eqb (fst c) k) s) as [|c hs]; [discriminate|].
  destruct (getitem_labels s rest) as [r'|]; simpl in H; [|discriminate].
  injection H as <-. specialize (IH r' eq_refl).
  cbn [List.length]. rewrite length_app. unfold Series, label in *. lia.
Qed.

Lemma filter_head_label (s : Series float) (k : label) (c : label * float)
  (hs : Series float) :
  filter (fun c => String.eqb (fst c) k) s = c :: hs -> fst c = k.
Proof.
  intros H. assert (Hin : In c (filter (fun c => String.eqb (fst c) k) s))
    by (rewrite H; left; reflexivity).
  apply filter_In in Hin as [_ Hc]. now apply String.eqb_eq.
Qed.

(** Reading a series at a list of labels gives back these labels, one entry
    each, or else an index that holds a label twice. *)
Lemma getitem_labels_index_ne (s : Series float) (keys : list label) (r : Series float) :
  getitem_labels s keys = Ok r -> index r <> keys -> unique (index r) = false.
Proof.
  revert r. induction keys as [|k rest IH]; simpl; intros r H Hne.
  - injection H as <-. contradiction.
  - destruct (filter (fun c => String.eqb (fst c) k) s) as [|c hs] eqn:E; [discriminate|].
    destruct (getitem_labels s rest) as [r'|] eqn:E'; simpl in H; [|discriminate].
    injection H as <-.
    pose proof (filter_head_label _ _ _ _ E) as Hc.
    destruct hs as [|c2 hs].
    + unfold index in *. cbn [app map] in *. rewrite Hc in *.
      cbn [unique]. rewrite (IH r' eq_refl); [apply andb_false_r|].
      intros Heq. apply Hne. now rewrite Heq.
    + assert (Hc2 : fst c2 = k).
      { assert (Hin : In c2 (filter (fun c => String.eqb (fst c) k) s))
          by (rewrite E; right; left; reflexivity).
        apply filter_In in Hin as [_ Hc2]. now apply String.eqb_eq. }
      cbn [app index map unique mem]. unfold label in *.
      rewrite Hc, Hc2, String.eqb_refl.
      reflexivity.
Qed.

Lemma getitem_labels_single (s : Series float) (keys : list label) (r : Series float) :
  getitem_labels s keys = Ok r -> index r = keys ->
  Forall (fun k => List.length (filter (fun c => String.eqb (fst c) k) s) = 1%nat) keys.
Proof.
  revert r. induction keys as [|k rest IH]; simpl; intros r H Hix; [constructor|].
  destruct (filter (fun c => String.eqb (fst c) k) s) as [|c hs] eqn:E; [discriminate|].
  destruct (getitem_labels s rest) as [r'|] eqn:E'; simpl in H; [|discriminate].
  injection H as <-.
  pose proof (getitem_labels_at_least _ _ _ E') as Hlen.
  pose proof (f_equal (@List.length _) Hix) as Hl.
  unfold index in Hl. rewrite length_map in Hl. simpl in Hl.
  rewrite length_app in Hl.
  destruct hs as [|c2 hs]; [|simpl in Hl; unfold Series, label in *; lia].
  constructor; [now rewrite E|].
  apply (IH r' eq_refl). simpl in Hix. now injection Hix.
Qed.

Lemma repeated_label_hits (s : Series float) :
  unique (index s) = false ->
  exists l, In l (index s)
            /\ (2 <= List.length (filter (fun c => String.eqb (fst c) l) s))%nat.
Proof.
  induction s as [|[h v] t IH]; simpl; intros H; [discriminate|].
  apply andb_false_iff in H as [H|H].
  - apply negb_false_iff in H. exists h. split; [now left|].
    rewrite String.eqb_refl.
    destruct (mem_filter_cons h t H) as (c & hs & ->). simpl. lia.
  - destruct (IH H) as (l & Hin & Hl). exists l. split; [now right|].
    destruct (String.eqb h l); simpl; lia.
Qed.

Lemma align_repeated (s r : Series float) :
  unique (index s) = false ->
  getitem_labels s (index s) = Ok r ->
  align (index s) r = Raise ValueError.
Proof.
  intros Hu Hr. unfold align.
  destruct (list_eq_dec string_dec (index r) (index s)) as [Heq|Hne].
  - exfalso. destruct (repeated_label_hits s Hu) as (l & Hin & Hl).
    pose proof (getitem_labels_single _ _ _ Hr Heq) as HF.
    rewrite Forall_forall in HF. specialize (HF l Hin). lia.
  - now rewrite (getitem_labels_index_ne _ _ _ Hr Hne).
Qed.

(** X10: [make_target] returns no table when none of its arguments is a
    series - the call with the defaults is of this kind - which is a
    [RuntimeError], nor when the series it takes the parameter names from
    holds a name twice. *)
Theorem make_target_fails :
  (forall a b c,
      make_target (Scalar a) (Scalar b) (Scalar c)
      = Raise (RuntimeError "Could not extract parameter names from arguments"))
  /\ (forall desired maximum minimum ps,
         first_index [desired; maximum; minimum] = Ok ps ->
         unique ps = false ->
         exists e, make_target desired maximum minimum = Raise e).
Proof.
  split; [reflexivity|].
  intros desired maximum minimum ps Hps Hu. unfold make_target.
  rewrite Hps. cbn [Py.bind].
  destruct (to_series ps desired) as [d|e] eqn:Ed; [|eexists; reflexivity].
  destruct (to_series ps minimum) as [mi|e] eqn:Emi; [|eexists; reflexivity].
  destruct (to_series ps maximum) as [ma|e] eqn:Ema; [|eexists; reflexivity].
  cbn [Py.bind].
  destruct desired as [x|s].
  - destruct (align ps d) as [cd|e]; [|eexists; reflexivity]. cbn [Py.bind].
    destruct (align ps mi) as [cmi|e] eqn:Ami; [|eexists; reflexivity]. cbn [Py.bind].
    destruct maximum as [y|s].
    + destruct minimum as [z|s]; [discriminate|].
      simpl in Hps. injection Hps as <-. simpl in Emi.
      rewrite (align_repeated _ _ Hu Emi) in Ami. discriminate.
    + simpl in Hps. injection Hps as <-. simpl in Ema.
      rewrite (align_repeated _ _ Hu Ema). eexists; reflexivity.
  - simpl in Hps. injection Hps as <-. simpl in Ed.
    rewrite (align_repeated _ _ Hu Ed). eexists; reflexivity.
Qed.

End MakeTarget.

Lemma make_target_fails_witness :
  exists e,
    Solver.make_target
      (Solver.Scalar nan)
      (Solver.SeriesArg [("p1"%string, 1); ("p1"%string, 2)]%float)
      (Solver.Scalar nan)
    = Raise e.
Proof.
  apply (proj2 make_target_fails _ _ _ ["p1"; "p1"]%string).
  - reflexivity.
  - reflexivity.
Defined.

Lemma make_target_aligned_witness :
  Solver.make_target
    (Solver.SeriesArg [("p1"%string, 1); ("p2"%string, 2)]%float)
    (Solver.Scalar 5%float)
    (Solver.SeriesArg [("p2"%string, 0); ("p1"%string, -1)]%float)
  = Ok (Solver.mk_Target ["p1"; "p2"]%string [1; 2]%float [-1; 0]%float [5; 5]%float).
Proof.
  rewrite (make_target_aligned _ _ _ ["p1"; "p2"]%string).
  - reflexivity.
  - reflexivity.
  - split; [reflexivity | repeat constructor].
  - exact I.
  - split; [reflexivity | repeat constructor].
Defined.

(** ** A failed [ForwardingSolver.update_after_step] *)

Section ForwardingFailure.

Import Pd Solver.

Lemma indexer_covered (ix keys : list label) :
  Forall (fun l => mem l ix = true) keys ->
  exists ps, indexer ix keys = Ok ps /\ List.length ps = List.length keys.
Proof.
  induction 1 as [|k rest Hk _ (ps & IH & Hlen)]; simpl; [now exists []|].
  assert (Hp : exists p, position k ix = Some p).
  { clear - Hk. induction ix as [|h t IH]; simpl in *; [discriminate|].
    destruct (String.eqb k h); [eauto|].
    destruct (IH Hk) as [p ->]. simpl. eauto. }
  destruct Hp as [p ->]. rewrite IH. simpl. exists (p :: ps). simpl. auto.
Qed.

Lemma setitem_labels_covered (s voltages : Series float) :
  unique (index s) = true ->
  Forall (fun l => mem l (index s) = true) (index voltages) ->
  exists s', setitem_labels s (index voltages) (values voltages) = Ok s'.
Proof.
  intros Hu Hm. unfold setitem_labels. rewrite Hu.
  destruct (indexer_covered _ _ Hm) as (ps & -> & Hlen). simpl.
  unfold index, values in *. rewrite !length_map in *.
  rewrite Hlen, Nat.eqb_refl. eauto.
Qed.

Lemma getitem_labels_missing {V : Type} (s : Series V) (keys : list label) (p : label) :
  In p keys -> lookup p s = None -> getitem_labels s keys = Raise KeyError.
Proof.
  intros Hin Hp.
  assert (Hnil : filter (fun c => String.eqb (fst c) p) s = []).
  { clear - Hp. induction s as [|[h v] t IH]; simpl in *; [reflexivity|].
    rewrite String.eqb_sym. destruct (String.eqb p h); [discriminate | auto]. }
  induction keys as [|k rest IH]; simpl; [contradiction|].
  destruct (filter (fun c => String.eqb (fst c) k) s) as [|c hs] eqn:E;
    [reflexivity|].
  destruct Hin as [->|Hin]; [rewrite Hnil in E; discriminate|].
  rewrite (IH Hin). reflexivity.
Qed.

(** X11: [update_after_step] is not all-or-nothing. When the voltages name
    channels the solver knows but some measured parameter has no entry in
    [parameter_to_voltage], the call raises [KeyError], and by then the
    current position and the staged voltage both hold the applied voltages
    already. *)
Theorem forwarding_update_fails_late (s : ForwardingSolver.state)
  (voltages parameters variances : Series float) (p : label) :
  unique (index (ForwardingSolver.current_position s)) = true ->
  unique (index (ForwardingSolver.next_voltage s)) = true ->
  Forall (fun l => mem l (index (ForwardingSolver.current_position s)) = true)
         (index voltages) ->
  Forall (fun l => mem l (index (ForwardingSolver.next_voltage s)) = true)
         (index voltages) ->
  NoDup (index voltages) ->
  In p (index parameters) ->
  lookup p (ForwardingSolver.parameter_to_voltage s) = None ->
  let after := ForwardingSolver.update_after_step s voltages parameters variances in
  snd after = Raise KeyError
  /\ (forall l v, In (l, v) voltages ->
        lookup l (ForwardingSolver.current_position (fst after)) = Some v
        /\ lookup l (ForwardingSolver.suggest_next_voltage (fst after)) = Some v).
Proof.
  intros Hu1 Hu2 Hm1 Hm2 Hnd Hin Hp. unfold ForwardingSolver.update_after_step.
  destruct (setitem_labels_covered _ voltages Hu1 Hm1) as [cur Ecur].
  destruct (setitem_labels_covered _ voltages Hu2 Hm2) as [nv Env].
  rewrite Ecur, Env, (getitem_labels_missing _ _ p Hin Hp). cbn [fst snd].
  split; [reflexivity|].
  intros l v Hl. unfold ForwardingSolver.suggest_next_voltage. cbn.
  destruct (setitem_labels_spec _ _ _ _ Ecur Hnd) as (_ & _ & Ck & _).
  destruct (setitem_labels_spec _ _ _ _ Env Hnd) as (_ & _ & Nk & _).
  destruct (in_series_nth _ _ _ Hl) as (k & Hk1 & Hk2). eauto.
Qed.

End ForwardingFailure.

Lemma forwarding_update_fails_late_witness :
  let after := Solver.ForwardingSolver.update_after_step example_forwarding
                 [("gate_Y"%string, 1%float)] [("param_B"%string, 5%float)] [] in
  snd after = Raise KeyError
  /\ Pd.lookup "gate_Y"%string (Solver.ForwardingSolver.current_position (fst after))
     = Some 1%float
  /\ Pd.lookup "gate_Y"%string (Solver.ForwardingSolver.suggest_next_voltage (fst after))
     = Some 1%float.
Proof.
  destruct (forwarding_update_fails_late example_forwarding
              [("gate_Y"%string, 1%float)] [("param_B"%string, 5%float)] []
              "param_B"%string) as [H1 H2].
  - reflexivity.
  - reflexivity.
  - repeat constructor.
  - repeat constructor.
  - repeat constructor. simpl. tauto.
  - left. reflexivity.
  - reflexivity.
  - split; [exact H1|]. apply H2. left. reflexivity.
Defined.

(** ** [Analyzer.load_gradient_group] and the console *)

Section GradientGroup.

Import H5 Analyzer.
Local Open Scope string_scope.

Lemma load_parameter_names_root (n : Z) (w : world) :
  root_group (self (snd (load_parameter_names n w))) = root_group (self w).
Proof.
  unfold load_parameter_names, mbind, get_self, lift, set_self, print.
  repeat match goal with
         | |- context [match ?x with _ => _ end] => destruct x
         end; reflexivity.
Qed.

Lemma load_tune_run_group_root (n : Z) (w : world) :
  root_group (self (snd (load_tune_run_group n w))) = root_group (self w).
Proof.
  unfold load_tune_run_group, mbind at 1 2, get_self, lift.
  destruct (contains _ _) as [[|]|e]; [|reflexivity|reflexivity].
  unfold mbind at 1.
  destruct (getitem _ _) as [g|e]; [|reflexivity].
  unfold mbind, ret.
  pose proof (load_parameter_names_root n w) as H.
  destruct (load_parameter_names n w) as [[u|e] w1]; exact H.
Qed.

(** The group [load_tune_run_group] returns is the member [tunerun_<n>] of
    the root group. *)
Lemma load_tune_run_group_ok (n : Z) (w w1 : world) (g : node) :
  load_tune_run_group n w = (Ok g, w1) ->
  resolve (root_group (self w)) [tunerun n] = Some g.
Proof.
  unfold load_tune_run_group, mbind at 1 2, get_self, lift.
  destruct (contains _ _) as [[|]|e]; [|discriminate|discriminate].
  unfold mbind at 1.
  destruct (getitem (root_group (self w)) [tunerun n]) as [g'|e] eqn:E;
    [|discriminate].
  unfold mbind, ret.
  destruct (load_parameter_names n w) as [[u|e] w2]; [|discriminate].
  intros H. injection H as <- _.
  unfold getitem in E. destruct (root_group (self w)); [|discriminate].
  destruct (resolve _ _); [now injection E as -> | discriminate].
Qed.

Lemma resolve_step (root g sub : node) (a b : string) :
  resolve root [a] = Some g -> getitem g [b] = Ok sub ->
  resolve root [a; b] = Some sub.
Proof.
  simpl. destruct (member root a) as [n|]; [|discriminate].
  intros H. injection H as ->.
  destruct g; simpl; [|discriminate].
  destruct (assoc b _); [now intros H; injection H as -> | discriminate].
Qed.

Lemma load_gradient_group_at_sound (k : Z) (depth : nat) :
  forall n w g w',
    load_gradient_group_at depth k n w = (Ok g, w') ->
    exists m consumed,
      (m = n \/ 0 <= m < n)%Z
      /\ resolve (root_group (self w)) [tunerun m; gradient_setup k] = Some g
      /\ stdin w = (consumed ++ stdin w')%list
      /\ Z.of_nat (count_occ string_dec consumed "Y") = (n - m)%Z
      /\ ~ In "N" consumed.
Proof.
  induction depth as [|depth IH]; intros n w g w' H;
    rewrite load_gradient_group_at_eq in H;
    apply mbind_ok in H; destruct H as (trg & w1 & Htrg & H);
    pose proof (load_tune_run_group_ok _ _ _ _ Htrg) as Hres;
    assert (Hs1 : stdin w1 = stdin w)
      by (rewrite <- (keeps_stdin_load_tune_run_group n w), Htrg; reflexivity);
    assert (Hr1 : root_group (self w1) = root_group (self w))
      by (rewrite <- (load_tune_run_group_root n w), Htrg; reflexivity);
    apply mbind_ok in H; destruct H as (present & w2 & Hpresent & H);
    apply lift_ok in Hpresent; destruct Hpresent as [Hpresent ->];
    (destruct present; cbn [negb] in H;
     [apply lift_ok in H; destruct H as [Hget ->];
      exists n, []; rewrite Z.sub_diag;
      split; [now left|];
      split; [exact (resolve_step _ _ _ _ _ Hres Hget)|];
      split; [now rewrite Hs1|]; split; [reflexivity | intros []]
     |]);
    (destruct (n >? 0)%Z eqn:E;
     [apply Z.gtb_lt in E
     |apply mbind_ok in H; destruct H as (u & w3 & _ & H); discriminate]);
    apply mbind_ok in H; destruct H as (u & w3 & Hprint & H);
    apply mbind_ok in H; destruct H as (line & w4 & Hinput & H);
    assert (Hr4 : root_group (self w4) = root_group (self w))
      by (rewrite <- Hr1; clear - Hprint Hinput;
          unfold print in Hprint; injection Hprint as _ <-;
          unfold input in Hinput; simpl in Hinput;
          destruct (stdin w1); [discriminate|];
          injection Hinput as _ <-; reflexivity);
    apply print_stdin in Hprint; apply input_ok in Hinput;
    (destruct (String.eqb_spec line "Y") as [->|HY];
     [|destruct (String.eqb_spec line "N") as [->|HN];
       [apply mbind_ok in H; destruct H as (u' & w5 & _ & H); discriminate|]]);
    apply mbind_ok in H; destruct H as (u' & w5 & Hprint' & H);
    try discriminate;
    assert (Hr5 : root_group (self w5) = root_group (self w))
      by (rewrite <- Hr4; clear - Hprint';
          unfold print in Hprint'; injection Hprint' as _ <-; reflexivity);
    apply print_stdin in Hprint';
    apply IH in H; destruct H as (m & consumed & Hm & Hg & Hc & Hy & Hn);
    rewrite Hr5 in Hg.
  - exists m, ("Y" :: consumed). split; [right; lia|]. split; [exact Hg|].
    split; [rewrite <- Hs1, <- Hprint, Hinput, <- Hprint', Hc; reflexivity|].
    split.
    + rewrite count_occ_cons_eq by reflexivity. lia.
    + intros [Habs|Habs]; [discriminate | contradiction].
  - exists m, (line :: consumed). split; [exact Hm|]. split; [exact Hg|].
    split; [rewrite <- Hs1, <- Hprint, Hinput, <- Hprint', Hc; reflexivity|].
    split.
    + rewrite count_occ_cons_neq by congruence. exact Hy.
    + intros [Habs|Habs]; [congruence | contradiction].
Qed.

(** X12: a group that [load_gradient_group(k, n)] returns is the group
    [gradient_setup_<k>] of a run [m] of the file with [m = n], or
    [0 <= m < n] after a fallback. The call takes its answers from the head
    of the console input: [n - m] of them are [Y], one for every run it went
    back, and none is [N]. *)
Theorem load_gradient_group_sound (k n : Z) (w w' : world) (g : node) :
  load_gradient_group k n w = (Ok g, w') ->
  exists m consumed,
    (m = n \/ 0 <= m < n)%Z
    /\ resolve (root_group (self w)) [tunerun m; gradient_setup k] = Some g
    /\ stdin w = (consumed ++ stdin w')%list
    /\ Z.of_nat (count_occ string_dec consumed "Y") = (n - m)%Z
    /\ ~ In "N" consumed.
Proof.
  unfold load_gradient_group. apply load_gradient_group_at_sound.
Qed.

(** One round of [load_gradient_group] on a run that lacks the group. *)
Lemma load_gradient_group_round (depth : nat) (k n : Z) (w w1 : world) (trg : node) :
  load_tune_run_group n w = (Ok trg, w1) ->
  contains trg [gradient_setup k] = Ok false ->
  load_gradient_group_at depth k n w
  = if (n >? 0)%Z then
      match stdin w with
      | [] => (Raise EOFError,
               after_lines w1 [no_gradient_setup k n; fallback_question] [])
      | line :: rest =>
          if String.eqb line "Y" then
            let w2 := after_lines w1 [no_gradient_setup k n; fallback_question;
                                      "Gradient will be loaded from a previous run!"]
                                  rest in
            match depth with
            | S d => load_gradient_group_at d k (n - 1) w2
            | O => (Raise RecursionError, w2)
            end
          else if String.eqb line "N" then
            (Raise KeyError,
             after_lines w1 [no_gradient_setup k n; fallback_question;
                             "No gradient could be loaded!"] rest)
          else
            let w2 := after_lines w1 [no_gradient_setup k n; fallback_question;
                                      "This was a yes or no question. Answer with Y or N!"]
                                  rest in
            match depth with
            | S d => load_gradient_group_at d k n w2
            | O => (Raise RecursionError, w2)
            end
      end
    else (Raise KeyError, after_lines w1 [no_gradient_setup k n] (stdin w)).
Proof.
  intros Hg Hc.
  assert (Hs1 : stdin w1 = stdin w)
    by (rewrite <- (keeps_stdin_load_tune_run_group n w), Hg; reflexivity).
  rewrite load_gradient_group_at_eq, (mbind_ok_eq _ _ _ _ _ Hg).
  unfold gradient_setup in Hc. unfold mbind at 1, lift. rewrite Hc. cbn [negb].
  unfold after_lines, fallback_question.
  destruct (n >? 0)%Z.
  - unfold mbind at 1, print. unfold mbind at 1, input. cbn [stdin stdout self].
    rewrite Hs1. destruct (stdin w) as [|line rest].
    + rewrite <- app_assoc. reflexivity.
    + destruct (String.eqb line "Y").
      * unfold mbind, print, raise. cbn [stdin stdout self].
        rewrite <- !app_assoc. destruct depth; reflexivity.
      * destruct (String.eqb line "N").
        -- unfold mbind, print, raise. cbn [stdin stdout self].
           rewrite <- !app_assoc. reflexivity.
        -- unfold mbind, print, raise. cbn [stdin stdout self].
           rewrite <- !app_assoc. destruct depth; reflexivity.
  - unfold mbind, print, raise. now rewrite Hs1.
Qed.

(** X13: [load_gradient_group(k, n)] does not turn to the console when run
    [n] holds [gradient_setup_<k>] - it returns that group - nor when the
    group is missing and [n <= 0]: then it prints that there is no such
    gradient and raises [KeyError]. *)
Theorem load_gradient_group_without_console (k n : Z) (w w1 : world) (trg : node) :
  load_tune_run_group n w = (Ok trg, w1) ->
  (contains trg [gradient_setup k] = Ok true ->
   exists g, resolve trg [gradient_setup k] = Some g
             /\ load_gradient_group k n w = (Ok g, w1))
  /\ (contains trg [gradient_setup k] = Ok false -> (n <= 0)%Z ->
      load_gradient_group k n w
      = (Raise KeyError, after_lines w1 [no_gradient_setup k n] (stdin w))).
Proof.
  intros Hg. split.
  - intros Hc. unfold load_gradient_group.
    rewrite load_gradient_group_at_eq, (mbind_ok_eq _ _ _ _ _ Hg).
    unfold gradient_setup in *. unfold mbind, lift. rewrite Hc. cbn [negb].
    destruct trg as [a ms|a v]; [|discriminate]. unfold contains in Hc.
    unfold getitem.
    destruct (resolve (Group a ms) _) as [g|]; [eauto | discriminate].
  - intros Hc Hn. unfold load_gradient_group.
    rewrite (load_gradient_group_round _ _ _ _ _ _ Hg Hc).
    now replace (n >? 0)%Z with false
      by (symmetry; rewrite Z.gtb_ltb; apply Z.ltb_ge; lia).
Qed.

(** X14: when run [n > 0] lacks [gradient_setup_<k>], [load_gradient_group]
    prints that and asks whether to fall back. With no line left to read the
    call ends in [EOFError]; the answer [N] ends it in [KeyError]; the answer
    [Y] continues as the call for run [n - 1]; any other line is used up and
    the same question comes again for run [n]. *)
Theorem load_gradient_group_answers (k n : Z) (w w1 : world) (trg : node) :
  load_tune_run_group n w = (Ok trg, w1) ->
  contains trg [gradient_setup k] = Ok false ->
  (0 < n)%Z ->
  load_gradient_group k n w
  = match stdin w with
    | [] => (Raise EOFError,
             after_lines w1 [no_gradient_setup k n; fallback_question] [])
    | line :: rest =>
        if String.eqb line "Y" then
          load_gradient_group k (n - 1)
            (after_lines w1 [no_gradient_setup k n; fallback_question;
                             "Gradient will be loaded from a previous run!"] rest)
        else if String.eqb line "N" then
          (Raise KeyError,
           after_lines w1 [no_gradient_setup k n; fallback_question;
                           "No gradient could be loaded!"] rest)
        else
          load_gradient_group k n
            (after_lines w1 [no_gradient_setup k n; fallback_question;
                             "This was a yes or no question. Answer with Y or N!"]
                         rest)
    end.
Proof.
  intros Hg Hc Hn. unfold load_gradient_group at 1.
  rewrite (load_gradient_group_round _ _ _ _ _ _ Hg Hc).
  replace (n >? 0)%Z with true by (symmetry; rewrite Z.gtb_ltb; apply Z.ltb_lt; lia).
  destruct (stdin w) as [|line rest]; [reflexivity|].
  cbn [List.length Nat.add].
  destruct (String.eqb line "Y").
  - cbv zeta. apply load_gradient_group_enough. unfold after_lines. cbn [stdin]. lia.
  - destruct (String.eqb line "N"); [reflexivity|].
    cbv zeta. apply load_gradient_group_enough. unfold after_lines. cbn [stdin]. lia.
Qed.

End GradientGroup.

Lemma load_gradient_group_without_console_witness :
  fst (Analyzer.load_gradient_group 2 0 (fallback_world ["left"%string]))
  = Raise KeyError
  /\ Analyzer.stdin (snd (Analyzer.load_gradient_group 2 0 (fallback_world ["left"%string])))
     = ["left"%string].
Proof.
  rewrite (proj2 (load_gradient_group_without_console 2 0
                    (fallback_world ["left"%string])
                    (snd (Analyzer.load_tune_run_group 0 (fallback_world ["left"%string])))
                    (H5.Group [] [("gradient_setup_1"%string, setup_group)])
                    eq_refl) eq_refl).
  - split; reflexivity.
  - lia.
Defined.

Lemma load_gradient_group_answers_witness :
  fst (Analyzer.load_gradient_group 1 1 (fallback_world ["maybe"; "N"; "left"]%string))
  = Raise KeyError
  /\ Analyzer.stdin
       (snd (Analyzer.load_gradient_group 1 1
               (fallback_world ["maybe"; "N"; "left"]%string)))
     = ["left"%string].
Proof.
  rewrite (load_gradient_group_answers 1 1
             (fallback_world ["maybe"; "N"; "left"]%string)
             (snd (Analyzer.load_tune_run_group 1
                     (fallback_world ["maybe"; "N"; "left"]%string)))
             (H5.Group [] []) eq_refl eq_refl).
  - split; reflexivity.
  - lia.
Defined.

Lemma load_gradient_group_sound_witness :
  exists m consumed,
    (m = 1 \/ 0 <= m < 1)%Z
    /\ H5.resolve fallback_file [Analyzer.tunerun m; gradient_setup 1] = Some setup_group
    /\ ["maybe"; "Y"; "left"]%string = (consumed ++ ["left"]%string)%list
    /\ Z.of_nat (count_occ string_dec consumed "Y"%string) = (1 - m)%Z
    /\ ~ In "N"%string consumed.
Proof.
  apply (load_gradient_group_sound 1 1 (fallback_world ["maybe"; "Y"; "left"]%string)
           (snd (Analyzer.load_gradient_group 1 1
                   (fallback_world ["maybe"; "Y"; "left"]%string)))
           setup_group).
  vm_compute. reflexivity.
Defined.

(** ** [Analyzer.load_evaluator_names] *)

Section EvaluatorNames.

Import H5 Analyzer.
Local Open Scope string_scope.

Lemma assoc_in {A : Type} (ms : list (string * A)) (k : string) (n : A) :
  NoDup (map fst ms) -> In (k, n) ms -> assoc k ms = Some n.
Proof.
  induction ms as [|[h x] t IH]; simpl; intros Hnd Hin; [contradiction|].
  inversion Hnd as [|? ? Hh Ht]; subst.
  destruct Hin as [Heq|Hin].
  - injection Heq as -> ->. now rewrite String.eqb_refl.
  - destruct (String.eqb_spec k h) as [->|Hne]; [|auto].
    exfalso. apply Hh. now apply (in_map fst) in Hin.
Qed.

Lemma evaluators_in_members (a : list (string * attr)) (ms : list (string * node)) :
  NoDup (map fst ms) ->
  forall sub, incl sub ms ->
    evaluators_in (Group a ms) (map fst sub) = Ok (evaluator_members sub).
Proof.
  intros Hnd. induction sub as [|[k n] rest IH]; intros Hincl; [reflexivity|].
  cbn [map fst evaluators_in]. unfold getitem. cbn [resolve member].
  rewrite (assoc_in ms k n Hnd) by (apply Hincl; now left).
  cbn [Py.bind]. rewrite IH by (intros x Hx; apply Hincl; now right).
  cbn [Py.bind]. unfold evaluator_members. cbn [filter fst snd].
  destruct (is_dataset n && contains_substring "evaluator_" k); reflexivity.
Qed.

Lemma resolve_nonempty (g x : node) (name : string) (rest : list string) :
  resolve g (name :: rest) = Some x ->
  contains g (name :: rest) = Ok true /\ getitem g (name :: rest) = Ok x.
Proof.
  intros H. destruct g as [a ms|a v]; [|discriminate].
  unfold contains, getitem. now rewrite H.
Qed.

(** X15: when run [n] holds [tune_sequence/step_0], [load_evaluator_names]
    returns, in the order of the file, the members of that step that are
    datasets and carry [evaluator_] in their name - a subgroup of such a
    name, or a dataset of another name, is left out - and stores this list
    as the analyzer's evaluator names, changing nothing else. *)
Theorem load_evaluator_names_first_step (n : Z) (w w1 : world) (trg : node)
  (a : list (string * attr)) (ms : list (string * node)) :
  load_tune_run_group n w = (Ok trg, w1) ->
  resolve trg ["tune_sequence"; "step_0"] = Some (Group a ms) ->
  NoDup (map fst ms) ->
  load_evaluator_names n w
  = (Ok (evaluator_members ms), with_evaluator_names w1 (evaluator_members ms)).
Proof.
  intros Hg Hres Hnd. destruct (resolve_nonempty _ _ _ _ Hres) as [Hc Hget].
  unfold load_evaluator_names. rewrite (mbind_ok_eq _ _ _ _ _ Hg).
  unfold mbind, lift, get_self, set_self, ret. rewrite Hc, Hget.
  cbn [keys Py.bind].
  rewrite (evaluators_in_members a ms Hnd ms) by (intros x Hx; exact Hx).
  reflexivity.
Qed.

End EvaluatorNames.

Lemma load_evaluator_names_first_step_witness :
  Analyzer.load_evaluator_names 1 sequence_world
  = (Ok ["evaluator_A"%string],
     with_evaluator_names (snd (Analyzer.load_tune_run_group 1 sequence_world))
                          ["evaluator_A"%string]).
Proof.
  apply (load_evaluator_names_first_step 1 sequence_world
           (snd (Analyzer.load_tune_run_group 1 sequence_world))
           (H5.Group []
              [("tune_sequence"%string,
                H5.Group []
                  [("parameter_names"%string,
                    H5.Dataset [] (H5.Names ["parameter_x"%string]));
                   ("step_0"%string, first_step)])])
           []
           [("evaluator_A"%string,
             H5.Dataset [("parameter_x"%string, H5.AFloat 1%float)]
                        (H5.Floats (Np.array1 [1; 2]%float)));
            ("evaluator_notes"%string, H5.Group [] []);
            ("gate_voltages"%string, H5.Dataset [] (H5.Floats (Np.array1 [0; 0]%float)))]).
  - reflexivity.
  - reflexivity.
  - repeat constructor; simpl; intuition discriminate.
Defined.

(** ** [Analyzer.load_gradient_pd] *)

Section GradientTable.

Import H5 Analyzer.
Local Open Scope string_scope.

Variable frame : Type.
Variable DataFrame :
  option dataset_value -> option dataset_value -> list string -> result frame.

Lemma contains_below (root trg : node) (a b : string) (present : bool) :
  resolve root [a] = Some trg ->
  contains trg [b] = Ok present ->
  contains root [a; b] = Ok present.
Proof.
  intros Hr Hc. destruct root as [ra rms|ra rv]; [|discriminate].
  unfold contains. cbn [resolve] in *.
  destruct (member (Group ra rms) a) as [x|]; [|discriminate].
  injection Hr as ->. destruct trg as [ta tms|ta tv]; [|discriminate].
  unfold contains in Hc. cbn [resolve] in Hc. exact Hc.
Qed.

(** X16: [load_gradient_pd(k, n)] builds no table for a run [n] that has a
    tune sequence but neither [gradient_setup_<k>] nor [step_<k>]: the
    missing step is only announced by a printed line, [load_gradient_tunerun]
    hands back [None], and unpacking that is a [TypeError] - whatever the
    table constructor would do. *)
Theorem load_gradient_pd_missing_step (k n : Z) (w w1 : world) (trg seq : node) :
  load_tune_run_group n w = (Ok trg, w1) ->
  contains trg [gradient_setup k] = Ok false ->
  resolve trg ["tune_sequence"] = Some seq ->
  contains seq ["step_" ++ str k] = Ok false ->
  load_gradient_pd frame DataFrame k n w
  = (Raise TypeError,
     after_lines w1 ["There is no group step " ++ str k
                     ++ " in tune run number " ++ str n] (stdin w)).
Proof.
  intros Hg Hsetup Hseq Hstep.
  pose proof (load_tune_run_group_ok _ _ _ _ Hg) as Hres.
  assert (Hs1 : stdin w1 = stdin w)
    by (rewrite <- (keeps_stdin_load_tune_run_group n w), Hg; reflexivity).
  destruct (resolve_nonempty _ _ _ _ Hseq) as [Hc Hget].
  unfold load_gradient_pd. unfold mbind at 1 2 3, get_self, lift.
  unfold gradient_setup in Hsetup.
  rewrite (contains_below _ _ _ _ _ Hres Hsetup).
  unfold mbind at 1. rewrite (contains_below _ _ _ _ _ Hres Hc).
  unfold mbind at 1. unfold load_gradient_tunerun.
  rewrite (mbind_ok_eq _ _ _ _ _ Hg).
  unfold mbind, lift, print, ret. rewrite Hget, Hstep. cbn.
  unfold after_lines. now rewrite Hs1.
Qed.

End GradientTable.

Lemma load_gradient_pd_missing_step_witness :
  fst (Analyzer.load_gradient_pd unit (fun _ _ _ => Ok tt) 5 1 sequence_world)
  = Raise TypeError.
Proof.
  rewrite (load_gradient_pd_missing_step unit (fun _ _ _ => Ok tt) 5 1 sequence_world
             (snd (Analyzer.load_tune_run_group 1 sequence_world))
             (H5.Group []
                [("tune_sequence"%string,
                  H5.Group []
                    [("parameter_names"%string,
                      H5.Dataset [] (H5.Names ["parameter_x"%string]));
                     ("step_0"%string, first_step)])])
             (H5.Group []
                [("parameter_names"%string,
                  H5.Dataset [] (H5.Names ["parameter_x"%string]));
                 ("step_0"%string, first_step)])
             eq_refl eq_refl eq_refl eq_refl).
  reflexivity.
Defined.

(** ** [Analyzer.compute_gradient_from_raw_data] *)

Section ComputeGradient.

Import H5 Analyzer.

(** X17: [compute_gradient_from_raw_data] never returns. It loads the raw
    measurements first; if that fails, so does the call, with the same
    exception. If it succeeds, six values come back and are unpacked into
    four names, which is a [ValueError]: the loops below are never
    reached. *)
Theorem compute_gradient_from_raw_data_never_returns {F : Type} (fit_functions : F)
  (evaluators : list string) (k n : Z) (w : world) :
  compute_gradient_from_raw_data fit_functions evaluators k n w
  = match load_raw_measurement_gradient_calculation k n w with
    | (Ok _, w') => (Raise ValueError, w')
    | (Raise e, w') => (Raise e, w')
    end.
Proof.
  unfold compute_gradient_from_raw_data. unfold mbind at 1.
  destruct (load_raw_measurement_gradient_calculation k n w) as [[r|e] w'];
    [|reflexivity].
  destruct r as [[t n_repetitions] delta_u]. reflexivity.
Qed.

End ComputeGradient.

(** ** What the loaders leave alone *)

Section KeepsFile.

Import H5 Analyzer.
Local Open Scope string_scope.

Lemma keeps_file_bind {A B : Type} (m : M A) (k : A -> M B) :
  keeps_file m -> (forall a, keeps_file (k a)) -> keeps_file (mbind m k).
Proof.
  intros Hm Hk w. unfold mbind. specialize (Hm w).
  destruct (m w) as [[a|e] w1]; simpl in *; [|assumption].
  now rewrite Hk.
Qed.

Lemma keeps_file_lift {A : Type} (r : result A) : keeps_file (lift r).
Proof. intros w. reflexivity. Qed.

Lemma keeps_file_print (line : string) : keeps_file (print line).
Proof. intros w. reflexivity. Qed.

Lemma keeps_file_input (prompt : string) : keeps_file (input prompt).
Proof. intros w. unfold input. destruct (stdin w); reflexivity. Qed.

Lemma keeps_file_raise {A : Type} (e : exn) : keeps_file (@raise A e).
Proof. intros w. reflexivity. Qed.

Lemma keeps_file_ret {A : Type} (a : A) : keeps_file (ret a).
Proof. intros w. reflexivity. Qed.

Lemma keeps_file_get_self : keeps_file get_self.
Proof. intros w. reflexivity. Qed.

Ltac keeps_step :=
  first [ apply keeps_file_lift | apply keeps_file_print | apply keeps_file_input
        | apply keeps_file_raise | apply keeps_file_ret | apply keeps_file_get_self ].

Lemma keeps_file_load_parameter_names (n : Z) : keeps_file (load_parameter_names n).
Proof.
  intros w.
  unfold load_parameter_names, mbind, get_self, lift, set_self, print.
  repeat match goal with
         | |- context [match ?x with _ => _ end] => destruct x
         end; reflexivity.
Qed.

Lemma keeps_file_load_tune_run_group (n : Z) : keeps_file (load_tune_run_group n).
Proof.
  unfold load_tune_run_group.
  apply keeps_file_bind; [keeps_step | intros a].
  apply keeps_file_bind; [keeps_step | intros [|]].
  - apply keeps_file_bind; [keeps_step | intros g].
    apply keeps_file_bind; [apply keeps_file_load_parameter_names | intros _].
    keeps_step.
  - apply keeps_file_bind; [keeps_step | intros _]. keeps_step.
Qed.

Lemma keeps_file_load_cd_gradient_at (k : Z) (depth : nat) :
  forall n, keeps_file (load_cd_gradient_at depth k n).
Proof.
  induction depth as [|depth IH]; intros n; cbn [load_cd_gradient_at];
    (apply keeps_file_bind; [apply keeps_file_load_tune_run_group | intros g]);
    (apply keeps_file_bind; [keeps_step | intros present]);
    (apply keeps_file_bind;
     [|intros _; apply keeps_file_bind; [keeps_step | intros cd; keeps_step]]);
    (destruct (negb present); [|keeps_step]);
    (destruct (n >? 0)%Z; [|keeps_step]);
    (apply keeps_file_bind; [keeps_step | intros _]).
  - keeps_step.
  - apply keeps_file_bind; [apply IH | intros _; keeps_step].
Qed.

Lemma keeps_file_load_gradient_group_at (k : Z) (depth : nat) :
  forall n, keeps_file (load_gradient_group_at depth k n).
Proof.
  induction depth as [|depth IH]; intros n; cbn [load_gradient_group_at];
    (apply keeps_file_bind; [apply keeps_file_load_tune_run_group | intros g]);
    (apply keeps_file_bind; [keeps_step | intros present]);
    (destruct (negb present); [|keeps_step]);
    (destruct (n >? 0)%Z;
     [|apply keeps_file_bind; [keeps_step | intros _; keeps_step]]);
    (apply keeps_file_bind; [keeps_step | intros _]);
    (apply keeps_file_bind; [keeps_step | intros decision]);
    (destruct (String.eqb decision "Y");
     [|destruct (String.eqb decision "N");
       [apply keeps_file_bind; [keeps_step | intros _; keeps_step]|]]);
    (apply keeps_file_bind; [keeps_step | intros _]);
    first [keeps_step | apply IH].
Qed.

Lemma keeps_file_load_gradient_group (k n : Z) : keeps_file (load_gradient_group k n).
Proof.
  intros w. unfold load_gradient_group. apply keeps_file_load_gradient_group_at.
Qed.

Lemma keeps_file_load_evaluator_names (n : Z) : keeps_file (load_evaluator_names n).
Proof.
  unfold load_evaluator_names.
  apply keeps_file_bind; [apply keeps_file_load_tune_run_group | intros g].
  apply keeps_file_bind; [keeps_step | intros has_step].
  apply keeps_file_bind.
  - destruct has_step; [keeps_step|].
    apply keeps_file_bind; [apply keeps_file_load_gradient_group | intros fg].
    apply keeps_file_bind; [keeps_step | intros a].
    apply keeps_file_bind; [keeps_step | intros gate]. keeps_step.
  - intros run_group.
    apply keeps_file_bind; [keeps_step | intros names].
    intros w. reflexivity.
Qed.

Lemma keeps_file_load_raw_measurement_gradient_calculation (k n : Z) :
  keeps_file (load_raw_measurement_gradient_calculation k n).
Proof.
  unfold load_raw_measurement_gradient_calculation.
  apply keeps_file_bind; [apply keeps_file_load_evaluator_names | intros _].
  apply keeps_file_bind; [apply keeps_file_load_gradient_group | intros g].
  apply keeps_file_bind; [keeps_step | intros delta_u].
  apply keeps_file_bind; [keeps_step | intros n_repetitions].
  apply keeps_file_bind; [keeps_step | intros a].
  destruct (evaluator_names a) as [evaluators|]; [|keeps_step].
  destruct n_repetitions; try keeps_step.
  apply keeps_file_bind; [keeps_step | intros t]. keeps_step.
Qed.

(** X18: whatever the file holds and however the call ends, the loaders
    leave the opened file, the gate names and the tunable gate names of the
    analyzer as [load_file] has set them; they only ever replace the
    parameter names and the evaluator names. *)
Theorem loaders_keep_file :
  (forall n, keeps_file (load_parameter_names n))
  /\ (forall n, keeps_file (load_tune_run_group n))
  /\ (forall k n, keeps_file (load_cd_gradient k n))
  /\ (forall k n, keeps_file (load_gradient_group k n))
  /\ (forall k n, keeps_file (load_gradient_setup k n))
  /\ (forall k n, keeps_file (load_gradient_tunerun k n))
  /\ (forall n, keeps_file (load_evaluator_names n))
  /\ (forall k n, keeps_file (load_raw_measurement_gradient_calculation k n)).
Proof.
  split; [exact keeps_file_load_parameter_names|].
  split; [exact keeps_file_load_tune_run_group|].
  split; [intros k n; apply keeps_file_load_cd_gradient_at|].
  split; [exact keeps_file_load_gradient_group|].
  split.
  { intros k n. unfold load_gradient_setup.
    apply keeps_file_bind; [apply keeps_file_load_gradient_group | intros g].
    keeps_step. }
  split.
  { intros k n. unfold load_gradient_tunerun.
    apply keeps_file_bind; [apply keeps_file_load_tune_run_group | intros g].
    apply keeps_file_bind; [keeps_step | intros seq].
    apply keeps_file_bind; [keeps_step | intros [|]].
    - apply keeps_file_bind; [keeps_step | intros sg].
      apply keeps_file_bind; [keeps_step | intros t]. keeps_step.
    - apply keeps_file_bind; [keeps_step | intros _]. keeps_step. }
  split; [exact keeps_file_load_evaluator_names|].
  exact keeps_file_load_raw_measurement_gradient_calculation.
Qed.

End KeepsFile.

(** ** [NewtonSolver.suggest_next_voltage] and the labels *)

Section NewtonLabels.

Import Pd Solver.

Variable lstsq_solve : list (list float) -> list float -> result (list float).

Lemma index_combine {V : Type} (ix : list label) (vs : list V) :
  List.length vs = List.length ix -> index (combine ix vs) = ix.
Proof.
  revert vs. induction ix as [|l ix IH]; intros [|v vs] H; try discriminate;
    [reflexivity|].
  simpl in *. f_equal. apply IH. lia.
Qed.

Lemma mem_in (l : label) (ls : list label) : mem l ls = true <-> In l ls.
Proof.
  induction ls as [|h t IH]; simpl; [split; [discriminate | contradiction]|].
  rewrite orb_true_iff, IH.
  split; (intros [H|H]; [left | now right]).
  - now apply String.eqb_eq in H.
  - apply String.eqb_eq. now subst.
Qed.

Lemma length_insert_sorted (l : label) (ls : list label) :
  List.length (insert_sorted l ls) = S (List.length ls).
Proof.
  induction ls as [|h t IH]; simpl; [reflexivity|].
  destruct (String.leb l h); simpl; [reflexivity | now rewrite IH].
Qed.

Lemma length_sort_labels (ls : list label) :
  List.length (sort_labels ls) = List.length ls.
Proof.
  induction ls as [|h t IH]; simpl; [reflexivity|].
  unfold sort_labels in *. simpl. now rewrite length_insert_sorted, IH.
Qed.

Lemma length_union_foreign (a b : list label) (l : label) :
  In l b -> ~ In l a -> (List.length a < List.length (union a b))%nat.
Proof.
  intros Hb Ha. unfold union. rewrite length_sort_labels, length_app.
  assert (Hin : In l (filter (fun l => negb (mem l a)) b)).
  { apply filter_In. split; [assumption|]. apply negb_true_iff.
    destruct (mem l a) eqn:E; [|reflexivity]. apply mem_in in E. contradiction. }
  destruct (filter _ b); [contradiction | simpl; lia].
Qed.

Lemma jacobian_rows (s : NewtonSolver.state) (jac : list (list float)) :
  NewtonSolver.jacobian s = Ok jac ->
  List.length jac = List.length (NewtonSolver.gradient_estimators s).
Proof.
  unfold NewtonSolver.jacobian. destruct (forallb _ _); [|discriminate].
  intros H. injection H as <-. apply length_map.
Qed.

(** X19: [suggest_next_voltage] cannot answer when the current position
    carries a label that is not a parameter of the target - a gate name,
    say. The subtraction [desired - current_position] then runs over the
    union of the labels, so the right-hand side is longer than the Jacobian
    has rows, and the least-squares call raises [LinAlgError] (unless the
    Jacobian could not be built in the first place). *)
Theorem newton_foreign_label_raises (s : NewtonSolver.state) (pos : Series float)
  (l : label) :
  NewtonSolver.current_position s = Some pos ->
  quiet (NewtonSolver.gradient_estimators s) ->
  target_len (NewtonSolver.target s) = List.length (NewtonSolver.gradient_estimators s) ->
  List.length (t_desired (NewtonSolver.target s)) = target_len (NewtonSolver.target s) ->
  unique (t_index (NewtonSolver.target s)) = true ->
  unique (index pos) = true ->
  In l (index pos) ->
  ~ In l (t_index (NewtonSolver.target s)) ->
  NewtonSolver.suggest_next_voltage lstsq_solve s
  = match NewtonSolver.jacobian s with
    | Ok _ => Raise LinAlgError
    | Raise e => Raise e
    end.
Proof.
  intros Hpos Hq Hlen Hdes Hut Hup Hin Hout.
  unfold NewtonSolver.suggest_next_voltage.
  rewrite (first_suggestion_quiet _ Hq). cbn [Py.bind]. rewrite Hpos.
  unfold Pd.sub, desired. rewrite (index_combine _ _ Hdes).
  destruct (list_eq_dec string_dec _ _) as [Heq|_];
    [exfalso; apply Hout; now rewrite Heq|].
  rewrite Hut, Hup. cbn [andb Py.bind].
  destruct (NewtonSolver.jacobian s) as [jac|e] eqn:J; [|reflexivity].
  cbn [Py.bind]. unfold NewtonSolver.lstsq.
  pose proof (jacobian_rows _ _ J) as Hrows.
  pose proof (length_union_foreign _ _ l Hin Hout) as Hlong.
  unfold values. rewrite !length_map.
  unfold target_len in Hlen.
  destruct (Nat.eqb_spec (List.length jac)
              (List.length (union (t_index (NewtonSolver.target s)) (index pos))));
    [exfalso; lia | reflexivity].
Qed.

Lemma values_sub_cells (ix : list label) :
  forall (des : list float) (pos : Series float),
    List.length des = List.length ix ->
    values (Np.zip_with (fun x y => (fst x, PrimFloat.sub (snd x) (snd y)))
                        (combine ix des) pos)
    = Np.zip_with PrimFloat.sub des (values pos).
Proof.
  induction ix as [|l ix IH]; intros [|d des] pos H; try discriminate;
    [reflexivity|].
  destruct pos as [|c pos]; [reflexivity|].
  cbn [combine Np.zip_with values map fst snd]. f_equal.
  apply IH. simpl in H. lia.
Qed.

(** X20: [suggest_next_voltage] answers when the current position is
    indexed by the parameters of the target themselves, in the same order:
    with no estimator asking for a measurement, the step is the
    least-squares solution for the Jacobian and the cell-by-cell difference
    [desired - current_position], and the suggestion is the current position
    plus that step. *)
Theorem newton_same_labels (s : NewtonSolver.state) (pos : Series float)
  (jac : list (list float)) :
  NewtonSolver.current_position s = Some pos ->
  quiet (NewtonSolver.gradient_estimators s) ->
  target_len (NewtonSolver.target s) = List.length (NewtonSolver.gradient_estimators s) ->
  List.length (t_desired (NewtonSolver.target s)) = target_len (NewtonSolver.target s) ->
  index pos = t_index (NewtonSolver.target s) ->
  NewtonSolver.jacobian s = Ok jac ->
  NewtonSolver.suggest_next_voltage lstsq_solve s
  = (step <- lstsq_solve jac
               (Np.zip_with PrimFloat.sub (t_desired (NewtonSolver.target s))
                            (values pos)) ;;
     add_array pos step).
Proof.
  intros Hpos Hq Hlen Hdes Hix J.
  unfold NewtonSolver.suggest_next_voltage.
  rewrite (first_suggestion_quiet _ Hq). cbn [Py.bind]. rewrite Hpos.
  unfold Pd.sub, desired. rewrite (index_combine _ _ Hdes).
  destruct (list_eq_dec string_dec _ _) as [_|Hne]; [|now rewrite Hix in Hne].
  cbn [Py.bind]. rewrite J. cbn [Py.bind].
  rewrite (values_sub_cells _ _ _ Hdes). unfold NewtonSolver.lstsq.
  pose proof (jacobian_rows _ _ J) as Hrows.
  assert (Hpl : List.length (values pos) = target_len (NewtonSolver.target s)).
  { unfold values, target_len. rewrite <- Hix. unfold index.
    now rewrite !length_map. }
  rewrite length_zip_with by congruence.
  destruct (Nat.eqb_spec (List.length jac)
              (List.length (t_desired (NewtonSolver.target s))));
    [reflexivity | exfalso; congruence].
Qed.

End NewtonLabels.

Lemma newton_same_labels_witness :
  Solver.NewtonSolver.suggest_next_voltage (fun _ b => Ok b)
    (Solver.NewtonSolver.mk example_target example_estimators
       (Some [("p1"%string, 0%float); ("p2"%string, 0%float)])
       [("p1"%string, nan); ("p2"%string, nan)])
  = Ok [("p1"%string, 1%float); ("p2"%string, 1%float)].
Proof.
  rewrite (newton_same_labels (fun _ b => Ok b) _
             [("p1"%string, 0%float); ("p2"%string, 0%float)]
             [[1; 0]; [0; 1]]%float).
  - reflexivity.
  - reflexivity.
  - intros e [<-|[<-|[]]]; reflexivity.
  - reflexivity.
  - reflexivity.
  - reflexivity.
  - reflexivity.
Defined.

Lemma newton_foreign_label_raises_witness :
  Solver.NewtonSolver.suggest_next_voltage (fun _ b => Ok b) example_newton
  = Raise LinAlgError.
Proof.
  rewrite (newton_foreign_label_raises (fun _ b => Ok b) example_newton
             example_position "v1"%string).
  - reflexivity.
  - reflexivity.
  - intros e [<-|[<-|[]]]; reflexivity.
  - reflexivity.
  - reflexivity.
  - reflexivity.
  - reflexivity.
  - left. reflexivity.
  - simpl. intros [H|[H|[]]]; discriminate.
Defined.

(** ** [load_single_evaluation_from_group] *)

Section SingleEvaluation.

Import H5 Analyzer.
Local Open Scope string_scope.

Lemma attribute_loop_ok (d : node) (attributes : list string)
  (ps infos ps' infos' : Pd.Series attr) :
  attribute_loop d attributes ps infos = Ok (ps', infos') ->
  attributes = [] /\ ps' = ps /\ infos' = infos.
Proof.
  destruct attributes as [|attribute rest]; simpl.
  - intros H. injection H as <- <-. auto.
  - destruct (contains_substring _ _); discriminate.
Qed.

(** X21: [load_single_evaluation_from_group] reports no attribute, ever.
    Without a name and with the number left at -1 it prints a request and
    raises [ValueError]. Whenever it returns, the evaluator dataset - the
    one named, or the one the number picks from the known evaluators - has
    no attributes at all, both returned series are empty, and nothing was
    printed: a dataset that has an attribute makes the call raise. *)
Theorem load_single_evaluation_from_group_returns (data_group : node) :
  (forall w,
      load_single_evaluation_from_group data_group None (-1) w
      = (Raise ValueError,
         after_lines w ["Please choose an evaluator. This can be done by name or "
                        ++ "from the Series of known evaluators."] (stdin w)))
  /\ (forall name number w raw ps infos w',
         load_single_evaluation_from_group data_group name number w
         = (Ok (raw, ps, infos), w') ->
         ps = [] /\ infos = [] /\ w' = w
         /\ exists selected d,
             (name = Some selected
              \/ name = None /\ Py.getitem known_evaluators number = Ok selected)
             /\ getitem data_group [selected] = Ok d
             /\ attrs_of d = []
             /\ read d = Ok raw).
Proof.
  split; [reflexivity|].
  intros name number w raw ps infos w' H.
  unfold load_single_evaluation_from_group in H.
  apply mbind_ok in H. destruct H as (selected & w1 & Hsel & H).
  apply mbind_ok in H. destruct H as (d & w2 & Hd & H).
  apply lift_ok in Hd. destruct Hd as [Hd ->].
  apply mbind_ok in H. destruct H as (raw' & w3 & Hraw & H).
  apply lift_ok in Hraw. destruct Hraw as [Hraw ->].
  apply mbind_ok in H. destruct H as ([ps' infos'] & w4 & Hloop & H).
  apply lift_ok in Hloop. destruct Hloop as [Hloop ->].
  unfold ret in H. injection H as <- <- <- <-.
  apply attribute_loop_ok in Hloop. destruct Hloop as (Hattrs & -> & ->).
  assert (Hw : w1 = w
               /\ (name = Some selected
                   \/ name = None /\ Py.getitem known_evaluators number = Ok selected)).
  { destruct name as [nm|].
    - unfold ret in Hsel. injection Hsel as <- <-. auto.
    - destruct (number =? -1)%Z.
      + apply mbind_ok in Hsel. destruct Hsel as (u & w5 & _ & Hsel). discriminate.
      + apply lift_ok in Hsel. destruct Hsel as [Hsel ->]. auto. }
  destruct Hw as [-> Hname].
  repeat split; try reflexivity.
  exists selected, d. repeat split; try assumption.
  destruct (attrs_of d); [reflexivity | discriminate].
Qed.

End SingleEvaluation.

Lemma load_single_evaluation_from_group_returns_witness :
  Analyzer.load_single_evaluation_from_group bare_step None 0 sequence_world
  = (Ok (H5.Floats (Np.array1 [1; 2]%float), [], []), sequence_world)
  /\ exists selected d,
      Py.getitem Analyzer.known_evaluators 0 = Ok selected
      /\ H5.getitem bare_step [selected] = Ok d
      /\ H5.attrs_of d = [].
Proof.
  split; [reflexivity|].
  destruct (proj2 (load_single_evaluation_from_group_returns bare_step)
              None 0 sequence_world
              (H5.Floats (Np.array1 [1; 2]%float)) [] [] sequence_world eq_refl)
    as (_ & _ & _ & selected & d & Hname & Hd & Hattrs & Hraw).
  exists selected, d.
  destruct Hname as [Hname|[_ Hname]]; [discriminate|].
  split; [exact Hname|]. split; [exact Hd | exact Hattrs].
Defined.

(** ** [NewtonSolver.update_after_step] *)

Section NewtonUpdate.

Import Pd Solver.

Variable update :
  GradientEstimator -> Series float -> float -> float -> result GradientEstimator.

(** X22: [NewtonSolver.update_after_step] never stores the applied voltages.
    A solver without a current position cannot be updated: once the
    estimators are through, the call raises (at the latest with
    [AttributeError]). And a call that succeeds leaves as the current
    position what [parameters] holds under the labels of the old position,
    and as the current values what [parameters] holds under the labels of
    the old values - the same for any two vectors of voltages. *)
Theorem newton_update_after_step_position (s : NewtonSolver.state)
  (voltages parameters variances : Series float) :
  (NewtonSolver.current_position s = None ->
   exists e, snd (NewtonSolver.update_after_step update s voltages parameters variances)
             = Raise e)
  /\ (forall s',
         NewtonSolver.update_after_step update s voltages parameters variances
         = (s', Ok tt) ->
         exists position,
           NewtonSolver.current_position s = Some position
           /\ (position' <- getitem_labels parameters (index position) ;;
               Ok (Some position'))
              = Ok (NewtonSolver.current_position s')
           /\ getitem_labels parameters (index (NewtonSolver.current_values s))
              = Ok (NewtonSolver.current_values s')).
Proof.
  unfold NewtonSolver.update_after_step.
  destruct (NewtonSolver.update_estimators update _ voltages _ _) as [ests [u|e]].
  - split.
    + intros ->. eexists. reflexivity.
    + intros s' H.
      destruct (NewtonSolver.current_position s) as [position|]; [|discriminate].
      exists position. split; [reflexivity|].
      destruct (getitem_labels parameters (index position)) as [position'|e];
        [|discriminate].
      destruct (getitem_labels parameters (index (NewtonSolver.current_values s)))
        as [values'|e]; [|discriminate].
      injection H as <-. split; reflexivity.
  - split; [intros _; eexists; reflexivity | discriminate].
Qed.

End NewtonUpdate.

Lemma newton_update_after_step_position_witness :
  Solver.NewtonSolver.current_position
    (fst (Solver.NewtonSolver.update_after_step (fun e _ _ _ => Ok e)
            (Solver.NewtonSolver.mk example_target example_estimators
               (Some [("p1"%string, 0%float); ("p2"%string, 0%float)])
               [("p1"%string, nan); ("p2"%string, nan)])
            [("v1"%string, 9%float); ("v2"%string, 8%float)]
            [("p1"%string, 5%float); ("p2"%string, 6%float)]
            [("p1"%string, 1%float); ("p2"%string, 1%float)]))
  = Some [("p1"%string, 5%float); ("p2"%string, 6%float)].
Proof.
  destruct (proj2 (newton_update_after_step_position (fun e _ _ _ => Ok e)
                     (Solver.NewtonSolver.mk example_target example_estimators
                        (Some [("p1"%string, 0%float); ("p2"%string, 0%float)])
                        [("p1"%string, nan); ("p2"%string, nan)])
                     [("v1"%string, 9%float); ("v2"%string, 8%float)]
                     [("p1"%string, 5%float); ("p2"%string, 6%float)]
                     [("p1"%string, 1%float); ("p2"%string, 1%float)])
              _ eq_refl) as (position & Hp & Hpos & _).
  injection Hp as <-.
  exact (eq_sym (f_equal (fun r => match r with Ok v => v | Raise _ => None end) Hpos)).
Defined.

(** ** [Analyzer.load_cd_gradient] *)

Section ChargeDiagram.

Import H5 Analyzer.
Local Open Scope string_scope.

(** X23: whatever [load_cd_gradient(k, n)] returns was read from
    [charge_diagram_<k>] of run [n] itself. A call that returns found the
    group there and printed and changed nothing beyond what
    [load_tune_run_group(n)] does; it never hands on data of an earlier
    run. *)
Theorem load_cd_gradient_own_run (k n : Z) (w w' : world) (t : triple) :
  load_cd_gradient k n w = (Ok t, w') ->
  exists trg cd,
    load_tune_run_group n w = (Ok trg, w')
    /\ resolve (root_group (self w)) [tunerun n; "charge_diagram_" ++ str k] = Some cd
    /\ load_gradient_from_group cd = Ok t.
Proof.
  intros H. pose proof H as H0. unfold load_cd_gradient in H.
  rewrite load_cd_gradient_at_eq in H.
  apply mbind_ok in H. destruct H as (trg & w1 & Hg & H).
  apply mbind_ok in H. destruct H as (present & w2 & Hpresent & H).
  apply lift_ok in Hpresent. destruct Hpresent as [Hpresent ->].
  destruct present.
  - cbn [negb] in H.
    apply mbind_ok in H. destruct H as (u & w3 & Hret & H).
    unfold ret in Hret. injection Hret as _ <-.
    apply mbind_ok in H. destruct H as (cd & w4 & Hcd & H).
    apply lift_ok in Hcd. destruct Hcd as [Hcd ->].
    apply lift_ok in H. destruct H as [Ht ->].
    exists trg, cd. split; [exact Hg|]. split; [|exact Ht].
    exact (resolve_step _ _ _ _ _ (load_tune_run_group_ok _ _ _ _ Hg) Hcd).
  - exfalso.
    destruct (load_cd_gradient_absent_raises (Z.to_nat n) k n w w1 trg Hg Hpresent)
      as (e & w5 & Habs).
    unfold load_cd_gradient in H0. rewrite Habs in H0. discriminate.
Qed.

End ChargeDiagram.

Lemma load_cd_gradient_own_run_witness :
  exists trg cd,
    Analyzer.load_tune_run_group 0 charge_diagram_world
    = (Ok trg, snd (Analyzer.load_cd_gradient 1 0 charge_diagram_world))
    /\ H5.resolve charge_diagram_file [Analyzer.tunerun 0; "charge_diagram_1"%string]
       = Some cd
    /\ Analyzer.load_gradient_from_group cd
       = Ok (H5.Floats (Np.mk_ndarray [2; 2]%nat [1; 2; 3; 4]%float),
             H5.Floats (Np.mk_ndarray [2; 2]%nat [1; 0; 0; 1]%float), None).
Proof.
  apply (load_cd_gradient_own_run 1 0 charge_diagram_world
           (snd (Analyzer.load_cd_gradient 1 0 charge_diagram_world))).
  reflexivity.
Defined.

(** ** [Analyzer.load_gradient_setup] *)

Section GradientSetup.

Import H5 Analyzer.
Local Open Scope string_scope.

(** X24: unlike [load_cd_gradient], [load_gradient_setup(k, n)] does hand on
    what an earlier run holds: the triple it returns is the one stored in
    [gradient_setup_<k>] of a run [m] with [m = n], or [0 <= m < n] after
    the operator has agreed to fall back. *)
Theorem load_gradient_setup_sound (k n : Z) (w w' : world) (t : triple) :
  load_gradient_setup k n w = (Ok t, w') ->
  exists m g,
    (m = n \/ 0 <= m < n)%Z
    /\ resolve (root_group (self w)) [tunerun m; gradient_setup k] = Some g
    /\ load_gradient_from_group g = Ok t.
Proof.
  intros H. unfold load_gradient_setup in H.
  apply mbind_ok in H. destruct H as (g & w1 & Hg & H).
  apply lift_ok in H. destruct H as [Ht _].
  unfold load_gradient_group in Hg.
  destruct (load_gradient_group_at_sound _ _ _ _ _ _ Hg)
    as (m & consumed & Hm & Hres & _).
  exists m, g. auto.
Qed.

End GradientSetup.

Lemma load_gradient_setup_sound_witness :
  exists m g,
    (m = 1 \/ 0 <= m < 1)%Z
    /\ H5.resolve stored_setup_file [Analyzer.tunerun m; gradient_setup 1] = Some g
    /\ Analyzer.load_gradient_from_group g
       = Ok (H5.Floats (Np.mk_ndarray [1; 1]%nat [2]%float),
             H5.Floats (Np.mk_ndarray [1; 1]%nat [1]%float), None).
Proof.
  apply (load_gradient_setup_sound 1 1 (stored_setup_world ["Y"%string])
           (snd (Analyzer.load_gradient_setup 1 1 (stored_setup_world ["Y"%string])))).
  vm_compute. reflexivity.
Defined.

(** ** [Analyzer.load_tune_run_group] *)

Section TuneRunGroup.

Import H5 Analyzer.
Local Open Scope string_scope.

Lemma contains_resolve (g : node) (path : list string) (b : bool) :
  contains g path = Ok b ->
  b = match resolve g path with Some _ => true | None => false end.
Proof.
  destruct g; simpl; [|discriminate]. intros H. now injection H.
Qed.

Lemma getitem_resolve (g x : node) (path : list string) :
  getitem g path = Ok x -> resolve g path = Some x.
Proof.
  destruct g; simpl; [|discriminate].
  destruct (resolve _ path); [|discriminate]. intros H. now injection H as ->.
Qed.

Lemma resolve_below (root trg : node) (a : string) (rest : list string) :
  resolve root [a] = Some trg -> resolve root (a :: rest) = resolve trg rest.
Proof.
  simpl. destruct (member root a); [|discriminate]. intros H. now injection H as ->.
Qed.

Lemma load_parameter_names_ok (n : Z) (w w1 : world) (trg : node) (u : unit) :
  resolve (root_group (self w)) [tunerun n] = Some trg ->
  load_parameter_names n w = (Ok u, w1) ->
  match names_source trg with
  | Some g => exists d names,
                getitem g ["parameter_names"] = Ok d
                /\ read d = Ok names
                /\ w1 = with_parameter_names w names
  | None => w1 = after_lines w ["parameter_names could not be loaded!"] (stdin w)
  end.
Proof.
  intros Hres H. unfold load_parameter_names in H.
  unfold mbind at 1, get_self in H.
  apply mbind_ok in H. destruct H as (in_sequence & w2 & Hseq & H).
  apply lift_ok in Hseq. destruct Hseq as [Hseq ->].
  apply contains_resolve in Hseq. rewrite (resolve_below _ _ _ _ Hres) in Hseq.
  unfold names_source.
  destruct (resolve trg ["tune_sequence"]) as [seq|] eqn:Eseq; subst in_sequence.
  - apply mbind_ok in H. destruct H as (g & w2 & Hg & H).
    apply lift_ok in Hg. destruct Hg as [Hg ->].
    apply getitem_resolve in Hg. rewrite (resolve_below _ _ _ _ Hres), Eseq in Hg.
    injection Hg as <-.
    apply mbind_ok in H. destruct H as (names & w2 & Hnames & H).
    apply lift_ok in Hnames. destruct Hnames as [Hnames ->].
    apply bind_ok in Hnames. destruct Hnames as (d & Hd & Hread).
    unfold set_self in H. injection H as _ <-.
    exists d, names. auto.
  - apply mbind_ok in H. destruct H as (in_setup & w2 & Hsetup & H).
    apply lift_ok in Hsetup. destruct Hsetup as [Hsetup ->].
    apply contains_resolve in Hsetup. rewrite (resolve_below _ _ _ _ Hres) in Hsetup.
    destruct (resolve trg ["gradient_setup_1"]) as [gs|] eqn:Egs; subst in_setup.
    + apply mbind_ok in H. destruct H as (g & w2 & Hg & H).
      apply lift_ok in Hg. destruct Hg as [Hg ->].
      apply getitem_resolve in Hg. rewrite (resolve_below _ _ _ _ Hres), Egs in Hg.
      injection Hg as <-.
      apply mbind_ok in H. destruct H as (names & w2 & Hnames & H).
      apply lift_ok in Hnames. destruct Hnames as [Hnames ->].
      apply bind_ok in Hnames. destruct Hnames as (d & Hd & Hread).
      unfold set_self in H. injection H as _ <-.
      exists d, names. auto.
    + unfold print in H. injection H as _ <-. reflexivity.
Qed.

(** X25: a group that [load_tune_run_group(n)] returns is the member
    [tunerun_<n>] of the file, and by then the parameter names have been
    read anew: from the run's tune sequence if it has one, else from its
    first gradient setup - the dataset [parameter_names] must be there, a
    run without it cannot be loaded. A run with neither group keeps the
    names loaded before, with one printed line to tell. Nothing else of the
    analyzer or the console changes. *)
Theorem load_tune_run_group_returns (n : Z) (w w1 : world) (trg : node) :
  load_tune_run_group n w = (Ok trg, w1) ->
  resolve (root_group (self w)) [tunerun n] = Some trg
  /\ match names_source trg with
     | Some g => exists d names,
                   getitem g ["parameter_names"] = Ok d
                   /\ read d = Ok names
                   /\ w1 = with_parameter_names w names
     | None => w1 = after_lines w ["parameter_names could not be loaded!"] (stdin w)
     end.
Proof.
  intros H. pose proof (load_tune_run_group_ok _ _ _ _ H) as Hres.
  split; [exact Hres|].
  unfold load_tune_run_group in H. unfold mbind at 1, get_self in H.
  apply mbind_ok in H. destruct H as (present & w2 & Hpresent & H).
  apply lift_ok in Hpresent. destruct Hpresent as [Hpresent ->].
  destruct present.
  - apply mbind_ok in H. destruct H as (g & w2 & Hg & H).
    apply lift_ok in Hg. destruct Hg as [Hg ->].
    apply mbind_ok in H. destruct H as (u & w2 & Hnames & H).
    unfold ret in H. injection H as _ <-.
    exact (load_parameter_names_ok _ _ _ _ _ Hres Hnames).
  - apply mbind_ok in H. destruct H as (u & w2 & _ & H). discriminate.
Qed.

End TuneRunGroup.

Lemma load_tune_run_group_returns_witness :
  H5.resolve sequence_file [Analyzer.tunerun 1]
  = Some (H5.Group []
            [("tune_sequence"%string,
              H5.Group []
                [("parameter_names"%string,
                  H5.Dataset [] (H5.Names ["parameter_x"%string]));
                 ("step_0"%string, first_step)])])
  /\ exists d names,
      H5.getitem (H5.Group []
                    [("parameter_names"%string,
                      H5.Dataset [] (H5.Names ["parameter_x"%string]));
                     ("step_0"%string, first_step)])
                 ["parameter_names"%string] = Ok d
      /\ H5.read d = Ok names
      /\ snd (Analyzer.load_tune_run_group 1 sequence_world)
         = with_parameter_names sequence_world names.
Proof.
  apply (load_tune_run_group_returns 1 sequence_world
           (snd (Analyzer.load_tune_run_group 1 sequence_world))).
  reflexivity.
Defined.
